(** * Hybrid retrieval and reranking: a model of [backend/app/main.py]

    The retrieval core of the chatbot backend: dense search through the
    vector store, lexical search through BM25, fusion with de-duplication,
    cross-encoder reranking, and the list of cited urls.

    Conventions of the embedding.
    - A Python [str] is a [string], one [ascii] per character.
    - A finite Python [float] is the rational number it denotes ([Q]);
      comparisons are the rational ones, and two scores are "equal" when
      they are [Qeq].
    - A Python [int] is a [Z].
    - [None] in an optional field is [None]; a present value is [Some].
    - A raised exception is the [Raised] outcome of a computation; the
      calls to the embedding model, the vector store, the cross-encoder
      and the chat model are recorded, in order, in a trace.
    - The candidate dictionaries are built afresh by the two search
      functions for each request, so no dictionary occurs twice in a
      candidate list; a candidate list is then a list of records and the
      assignment [d["rerank_score"] = ...] a record update.  The section
      on objects relates this to the in-place write. *)

From Stdlib Require Import ZArith QArith String Ascii List Sorted Permutation Lia.
From stdpp Require Import base decidable option list sorting gmap strings sets.

(** ** Python built-ins used by the module *)

Module Py.

(** Truth value of an optional string: [None] and [""] are false. *)
Definition truthy (o : option string) : bool :=
  match o with
  | Some EmptyString => false
  | Some _ => true
  | None => false
  end.

(** [a or b] *)
Definition or_ (a b : option string) : option string :=
  if truthy a then a else b.

(** [l[:k]], for any integer [k] (a negative [k] counts from the end). *)
Definition slice_to {A : Type} (k : Z) (l : list A) : list A :=
  if (0 <=? k)%Z then take (Z.to_nat k) l
  else take (Z.to_nat (Z.of_nat (length l) + k)) l.

(** [s[:n]] on a string, for [n >= 0]. *)
Definition str_prefix (n : nat) (s : string) : string := substring 0 n s.

(** Characters on which [str.split()] cuts. *)
Definition isspace (c : ascii) : bool :=
  let n := nat_of_ascii c in
  ((9 <=? n) && (n <=? 13)) || ((28 <=? n) && (n <=? 32))
  || (n =? 133) || (n =? 160).

(** [s.split()]: maximal runs of non-space characters, in order.
    [cur] is the word being read, if any. *)
Fixpoint split_from (cur : option string) (s : string) : list string :=
  match s with
  | EmptyString => match cur with Some w => [w] | None => [] end
  | String c s' =>
      if isspace c then
        match cur with
        | Some w => w :: split_from None s'
        | None => split_from None s'
        end
      else split_from (Some (default EmptyString cur +:+ String c EmptyString)) s'
  end.

Definition split (s : string) : list string := split_from None s.

(** [sorted(l, key=key, reverse=True)]: a stable sort into descending
    key order.  [x] is put in front of the first element whose key does
    not exceed its own, so an element that came earlier in the input
    stays ahead of later ones with an equal key. *)
Fixpoint insert_desc {A : Type} (key : A -> Q) (x : A) (l : list A) : list A :=
  match l with
  | [] => [x]
  | y :: l' =>
      if Qle_bool (key y) (key x) then x :: y :: l'
      else y :: insert_desc key x l'
  end.

Definition sorted_desc {A : Type} (key : A -> Q) (l : list A) : list A :=
  fold_right (insert_desc key) [] l.

(** [list(dict.fromkeys(l))]: the keys in order of first insertion. *)
Definition fromkeys {A : Type} `{EqDecision A} (l : list A) : list A :=
  fold_left (fun keys x => if decide (x ∈ keys) then keys else keys ++ [x]) l [].

(** [range(n)] *)
Definition range (n : nat) : list nat := seq 0 n.

(** [sep.join(l)] *)
Fixpoint join (sep : string) (l : list string) : string :=
  match l with
  | [] => EmptyString
  | [s] => s
  | s :: l' => s +:+ sep +:+ join sep l'
  end.

(** The line feed written [\n] in a string literal. *)
Definition nl : string := String (ascii_of_nat 10) EmptyString.

End Py.

(** ** Data model *)

(** A line of [bm25_corpus.jsonl]: [{"text": ..., "metadata": {...}}]. *)
Record Metadata := mkMetadata {
  meta_url : option string;
  meta_source_path : option string;
  meta_title : option string
}.

Record Doc := mkDoc {
  doc_text : string;
  doc_metadata : Metadata
}.

(** A hit of the vector store: a score and an optional payload whose
    keys may be missing. *)
Record Payload := mkPayload {
  payload_text : option string;
  payload_url : option string;
  payload_title : option string
}.

Record Hit := mkHit {
  hit_payload : option Payload;
  hit_score : Q
}.

Inductive Source := src_vector | src_bm25.

(** The dictionary built by the two search functions; [rerank_score] is
    the key added by [rerank_locally]. *)
Record Candidate := mkCandidate {
  text : string;
  url : option string;
  title : option string;
  score : Q;
  source : Source;
  rerank_score : option Q
}.

Definition set_rerank_score (d : Candidate) (s : Q) : Candidate :=
  {| text := text d; url := url d; title := title d; score := score d;
     source := source d; rerank_score := Some s |}.

(** The de-duplication key of [hybrid_retrieve]. *)
Definition Key : Type := string * option string.

Record ChatRequest := mkChatRequest {
  req_query : string;
  req_k : Z
}.

Record ChatResponse := mkChatResponse {
  answer : string;
  sources : list string
}.

(** ** Exceptions and external calls *)

Inductive PyError :=
  | EmbeddingError
  | VectorStoreError
  | IndexError
  | RerankModelError
  | ChatModelError.

Inductive result (A : Type) :=
  | Ok (a : A)
  | Raised (e : PyError).
Arguments Ok {A} a.
Arguments Raised {A} e.

Inductive Event :=
  | EvEncode (query : string)
  | EvSearch (query_vector : list Q) (limit : Z) (score_threshold : Q)
  | EvPredict (inputs : list (string * string))
  | EvGenerate (prompt : string).

(** A computation threads the trace of external calls and may raise. *)
Definition M (A : Type) : Type := list Event -> result A * list Event.

Definition ret {A : Type} (a : A) : M A := fun tr => (Ok a, tr).

Definition bind {A B : Type} (m : M A) (f : A -> M B) : M B :=
  fun tr =>
    match m tr with
    | (Ok a, tr') => f a tr'
    | (Raised e, tr') => (Raised e, tr')
    end.

(** An external call: log it, then return or raise what it gave. *)
Definition call {A : Type} (ev : Event) (r : result A) : M A :=
  fun tr => (r, tr ++ [ev]).

(** A computation without external calls. *)
Definition lift {A : Type} (r : result A) : M A := fun tr => (r, tr).

Declare Scope py_scope.
Delimit Scope py_scope with py.
Notation "x <- m ;; k" := (bind m (fun x => k))
  (at level 100, m at next level, right associativity) : py_scope.

Definition result_bind {A B : Type} (r : result A) (f : A -> result B) : result B :=
  match r with
  | Ok a => f a
  | Raised e => Raised e
  end.

(** ** Module-level state of [main.py]

    The corpus read from [bm25_corpus.jsonl] and the clients created at
    import time.  The third-party calls are taken as they are: each is a
    function of its arguments that returns or raises. *)

Class Globals := {
  (** [docs] *)
  docs : list Doc;
  (** [BM25Okapi(tokenized).get_scores(tokens)] *)
  BM25Okapi_get_scores : list (list string) -> list string -> list Q;
  (** [embed_model.encode(query).tolist()] *)
  embed_model_encode : string -> result (list Q);
  (** [qdrant.search(collection_name=QDRANT_COLLECTION, query_vector=qv,
      limit=k, with_payload=True, score_threshold=t)] *)
  qdrant_search : list Q -> Z -> Q -> result (list Hit);
  (** [reranker_model.predict(inputs)] *)
  reranker_model_predict : list (string * string) -> result (list Q);
  (** [openai_client.chat.completions.create(model="gpt-4o-mini",
      messages=[{"role": "user", "content": prompt}], temperature=0.2)
      .choices[0].message.content] *)
  openai_chat_completion : string -> result string
}.

Section Backend.
Context `{G : Globals}.
Local Open Scope py_scope.

Definition corpus : list string := doc_text <$> docs.
Definition tokenized : list (list string) := Py.split <$> corpus.
Definition bm25_get_scores (tokens : list string) : list Q :=
  BM25Okapi_get_scores tokenized tokens.

Definition embed_query (query : string) : M (list Q) :=
  call (EvEncode query) (embed_model_encode query).

(** The literal [0.15] passed as [score_threshold]. *)
Definition score_threshold : Q := 15 # 100.

Definition hit_to_candidate (h : Hit) : Candidate :=
  let payload := default (mkPayload None None None) (hit_payload h) in
  {| text := default EmptyString (payload_text payload);
     url := payload_url payload;
     title := payload_title payload;
     score := hit_score h;
     source := src_vector;
     rerank_score := None |}.

Definition vector_search (query : string) (k : Z) : M (list Candidate) :=
  qv <- embed_query query ;;
  hits <- call (EvSearch qv k score_threshold) (qdrant_search qv k score_threshold) ;;
  ret (fold_left (fun results h => results ++ [hit_to_candidate h]) hits []).

Definition doc_to_candidate (d : Doc) (s : Q) : Candidate :=
  {| text := doc_text d;
     url := Py.or_ (meta_url (doc_metadata d)) (meta_source_path (doc_metadata d));
     title := meta_title (doc_metadata d);
     score := s;
     source := src_bm25;
     rerank_score := None |}.

(** [l[i]] for an index produced by [range]: raises [IndexError] when
    the list is too short. *)
Definition index {A : Type} (l : list A) (i : nat) : result A :=
  match l !! i with
  | Some x => Ok x
  | None => Raised IndexError
  end.

Definition bm25_search (query : string) (k : Z) : result (list Candidate) :=
  let scores := bm25_get_scores (Py.split query) in
  let top_idx :=
    Py.slice_to k
      (Py.sorted_desc (fun i => default 0%Q (scores !! i)) (Py.range (length scores))) in
  fold_left
    (fun acc i =>
       result_bind acc (fun results =>
       result_bind (index docs i) (fun d =>
       result_bind (index scores i) (fun s =>
       Ok (results ++ [doc_to_candidate d s])))))
    top_idx (Ok []).

Definition dedup_key (r : Candidate) : Key := (Py.str_prefix 64 (text r), url r).

(** One turn of the de-duplication loop over [combined]. *)
Definition dedup_step (st : gset Key * list Candidate) (r : Candidate)
  : gset Key * list Candidate :=
  let '(seen, unique) := st in
  let key := dedup_key r in
  if decide (key ∈ seen) then (seen, unique)
  else ({[key]} ∪ seen, unique ++ [r]).

Definition dedup (combined : list Candidate) : list Candidate :=
  snd (fold_left dedup_step combined (∅, [])).

(** Lines 91 to 102 of [hybrid_retrieve]: what is done with the two
    result lists once both searches have returned. *)
Definition merge (vec_results bm25_results : list Candidate) (k : Z) : list Candidate :=
  let combined := vec_results ++ bm25_results in
  let unique := dedup combined in
  Py.slice_to (Z.max (k * 2) 10) unique.

Definition hybrid_retrieve (query : string) (k : Z) : M (list Candidate) :=
  vec_results <- vector_search query k ;;
  bm25_results <- lift (bm25_search query k) ;;
  ret (merge vec_results bm25_results k).

Definition rerank_locally (query : string) (docs_in : list Candidate) (top_n : Z)
  : M (list Candidate) :=
  match docs_in with
  | [] => ret []
  | _ =>
      let inputs := (fun d => (query, text d)) <$> docs_in in
      scores <- call (EvPredict inputs) (reranker_model_predict inputs) ;;
      let ranked := Py.sorted_desc snd (zip docs_in scores) in
      ret (fold_left (fun result '(d, s) => result ++ [set_rerank_score d s])
             (Py.slice_to top_n ranked) [])
  end.

(** Line 165 of [chat]. *)
Definition collect_sources (top_ctx : list Candidate) : list string :=
  Py.fromkeys
    ((fun c => default EmptyString (url c)) <$>
       List.filter (fun c => Py.truthy (url c)) top_ctx).

Definition instructions : string :=
  "Answer the user based ONLY on the context. " +:+
  "Cite 1-3 sources using markdown links to their URLs. " +:+
  "If not found, say you cannot find it in the docs and suggest closest relevant links. " +:+
  "Keep the answer concise with bullet points and bold key terms.".

Definition build_prompt (contexts : list Candidate) (query : string) : string :=
  let ctx :=
    fold_left
      (fun ctx c =>
         let url := default EmptyString (Py.or_ (url c) (Some EmptyString)) in
         let title := default EmptyString (Py.or_ (title c) (Some EmptyString)) in
         let snippet := default EmptyString (Py.or_ (Some (text c)) (Some EmptyString)) in
         ctx ++ ["Title: " +:+ title +:+ Py.nl +:+ "URL: " +:+ url +:+ Py.nl +:+
                 "Snippet: " +:+ snippet])
      contexts [] in
  let joined := Py.join (Py.nl +:+ Py.nl) ctx in
  instructions +:+ Py.nl +:+ Py.nl +:+ "Context:" +:+ Py.nl +:+ joined +:+
  Py.nl +:+ Py.nl +:+ "Question: " +:+ query +:+ Py.nl +:+ "Answer:".

Definition generate_answer (query : string) (contexts : list Candidate) : M string :=
  let prompt := build_prompt contexts query in
  call (EvGenerate prompt) (openai_chat_completion prompt).

Definition chat (req : ChatRequest) : M ChatResponse :=
  candidates <- hybrid_retrieve (req_query req) (req_k req) ;;
  reranked <- rerank_locally (req_query req) candidates 6 ;;
  let top_ctx := Py.slice_to 6 reranked in
  answer <- generate_answer (req_query req) top_ctx ;;
  let sources := collect_sources top_ctx in
  ret {| answer := answer; sources := sources |}.

End Backend.

(** ** The candidate dictionaries as objects

    In Python the items of a candidate list are references to
    dictionaries, and line 114 of [rerank_locally] writes the score
    through the reference.  [write_scores] is the loop of lines 112 to
    116 on a store of dictionaries addressed by object identity, and
    [rerank_objects] what [rerank_locally] does with the scores of the
    model.  For candidate lists without a repeated object, which is what
    the two search functions build, reading the returned references in
    the final store gives the list of updated records computed by
    [rerank_locally] above (lemma [rerank_objects_distinct] below). *)

Definition write_scores (store : gmap nat Candidate) (ranked : list (nat * Q))
  : gmap nat Candidate * list nat :=
  fold_left
    (fun '(store, result) '(d, s) =>
       (alter (fun c => set_rerank_score c s) d store, result ++ [d]))
    ranked (store, []).

Definition rerank_objects (store : gmap nat Candidate) (docs_in : list nat)
    (scores : list Q) (top_n : Z) : gmap nat Candidate * list nat :=
  write_scores store (Py.slice_to top_n (Py.sorted_desc snd (zip docs_in scores))).

(** ** Notions used in the statements *)

(** [x] stands at position [p] of [l] and no earlier element of [l] has
    its key. *)
Definition first_occurrence {A K : Type} (key : A -> K) (l : list A) (p : nat) (x : A) : Prop :=
  l !! p = Some x /\ forall q y, q < p -> l !! q = Some y -> key y <> key x.

(** The elements of [l] whose key is neither in [seen] nor carried by an
    earlier element of [l]: what a keep-the-first de-duplication leaves. *)
Fixpoint first_occurrences {A K : Type} `{EqDecision K}
    (key : A -> K) (seen : list K) (l : list A) : list A :=
  match l with
  | [] => []
  | x :: l' =>
      if decide (key x ∈ seen) then first_occurrences key seen l'
      else x :: first_occurrences key (key x :: seen) l'
  end.

(** On elements tagged with their input position: a larger key, or an
    equal key and an earlier position. *)
Definition tagged_before {A : Type} (key : A -> Q) (a b : nat * A) : Prop :=
  (key b.2 < key a.2)%Q \/ ((key a.2 == key b.2)%Q /\ a.1 < b.1).

(** Position [i] is ranked ahead of position [j] by a descending stable
    sort on [scores]: a larger score, or an equal score and an earlier
    position. *)
Definition ranks_before (scores : list Q) (i j : nat) : Prop :=
  exists si sj, scores !! i = Some si /\ scores !! j = Some sj /\
    ((sj < si)%Q \/ ((si == sj)%Q /\ i < j)).

(** ** A small deployment

    Three chunks about refunds, shipping and account deletion, a vector
    store holding three points, and stand-ins for the models.  Used to
    run the definitions on concrete inputs. *)

Module Demo.

Definition refund : Doc :=
  mkDoc "refund policy: how to get a refund"
    (mkMetadata (Some "https://docs.example/refund") None (Some "Refunds")).
Definition shipping : Doc :=
  mkDoc "shipping times"
    (mkMetadata None (Some "data/raw/shipping.md") None).
Definition deletion : Doc :=
  mkDoc "account deletion"
    (mkMetadata (Some "") (Some "data/raw/account.md") (Some "Account")).

(** Stand-in for BM25: the number of query tokens found in a document. *)
Definition count_hits (corpus : list (list string)) (tokens : list string) : list Q :=
  (fun doc => inject_Z (Z.of_nat (length (List.filter (fun t => bool_decide (t ∈ doc)) tokens))))
    <$> corpus.

Definition points : list Hit :=
  [ mkHit (Some (mkPayload (Some "refund policy: how to get a refund")
                   (Some "https://docs.example/refund") (Some "Refunds"))) (9 # 10);
    mkHit None (1 # 2);
    mkHit (Some (mkPayload (Some "account deletion") None None)) (1 # 10) ].

(** A store that honours [limit] and [score_threshold]. *)
Definition store (qv : list Q) (limit : Z) (threshold : Q) : result (list Hit) :=
  Ok (take (Z.to_nat limit) (List.filter (fun h => Qle_bool threshold (hit_score h)) points)).

(** Stand-in for the cross-encoder: the length of the passage. *)
Definition by_length (inputs : list (string * string)) : result (list Q) :=
  Ok ((fun p => inject_Z (Z.of_nat (String.length p.2))) <$> inputs).

Definition globals : Globals :=
  {| docs := [refund; shipping; deletion];
     BM25Okapi_get_scores := count_hits;
     embed_model_encode := fun _ => Ok [1 # 2; 1 # 3];
     qdrant_search := store;
     reranker_model_predict := by_length;
     openai_chat_completion := fun _ => Ok "See the refund policy." |}.

(** The same deployment with the cross-encoder out of service. *)
Definition globals_reranker_down : Globals :=
  {| docs := [refund; shipping; deletion];
     BM25Okapi_get_scores := count_hits;
     embed_model_encode := fun _ => Ok [1 # 2; 1 # 3];
     qdrant_search := store;
     reranker_model_predict := fun _ => Raised RerankModelError;
     openai_chat_completion := fun _ => Ok "See the refund policy." |}.

Definition request : ChatRequest := mkChatRequest "how do I get a refund" 8.

Definition cand (t : string) (u : option string) (s : Q) (src : Source) : Candidate :=
  mkCandidate t u None s src None.

(** Ten vector candidates with pairwise different texts. *)
Definition ten_vector : list Candidate :=
  (fun t => cand t (Some "https://docs.example/faq") (1 # 2) src_vector)
    <$> ["q0"; "q1"; "q2"; "q3"; "q4"; "q5"; "q6"; "q7"; "q8"; "q9"].

(** Two lexical candidates with one text and one url. *)
Definition twin_a : Candidate := cand "returns" (Some "https://docs.example/returns") 3 src_bm25.
Definition twin_b : Candidate := cand "returns" (Some "https://docs.example/returns") 1 src_bm25.

End Demo.

(** * The other modules of the repository

    [indexer/build_index.py] builds the vector payloads and the corpus
    file read by [main.py]; [crawler/chunk_docs.py] cleans and chunks
    the crawled pages; [crawler/crawl4ai.py] collects the urls and writes
    the pages.  Calls into third-party libraries and to the network are
    parameters. *)

(** ** More Python built-ins *)

Module PyMore.

(** [l[a:b]] for integers [a] and [b]: a negative bound counts from the
    end, and both bounds are clamped to the list. *)
Definition slice {A : Type} (a b : Z) (l : list A) : list A :=
  let len := Z.of_nat (length l) in
  let norm := fun i : Z => if (i <? 0)%Z then Z.max (i + len) 0 else Z.min i len in
  take (Z.to_nat (norm b - norm a)) (drop (Z.to_nat (norm a)) l).

(** [range(0, stop, step)]: [None] stands for the [ValueError] raised
    when [step] is zero; a negative [step] gives the empty range. *)
Definition range_step (stop : nat) (step : Z) : option (list Z) :=
  if (step =? 0)%Z then None
  else if (step <? 0)%Z then Some []
  else Some ((fun j => Z.of_nat j * step)%Z <$>
               seq 0 (Z.to_nat ((Z.of_nat stop + step - 1) / step))).

(** [s.lstrip()], [s.rstrip()], [s.strip()] *)
Fixpoint lstrip (s : string) : string :=
  match s with
  | EmptyString => EmptyString
  | String c s' => if Py.isspace c then lstrip s' else s
  end.

Fixpoint rstrip (s : string) : string :=
  match s with
  | EmptyString => EmptyString
  | String c s' =>
      match rstrip s' with
      | EmptyString => if Py.isspace c then EmptyString else String c EmptyString
      | r => String c r
      end
  end.

Definition strip (s : string) : string := lstrip (rstrip s).

(** [s.split(sep)] for a separator [sep] of one character. *)
Fixpoint split_char (sep : ascii) (s : string) : list string :=
  match s with
  | EmptyString => [EmptyString]
  | String c s' =>
      if decide (c = sep) then EmptyString :: split_char sep s'
      else match split_char sep s' with
           | w :: ws => String c w :: ws
           | [] => [String c EmptyString]
           end
  end.

(** [s.replace(old, new)] for a non-empty [old]: the occurrences of
    [old] are replaced from left to right, without overlap.  [skip]
    counts the characters of an occurrence still to be passed over. *)
Fixpoint replace_from (old new : string) (skip : nat) (s : string) : string :=
  match s with
  | EmptyString => EmptyString
  | String c s' =>
      match skip with
      | S n => replace_from old new n s'
      | O =>
          if String.prefix old s then new +:+ replace_from old new (String.length old - 1) s'
          else String c (replace_from old new 0 s')
      end
  end.

Definition replace (old new : string) (s : string) : string := replace_from old new 0 s.

(** Lower case of an ASCII letter; other characters are left alone. *)
Definition lower (c : ascii) : ascii :=
  let n := nat_of_ascii c in
  if (65 <=? n) && (n <=? 90) then ascii_of_nat (n + 32) else c.

(** [re.match(pat, s, re.I)] for a pattern [pat] of literal characters:
    [s] starts with [pat], letter case ignored. *)
Fixpoint startswith_ignorecase (pat s : string) : bool :=
  match pat, s with
  | EmptyString, _ => true
  | String p pat', String c s' =>
      bool_decide (lower p = lower c) && startswith_ignorecase pat' s'
  | String _ _, EmptyString => false
  end.

End PyMore.

(** ** [indexer/build_index.py] *)

(** The keys of a front matter that later code reads. *)
Record FrontMatter := mkFrontMatter {
  fm_url : option string;
  fm_source : option string;
  fm_source_path : option string;
  fm_title : option string
}.

(** An item of [load_markdown_docs]. *)
Record SourceDoc := mkSourceDoc {
  sd_content : string;
  sd_metadata : FrontMatter;
  sd_path : string
}.

Record ChunkMeta := mkChunkMeta {
  cm_url : option string;
  cm_source : option string;
  cm_source_path : option string;
  cm_title : option string;
  cm_chunk_id : nat
}.

Record Chunk := mkChunk {
  chunk_body : string;
  chunk_metadata : ChunkMeta
}.

(** [chunk_documents]; [split_text] is
    [RecursiveCharacterTextSplitter(...).split_text].  The dictionary
    [{**metadata, "source_path": path, "chunk_id": i}] keeps the front
    matter and overrides its [source_path]. *)
Definition chunk_documents (split_text : string -> list string) (docs : list SourceDoc)
  : list Chunk :=
  fold_left
    (fun all_chunks d =>
       fold_left
         (fun all_chunks '(i, part) =>
            all_chunks ++
            [ {| chunk_body := part;
                 chunk_metadata :=
                   {| cm_url := fm_url (sd_metadata d);
                      cm_source := fm_source (sd_metadata d);
                      cm_source_path := Some (sd_path d);
                      cm_title := fm_title (sd_metadata d);
                      cm_chunk_id := i |} |} ])
         (zip (seq 0 (length (split_text (sd_content d)))) (split_text (sd_content d)))
         all_chunks)
    docs [].

(** Lines 132 to 142 of [main]: the payload uploaded for a chunk. *)
Definition payload_of_chunk (c : Chunk) : Payload :=
  let meta := chunk_metadata c in
  let meta_url := Py.or_ (Py.or_ (cm_url meta) (cm_source meta)) (cm_source_path meta) in
  {| payload_text := Some (chunk_body c);
     payload_url := meta_url;
     payload_title := cm_title meta |}.

(** The line written by [build_bm25] for a chunk, as [main.py] reads it
    back from [bm25_corpus.jsonl]. *)
Definition doc_of_chunk (c : Chunk) : Doc :=
  {| doc_text := chunk_body c;
     doc_metadata :=
       {| meta_url := cm_url (chunk_metadata c);
          meta_source_path := cm_source_path (chunk_metadata c);
          meta_title := cm_title (chunk_metadata c) |} |}.

(** Lines 123 to 127 of [main]: the texts are embedded batch by batch.
    [None] stands for the [ValueError] of [range] on a zero batch size. *)
Definition embed_in_batches {V : Type} (embed_texts : list string -> list V)
    (texts : list string) (batch_size : Z) : option (list V) :=
  match PyMore.range_step (length texts) batch_size with
  | None => None
  | Some starts =>
      Some (fold_left
              (fun vectors i =>
                 vectors ++ embed_texts (PyMore.slice i (i + batch_size) texts))
              starts [])
  end.

(** ** [crawler/chunk_docs.py] *)

Definition boilerplate (line : string) : bool :=
  PyMore.startswith_ignorecase "Back to Top" line
  || PyMore.startswith_ignorecase "Table of Contents" line
  || match line with
     | String c _ => bool_decide (c = "*"%char)
     | EmptyString => false
     end.

Definition clean_text (text : string) : string :=
  let lines := PyMore.split_char (ascii_of_nat 10) text in
  let filtered :=
    fold_left
      (fun filtered line =>
         let line := PyMore.strip line in
         if (20 <? String.length line) && negb (boilerplate line)
         then filtered ++ [line] else filtered)
      lines [] in
  Py.join Py.nl filtered.

(** [chunk_text]; [None] stands for the [ValueError] of [range] on a
    zero [size]. *)
Definition chunk_text (text : string) (size : Z) : option (list string) :=
  let words := Py.split text in
  match PyMore.range_step (length words) size with
  | None => None
  | Some starts =>
      Some (fold_left
              (fun chunks i =>
                 chunks ++ [Py.join " " (PyMore.slice i (i + size) words)])
              starts [])
  end.

(** A section of a page: the length of the run of [#] of its heading
    and its cleaned text. *)
Record PageSection := mkPageSection {
  sec_level : nat;
  sec_text : string
}.

(** The pattern of [extract_sections], compiled with [re.MULTILINE], is
    a line start, a run of [#] (group 1), a run of white space, and the
    rest of the line (group 2).  A [HeadingScan] tells where the search
    for it stands after the characters read so far. *)
Inductive HeadingScan :=
| LineStart                       (* at the start of a line, where [^] holds *)
| Hashes (start level : nat)      (* in the [#]s of group 1, which began at [start] *)
| Blanks                          (* in the white space of a match *)
| InLine.                         (* in a line, after a match or without one *)

(** [pattern.finditer(md)]: for every match its [start()] and the
    length of its [group(1)].  A match is settled by the first white
    space after the [#]s; its white space runs over line ends, and its
    last group runs to the end of the line, so that the next match
    begins at a later line. *)
Fixpoint finditer_headings (st : HeadingScan) (pos : nat) (md : string)
  : list (nat * nat) :=
  match md with
  | EmptyString => []
  | String c md' =>
      match st with
      | LineStart =>
          if decide (c = "#"%char) then finditer_headings (Hashes pos 1) (S pos) md'
          else if decide (c = ascii_of_nat 10) then finditer_headings LineStart (S pos) md'
          else finditer_headings InLine (S pos) md'
      | Hashes start level =>
          if decide (c = "#"%char) then finditer_headings (Hashes start (S level)) (S pos) md'
          else if Py.isspace c then (start, level) :: finditer_headings Blanks (S pos) md'
          else finditer_headings InLine (S pos) md'
      | Blanks =>
          if Py.isspace c then finditer_headings Blanks (S pos) md'
          else finditer_headings InLine (S pos) md'
      | InLine =>
          if decide (c = ascii_of_nat 10) then finditer_headings LineStart (S pos) md'
          else finditer_headings InLine (S pos) md'
      end
  end.

(** [md[a:b]] and [md[a:]] for positions [a <= b] of [md]. *)
Definition str_slice (a b : nat) (md : string) : string := substring a (b - a) md.
Definition str_from (a : nat) (md : string) : string :=
  substring a (String.length md - a) md.

Definition extract_sections (md : string) : list PageSection :=
  let matches := finditer_headings LineStart 0 md in
  match matches with
  | [] => [ {| sec_level := 0; sec_text := clean_text md |} ]
  | _ :: _ =>
      let sections :=
        fold_left
          (fun sections '(i, (start, level)) =>
             let sections :=
               match i with
               | O => sections
               | S i' =>
                   match matches !! i' with
                   | Some (prev_start, prev_level) =>
                       sections ++
                       [ {| sec_level := prev_level;
                            sec_text := clean_text (str_slice prev_start start md) |} ]
                   | None => sections
                   end
               end in
             if i =? length matches - 1
             then sections ++
                  [ {| sec_level := level; sec_text := clean_text (str_from start md) |} ]
             else sections)
          (zip (seq 0 (length matches)) matches) [] in
      List.filter (fun sec => Py.truthy (Some (sec_text sec))) sections
  end.

(** A page as [load_pages] returns it. *)
Record LoadedPage := mkLoadedPage {
  lp_url : string;
  lp_title : string;
  lp_content : string
}.

(** An item of the list written by [main]. *)
Record PageChunk := mkPageChunk {
  pc_url : string;
  pc_title : string;
  pc_section_index : nat;
  pc_chunk_index : nat;
  pc_heading_level : nat;
  pc_content : string
}.

Definition CHUNK_SIZE_HIGH : Z := 300.
Definition CHUNK_SIZE_LOW : Z := 500.

(** Lines 76 to 92 of [main]: the chunks of the loaded pages.  [None]
    stands for an exception of [chunk_text]. *)
Definition chunk_pages (pages : list LoadedPage) : option (list PageChunk) :=
  fold_left
    (fun all_chunks page =>
       let sections := extract_sections (lp_content page) in
       fold_left
         (fun all_chunks '(section_idx, section) =>
            let size :=
              if sec_level section <=? 2 then CHUNK_SIZE_HIGH else CHUNK_SIZE_LOW in
            all_chunks ≫= fun all_chunks =>
            chunk_text (sec_text section) size ≫= fun chunks =>
            Some (fold_left
                    (fun all_chunks '(chunk_idx, chunk) =>
                       all_chunks ++
                       [ {| pc_url := lp_url page;
                            pc_title := lp_title page;
                            pc_section_index := section_idx;
                            pc_chunk_index := chunk_idx;
                            pc_heading_level := sec_level section;
                            pc_content := chunk |} ])
                    (zip (seq 0 (length chunks)) chunks) all_chunks))
         (zip (seq 0 (length sections)) sections) all_chunks)
    pages (Some []).

(** ** [crawler/crawl4ai.py] *)

(** Lines 46 to 58 of [fetch_sitemap_urls]: [found] is the value of
    [urls] left by the requests for the sitemaps. *)
Fixpoint uniq_loop (limit : Z) (seen : gset string) (uniq : list string)
    (urls : list string) : list string :=
  match urls with
  | [] => uniq
  | u :: urls' =>
      let '(seen', uniq') :=
        if decide (u ∈ seen) then (seen, uniq) else ({[u]} ∪ seen, uniq ++ [u]) in
      if (limit <=? Z.of_nat (length uniq'))%Z then uniq'
      else uniq_loop limit seen' uniq' urls'
  end.

Definition fetch_sitemap_urls (found : list string) (seed : string) (limit : Z)
  : list string :=
  let urls := match found with [] => [seed] | _ => found end in
  uniq_loop limit ∅ [] urls.


Definition slug_of (url : string) : string :=
  PyMore.replace "/" "_" (PyMore.replace "http://" "" (PyMore.replace "https://" "" url)).


(** ** Notions used in the statements about text *)

(** The characters of a string. *)
Definition chars (s : string) : list ascii := list_ascii_of_string s.

(** A word: a non-empty string without white space. *)
Definition word (w : string) : Prop :=
  w <> EmptyString /\ Forall (fun c => Py.isspace c = false) (chars w).

(** The strings of a list one after the other. *)
Definition str_concat (parts : list string) : string :=
  foldr String.append EmptyString parts.

(** A run of [n] characters [#]. *)
Definition hashes (n : nat) : string := Nat.iter n (String "#"%char) EmptyString.

(** ** Further deployments

    Variants of the demo deployment in which one collaborator fails or
    answers short. *)

Module Scenarios.

(** The vector store is unreachable. *)
Definition store_down : Globals :=
  {| docs := [Demo.refund; Demo.shipping; Demo.deletion];
     BM25Okapi_get_scores := Demo.count_hits;
     embed_model_encode := fun _ => Ok [1 # 2; 1 # 3];
     qdrant_search := fun _ _ _ => Raised VectorStoreError;
     reranker_model_predict := Demo.by_length;
     openai_chat_completion := fun _ => Ok "See the refund policy." |}.

(** The cross-encoder returns a single score whatever the batch. *)
Definition short_batch : Globals :=
  {| docs := [Demo.refund; Demo.shipping; Demo.deletion];
     BM25Okapi_get_scores := Demo.count_hits;
     embed_model_encode := fun _ => Ok [1 # 2; 1 # 3];
     qdrant_search := Demo.store;
     reranker_model_predict := fun _ => Ok [inject_Z 5];
     openai_chat_completion := fun _ => Ok "See the refund policy." |}.

(** The chat model is out of service. *)
Definition chat_model_down : Globals :=
  {| docs := [Demo.refund; Demo.shipping; Demo.deletion];
     BM25Okapi_get_scores := Demo.count_hits;
     embed_model_encode := fun _ => Ok [1 # 2; 1 # 3];
     qdrant_search := Demo.store;
     reranker_model_predict := Demo.by_length;
     openai_chat_completion := fun _ => Raised ChatModelError |}.

Definition three : list Candidate :=
  [ Demo.twin_a;
    Demo.cand "refunds" None (1 # 4) src_vector;
    Demo.cand "shipping times" None 0 src_bm25 ].

End Scenarios.

(** ** Facts about the Python built-ins *)

Section PyFacts.
Context {A : Type}.
Implicit Types (l : list A) (k : Z).

Lemma slice_to_take k l : exists n, Py.slice_to k l = take n l.
Proof. unfold Py.slice_to. destruct (0 <=? k)%Z; eauto. Qed.

Lemma slice_to_nonneg k l : (0 <= k)%Z -> Py.slice_to k l = take (Z.to_nat k) l.
Proof. intros Hk. unfold Py.slice_to. apply Z.leb_le in Hk. by rewrite Hk. Qed.

Lemma slice_to_length k l :
  (0 <= k)%Z -> Z.of_nat (length (Py.slice_to k l)) = Z.min k (Z.of_nat (length l)).
Proof. intros Hk. rewrite slice_to_nonneg, length_take by done. lia. Qed.

Lemma slice_to_length_le k l :
  (0 <= k)%Z -> (Z.of_nat (length (Py.slice_to k l)) <= k)%Z.
Proof. intros Hk. rewrite slice_to_length by done. lia. Qed.

Lemma slice_to_all k l : (Z.of_nat (length l) <= k)%Z -> Py.slice_to k l = l.
Proof.
  intros Hk. rewrite slice_to_nonneg by lia. apply take_ge. lia.
Qed.

Lemma slice_to_sublist k l : Py.slice_to k l `sublist_of` l.
Proof. destruct (slice_to_take k l) as [n ->]. apply sublist_take. Qed.

Lemma slice_to_idemp k l :
  (0 <= k)%Z -> Py.slice_to k (Py.slice_to k l) = Py.slice_to k l.
Proof. intros Hk. apply slice_to_all. by apply slice_to_length_le. Qed.

Lemma slice_to_lookup k l i x :
  Py.slice_to k l !! i = Some x -> l !! i = Some x.
Proof.
  destruct (slice_to_take k l) as [n ->]. intros H.
  apply lookup_take_Some in H. tauto.
Qed.

(** A loop that appends one item per turn builds the mapped list. *)
Lemma fold_left_append {B : Type} (f : A -> B) l (acc : list B) :
  fold_left (fun results x => results ++ [f x]) l acc = acc ++ (f <$> l).
Proof.
  revert acc. induction l as [|x l IH]; intros acc; simpl.
  - by rewrite app_nil_r.
  - rewrite IH. by rewrite <- app_assoc.
Qed.

End PyFacts.

Lemma slice_to_fmap {A B : Type} (f : A -> B) (k : Z) (l : list A) :
  Py.slice_to k (f <$> l) = f <$> Py.slice_to k l.
Proof.
  unfold Py.slice_to. rewrite length_fmap.
  destruct (0 <=? k)%Z; symmetry; apply fmap_take.
Qed.

(** ** Keeping the first occurrence of each key *)

Section FirstOccurrences.
Context {A K : Type} `{EqDecision K} (key : A -> K).
Implicit Types (l : list A) (seen : list K).

Lemma first_occurrences_ext seen seen' l :
  (forall k, k ∈ seen <-> k ∈ seen') ->
  first_occurrences key seen l = first_occurrences key seen' l.
Proof.
  revert seen seen'. induction l as [|x l IH]; intros seen seen' Hs; simpl; [done|].
  destruct (decide (key x ∈ seen)) as [Hin|Hnin];
    destruct (decide (key x ∈ seen')) as [Hin'|Hnin'].
  - by apply IH.
  - exfalso. apply Hnin'. by apply Hs.
  - exfalso. apply Hnin. by apply Hs.
  - f_equal. apply IH. intros k. rewrite !elem_of_cons. by rewrite Hs.
Qed.

Lemma first_occurrences_sublist seen l :
  first_occurrences key seen l `sublist_of` l.
Proof.
  revert seen. induction l as [|x l IH]; intros seen; simpl; [constructor|].
  destruct (decide (key x ∈ seen)).
  - apply sublist_cons. apply IH.
  - apply sublist_skip. apply IH.
Qed.

Lemma first_occurrences_fresh seen l x :
  x ∈ first_occurrences key seen l -> key x ∉ seen.
Proof.
  revert seen. induction l as [|y l IH]; intros seen; simpl.
  - by intros ?%elem_of_nil.
  - destruct (decide (key y ∈ seen)) as [|Hnin]; [by apply IH|].
    intros [->|Hx]%elem_of_cons; [done|].
    apply IH in Hx. intros Hk. apply Hx. by apply elem_of_cons; right.
Qed.

Lemma first_occurrences_NoDup seen l :
  NoDup (key <$> first_occurrences key seen l).
Proof.
  revert seen. induction l as [|x l IH]; intros seen; simpl; [constructor|].
  destruct (decide (key x ∈ seen)); [apply IH|].
  simpl. apply NoDup_cons. split; [|apply IH].
  intros Hin.
  apply list_elem_of_fmap in Hin as (y & Hy & Hin).
  apply first_occurrences_fresh in Hin. apply Hin. rewrite <- Hy. by left.
Qed.

Lemma first_occurrences_covers seen l x :
  x ∈ l -> key x ∉ seen ->
  exists y, y ∈ first_occurrences key seen l /\ key y = key x.
Proof.
  revert seen. induction l as [|z l IH]; intros seen; simpl.
  - by intros ?%elem_of_nil.
  - intros Hx Hk. destruct (decide (key z ∈ seen)) as [Hz|Hz].
    + apply elem_of_cons in Hx as [->|Hx]; [done|]. by apply IH.
    + destruct (decide (key x = key z)) as [Heq|Hne].
      * exists z. split; [by left|done].
      * apply elem_of_cons in Hx as [->|Hx]; [done|].
        destruct (IH (key z :: seen) Hx) as (y & Hy & Hyk).
        { intros [?|?]%elem_of_cons; done. }
        exists y. split; [by right|done].
Qed.

(** The kept elements sit at increasing positions of [l], each being
    the first occurrence of its key. *)
Lemma first_occurrences_positions seen l :
  exists ps, StronglySorted lt ps /\
    Forall2 (fun p x => first_occurrence key l p x /\ key x ∉ seen)
      ps (first_occurrences key seen l).
Proof.
  revert seen. induction l as [|x l IH]; intros seen; simpl.
  - exists []. split; constructor.
  - destruct (decide (key x ∈ seen)) as [Hin|Hnin].
    + destruct (IH seen) as (ps & Hsorted & Hall).
      exists (S <$> ps). split.
      * eapply StronglySorted_fmap; [|done]. intros; lia.
      * apply Forall2_fmap_l. eapply Forall2_impl; [done|].
        intros p y [[Hp Hfirst] Hy]. split; [|done]. split; [done|].
        intros [|q] z Hq Hz; simpl in Hz.
        -- injection Hz as <-. congruence.
        -- apply (Hfirst q); [lia|done].
    + destruct (IH (key x :: seen)) as (ps & Hsorted & Hall).
      exists (0 :: (S <$> ps)). split.
      * constructor.
        -- eapply StronglySorted_fmap; [|done]. intros; lia.
        -- apply Forall_fmap, Forall_true. intros; simpl; lia.
      * constructor.
        -- split; [|done]. split; [done|]. intros; lia.
        -- apply Forall2_fmap_l. eapply Forall2_impl; [done|].
           intros p y [[Hp Hfirst] Hy]. split.
           ++ split; [done|].
              intros [|q] z Hq Hz; simpl in Hz.
              ** injection Hz as <-. intros Heq. apply Hy. rewrite Heq. by left.
              ** apply (Hfirst q); [lia|done].
           ++ intros Hk. apply Hy. by right.
Qed.

(** A list whose keys are pairwise distinct and unseen is left as it is. *)
Lemma first_occurrences_id seen l :
  NoDup (key <$> l) -> (forall x, x ∈ l -> key x ∉ seen) ->
  first_occurrences key seen l = l.
Proof.
  revert seen. induction l as [|x l IH]; intros seen Hnd Hseen; simpl; [done|].
  simpl in Hnd. apply NoDup_cons in Hnd as [Hx Hnd].
  destruct (decide (key x ∈ seen)) as [Hin|_].
  - exfalso. by apply (Hseen x); [left|].
  - f_equal. apply IH; [done|]. intros y Hy [Heq|Hk]%elem_of_cons.
    + apply Hx. rewrite <- Heq. by apply list_elem_of_fmap_2.
    + by apply (Hseen y); [right|].
Qed.

End FirstOccurrences.

(** ** De-duplication and fusion *)

Section Fusion.
Implicit Types (l combined : list Candidate) (k : Z).

(** The loop of [hybrid_retrieve] started from any state whose set
    [seen] has the members of [sl]. *)
Lemma dedup_step_fold l (seen : gset Key) (unique : list Candidate) (sl : list Key) :
  (forall key, key ∈ sl <-> key ∈ seen) ->
  snd (fold_left dedup_step l (seen, unique)) =
    unique ++ first_occurrences dedup_key sl l.
Proof.
  revert seen unique sl. induction l as [|r l IH]; intros seen unique sl Hs; simpl.
  - by rewrite app_nil_r.
  - destruct (decide (dedup_key r ∈ seen)) as [Hin|Hnin];
      destruct (decide (dedup_key r ∈ sl)) as [Hin'|Hnin'].
    + by apply IH.
    + exfalso. apply Hnin'. by apply Hs.
    + exfalso. apply Hnin. by apply Hs.
    + rewrite (IH _ _ (dedup_key r :: sl)).
      * by rewrite <- app_assoc.
      * intros key. rewrite elem_of_cons, elem_of_union, elem_of_singleton.
        by rewrite Hs.
Qed.

Lemma dedup_first_occurrences l : dedup l = first_occurrences dedup_key [] l.
Proof.
  unfold dedup. rewrite (dedup_step_fold l ∅ [] []); [done|].
  intros key. split; [by intros ?%elem_of_nil|by intros ?%elem_of_empty].
Qed.

Lemma merge_unfold (vec_results bm25_results : list Candidate) k :
  merge vec_results bm25_results k =
    take (Z.to_nat (Z.max (k * 2) 10))
      (first_occurrences dedup_key [] (vec_results ++ bm25_results)).
Proof.
  unfold merge. rewrite dedup_first_occurrences. apply slice_to_nonneg. lia.
Qed.

Lemma merge_length (vec_results bm25_results : list Candidate) k :
  (Z.of_nat (length (merge vec_results bm25_results k)) <= Z.max (2 * k) 10)%Z.
Proof. rewrite merge_unfold, length_take. lia. Qed.

Lemma merge_keys_NoDup (vec_results bm25_results : list Candidate) k :
  NoDup (dedup_key <$> merge vec_results bm25_results k).
Proof.
  rewrite merge_unfold, fmap_take.
  eapply sublist_NoDup; [|apply sublist_take]. apply first_occurrences_NoDup.
Qed.

Lemma merge_positions (vec_results bm25_results : list Candidate) k :
  exists ps, StronglySorted lt ps /\
    Forall2 (first_occurrence dedup_key (vec_results ++ bm25_results))
      ps (merge vec_results bm25_results k).
Proof.
  rewrite merge_unfold.
  destruct (first_occurrences_positions dedup_key [] (vec_results ++ bm25_results))
    as (ps & Hsorted & Hall).
  exists (take (Z.to_nat (Z.max (k * 2) 10)) ps). split.
  - rewrite <- (take_drop (Z.to_nat (Z.max (k * 2) 10)) ps) in Hsorted.
    by apply StronglySorted_app_1_l in Hsorted.
  - apply Forall2_take. eapply Forall2_impl; [done|]. by intros p x [? _].
Qed.

Lemma merge_fixpoint (vec_results bm25_results : list Candidate) k :
  merge (merge vec_results bm25_results k) [] k = merge vec_results bm25_results k.
Proof.
  rewrite (merge_unfold (merge _ _ _) []), app_nil_r.
  rewrite first_occurrences_id.
  - apply take_ge. pose proof (merge_length vec_results bm25_results k). lia.
  - apply merge_keys_NoDup.
  - intros x _ ?%elem_of_nil. done.
Qed.

(** The number of distinct keys of a list is the length of its
    de-duplication. *)
Lemma dedup_length_distinct l :
  length (dedup l) = size (list_to_set (dedup_key <$> l) : gset Key).
Proof.
  rewrite dedup_first_occurrences.
  rewrite <- (length_fmap dedup_key).
  rewrite <- (size_list_to_set (C:=gset Key)) by apply first_occurrences_NoDup.
  f_equal. apply set_eq. intros key. rewrite !elem_of_list_to_set.
  rewrite !list_elem_of_fmap. split.
  - intros (y & -> & Hy). exists y. split; [done|].
    eapply elem_of_sublist; [done|]. apply first_occurrences_sublist.
  - intros (x & -> & Hx).
    destruct (first_occurrences_covers dedup_key [] l x Hx) as (y & Hy & Hk).
    { by intros ?%elem_of_nil. }
    exists y. by split.
Qed.

End Fusion.

(** ** The stable descending sort *)

Section SortedDesc.
Context {A : Type}.
Implicit Types (key : A -> Q) (l : list A).

Lemma insert_desc_Permutation key x l : Py.insert_desc key x l ≡ₚ x :: l.
Proof.
  induction l as [|y l IH]; simpl; [done|].
  destruct (Qle_bool (key y) (key x)); [done|].
  rewrite IH. apply Permutation_swap.
Qed.

Lemma sorted_desc_Permutation key l : Py.sorted_desc key l ≡ₚ l.
Proof.
  induction l as [|x l IH]; simpl; [done|].
  rewrite insert_desc_Permutation. by rewrite IH.
Qed.

Lemma sorted_desc_length key l : length (Py.sorted_desc key l) = length l.
Proof. by rewrite sorted_desc_Permutation. Qed.

Lemma sorted_desc_elem_of key l x : x ∈ Py.sorted_desc key l <-> x ∈ l.
Proof. by rewrite sorted_desc_Permutation. Qed.

(** Sorting the images under [f] is sorting by the key read through [f]. *)
Lemma insert_desc_fmap {B : Type} (f : B -> A) key (x : B) (l : list B) :
  Py.insert_desc key (f x) (f <$> l) = f <$> Py.insert_desc (fun b => key (f b)) x l.
Proof.
  induction l as [|y l IH]; simpl; [done|].
  destruct (Qle_bool (key (f y)) (key (f x))); [done|].
  simpl. f_equal. exact IH.
Qed.

Lemma sorted_desc_fmap {B : Type} (f : B -> A) key (l : list B) :
  Py.sorted_desc key (f <$> l) = f <$> Py.sorted_desc (fun b => key (f b)) l.
Proof.
  induction l as [|x l IH]; [done|].
  rewrite fmap_cons. unfold Py.sorted_desc in *. cbn [fold_right].
  rewrite IH. apply insert_desc_fmap.
Qed.

End SortedDesc.

Section SortedDescStable.
Context {A : Type}.
Implicit Types (key : A -> Q) (l : list A).

Lemma insert_desc_tagged key (x : nat * A) (l : list (nat * A)) :
  StronglySorted (tagged_before key) l ->
  Forall (fun y => x.1 < y.1) l ->
  StronglySorted (tagged_before key) (Py.insert_desc (fun a => key a.2) x l).
Proof.
  induction 1 as [|y l Hsorted IH Hy]; intros Hx; simpl.
  - repeat constructor.
  - apply Forall_cons in Hx as [Hxy Hx].
    destruct (Qle_bool (key y.2) (key x.2)) eqn:Hle.
    + apply Qle_bool_iff in Hle.
      assert (tagged_before key x y) as Hby.
      { destruct (Qlt_le_dec (key y.2) (key x.2)) as [Hlt|Hge]; [by left|].
        right. split; [by apply Qle_antisym|done]. }
      constructor; [by constructor|]. constructor; [done|].
      rewrite Forall_forall in Hy, Hx |- *. intros z Hz.
      specialize (Hy z Hz). specialize (Hx z Hz).
      destruct Hby as [Hlt|[Heq _]], Hy as [Hlt'|[Heq' _]].
      * left. by eapply Qlt_trans.
      * left. by rewrite <- Heq'.
      * left. by rewrite Heq.
      * right. split; [|done]. by rewrite Heq.
    + assert (key x.2 < key y.2)%Q as Hlt.
      { apply Qnot_le_lt. intros Hle'. apply Qle_bool_iff in Hle'. congruence. }
      constructor; [by apply IH|].
      rewrite Forall_forall in Hy |- *. intros z Hz.
      rewrite insert_desc_Permutation in Hz.
      apply elem_of_cons in Hz as [->|Hz]; [by left|by apply Hy].
Qed.

Lemma sorted_desc_tagged key (l : list (nat * A)) :
  StronglySorted (fun a b => a.1 < b.1) l ->
  StronglySorted (tagged_before key) (Py.sorted_desc (fun a => key a.2) l).
Proof.
  induction 1 as [|x l Hsorted IH Hx]; simpl; [constructor|].
  apply insert_desc_tagged; [done|].
  rewrite Forall_forall in Hx |- *. intros y Hy.
  apply Hx. by apply sorted_desc_elem_of in Hy.
Qed.

Lemma zip_seq_sorted (s : nat) l :
  StronglySorted (fun a b : nat * A => a.1 < b.1) (zip (seq s (length l)) l).
Proof.
  revert s. induction l as [|x l IH]; intros s; simpl; constructor; [apply IH|].
  apply Forall_forall. intros [i y] Hin. simpl.
  apply list_elem_of_lookup in Hin as [j Hj].
  apply lookup_zip_with_Some in Hj as (i' & y' & [= <- <-] & Hi & _).
  apply lookup_seq in Hi. lia.
Qed.

Lemma zip_seq_lookup l (i : nat) (x : A) :
  (i, x) ∈ zip (seq 0 (length l)) l -> l !! i = Some x.
Proof.
  intros Hin. apply list_elem_of_lookup in Hin as [j Hj].
  apply lookup_zip_with_Some in Hj as (i' & y' & [= <- <-] & Hi & Hx).
  apply lookup_seq in Hi as [-> _]. done.
Qed.

Lemma StronglySorted_fmap_elem_of {B C : Type} (f : B -> C)
    (R : relation B) (R' : relation C) (l : list B) :
  (forall x y, x ∈ l -> y ∈ l -> R x y -> R' (f x) (f y)) ->
  StronglySorted R l -> StronglySorted R' (f <$> l).
Proof.
  intros HR Hsorted. induction Hsorted as [|x l Hsorted IH Hx]; simpl; [constructor|].
  constructor.
  - apply IH. intros y z Hy Hz. apply HR; by right.
  - apply Forall_fmap. rewrite Forall_forall in Hx |- *. intros y Hy. simpl.
    apply HR; [by left|by right|by apply Hx].
Qed.

(** What [sorted(l, key=key, reverse=True)] returns: the elements of
    [l] read at a rearrangement [idxs] of its positions, every position
    ranked ahead of the ones that follow it. *)
Lemma sorted_desc_ranked key l :
  exists idxs,
    idxs ≡ₚ seq 0 (length l) /\
    StronglySorted (ranks_before (key <$> l)) idxs /\
    Forall2 (fun i x => l !! i = Some x) idxs (Py.sorted_desc key l).
Proof.
  set (E := zip (seq 0 (length l)) l).
  assert (l = snd <$> E) as Hl.
  { subst E. rewrite snd_zip; [done|]. rewrite length_seq. lia. }
  set (S := Py.sorted_desc (fun a : nat * A => key a.2) E).
  assert (Py.sorted_desc key l = snd <$> S) as HS.
  { rewrite Hl at 1. apply sorted_desc_fmap. }
  assert (forall a, a ∈ S -> l !! a.1 = Some a.2) as Hmem.
  { intros [i x] Hin. apply sorted_desc_elem_of in Hin. by apply zip_seq_lookup. }
  exists (fst <$> S). split; [|split].
  - subst S. rewrite sorted_desc_Permutation. subst E.
    rewrite fst_zip; [done|]. rewrite length_seq. lia.
  - eapply StronglySorted_fmap_elem_of; [|apply sorted_desc_tagged, zip_seq_sorted].
    intros a b Ha Hb Hab. fold E in Ha, Hb. fold S in Ha, Hb.
    exists (key a.2), (key b.2). rewrite !list_lookup_fmap.
    rewrite (Hmem a Ha), (Hmem b Hb). done.
  - rewrite HS. apply Forall2_fmap. apply Forall2_same_length_lookup_2; [done|].
    intros i a b Ha Hb. rewrite Ha in Hb. injection Hb as <-.
    apply Hmem. by eapply list_elem_of_lookup_2.
Qed.

End SortedDescStable.

(** ** In-place writes on distinct objects *)

Section Objects.
Implicit Types (store : gmap nat Candidate) (ranked : list (nat * Q)).

Lemma write_scores_fold store ranked (acc : list nat) :
  exists store',
    fold_left
      (fun '(store, result) '(d, s) =>
         (alter (fun c => set_rerank_score c s) d store, result ++ [d]))
      ranked (store, acc) = (store', acc ++ ranked.*1) /\
    (forall d, d ∉ ranked.*1 -> store' !! d = store !! d) /\
    (NoDup ranked.*1 -> forall d s, (d, s) ∈ ranked ->
       store' !! d = (fun c => set_rerank_score c s) <$> store !! d).
Proof.
  revert store acc. induction ranked as [|[d s] ranked IH]; intros store acc.
  - exists store. simpl. rewrite app_nil_r. split; [done|]. split; [done|].
    by intros _ d s ?%elem_of_nil.
  - cbn [fold_left].
    destruct (IH (alter (fun c => set_rerank_score c s) d store) (acc ++ [d]))
      as (store' & Hrun & Hother & Hwritten).
    exists store'. split; [|split].
    + rewrite Hrun, <- app_assoc. done.
    + intros d' Hd'. rewrite fmap_cons in Hd'. cbn [fst] in Hd'.
      apply not_elem_of_cons in Hd' as [Hne Hd'].
      rewrite (Hother d' Hd'). by apply lookup_alter_ne.
    + rewrite fmap_cons. cbn [fst]. intros [Hd Hnd]%NoDup_cons d' s' Hin.
      apply elem_of_cons in Hin as [[= -> ->]|Hin].
      * rewrite (Hother d Hd). apply lookup_alter_eq.
      * rewrite (Hwritten Hnd d' s' Hin). rewrite lookup_alter_ne; [done|].
        intros ->. apply Hd. apply list_elem_of_fmap. by exists (d', s').
Qed.

(** Sorting two lists whose items agree on the key rearranges both in
    the same way. *)
Lemma insert_desc_Forall2 {A B : Type} (R : A -> B -> Prop)
    (keyA : A -> Q) (keyB : B -> Q) (x : A) (y : B) (l : list A) (k : list B) :
  (forall a b, R a b -> keyA a = keyB b) ->
  R x y -> Forall2 R l k ->
  Forall2 R (Py.insert_desc keyA x l) (Py.insert_desc keyB y k).
Proof.
  intros Hkey Hxy Hall. induction Hall as [|a b l k Hab Hall IH]; simpl.
  - by constructor.
  - rewrite (Hkey _ _ Hxy), (Hkey _ _ Hab).
    destruct (Qle_bool (keyB b) (keyB y)); repeat constructor; done.
Qed.

Lemma sorted_desc_Forall2 {A B : Type} (R : A -> B -> Prop)
    (keyA : A -> Q) (keyB : B -> Q) (l : list A) (k : list B) :
  (forall a b, R a b -> keyA a = keyB b) ->
  Forall2 R l k ->
  Forall2 R (Py.sorted_desc keyA l) (Py.sorted_desc keyB k).
Proof.
  intros Hkey Hall. induction Hall as [|a b l k Hab Hall IH]; simpl; [constructor|].
  by apply insert_desc_Forall2.
Qed.

Lemma slice_to_Forall2 {A B : Type} (R : A -> B -> Prop) (n : Z) (l : list A) (k : list B) :
  Forall2 R l k -> Forall2 R (Py.slice_to n l) (Py.slice_to n k).
Proof.
  intros Hall. unfold Py.slice_to. rewrite (Forall2_length _ _ _ Hall).
  destruct (0 <=? n)%Z; by apply Forall2_take.
Qed.

(** The reranker on objects and the reranker on records agree when no
    object occurs twice in [docs_in]: the returned references, read in
    the final store, are the records returned by [rerank_locally]. *)
Lemma rerank_objects_distinct store (docs_in : list nat) (values : list Candidate)
    (scores : list Q) (top_n : Z) :
  NoDup docs_in ->
  Forall2 (fun d c => store !! d = Some c) docs_in values ->
  Forall2 (fun d c => (rerank_objects store docs_in scores top_n).1 !! d = Some c)
    (rerank_objects store docs_in scores top_n).2
    ((fun p => set_rerank_score p.1 p.2) <$>
       Py.slice_to top_n (Py.sorted_desc snd (zip values scores))).
Proof.
  intros Hnd Hvalues. unfold rerank_objects, write_scores.
  set (ranked := Py.slice_to top_n (Py.sorted_desc snd (zip docs_in scores))).
  set (vranked := Py.slice_to top_n (Py.sorted_desc snd (zip values scores))).
  assert (Forall2 (fun p q => store !! p.1 = Some q.1 /\ p.2 = q.2) ranked vranked) as Hranked.
  { apply slice_to_Forall2, sorted_desc_Forall2; [by intros a b [_ ?]|].
    clear -Hvalues. revert scores.
    induction Hvalues as [|d c docs_in values Hdc _ IH]; intros [|s scores]; simpl;
      constructor; [done|apply IH]. }
  assert (NoDup ranked.*1) as Hnd'.
  { eapply sublist_NoDup; [|apply fmap_sublist, slice_to_sublist].
    rewrite sorted_desc_Permutation.
    eapply sublist_NoDup; [exact Hnd|].
    clear. revert scores. induction docs_in as [|d docs_in IH]; intros [|s scores]; simpl.
    - constructor.
    - constructor.
    - apply sublist_nil_l.
    - apply sublist_skip, IH. }
  destruct (write_scores_fold store ranked []) as (store' & -> & _ & Hwritten).
  simpl. apply Forall2_fmap.
  apply Forall2_same_length_lookup_2; [by eapply Forall2_length|].
  intros i [d s] [c s'] Hi Hi'. simpl.
  destruct (Forall2_lookup_lr _ _ _ _ _ _ Hranked Hi Hi') as [Hd Hs]. simpl in Hd, Hs.
  subst s'. rewrite (Hwritten Hnd' d s); [by rewrite Hd|].
  by eapply list_elem_of_lookup_2.
Qed.

End Objects.

(** ** Running the searches and the reranker *)

Lemma ranks_before_weaken (scores scores' : list Q) (i j : nat) :
  (forall n s, scores !! n = Some s -> scores' !! n = Some s) ->
  ranks_before scores i j -> ranks_before scores' i j.
Proof.
  intros Hsub (si & sj & Hi & Hj & Hord). exists si, sj. auto.
Qed.

(** Two rankings of the same positions that both put larger scores first
    and, among equal scores, earlier positions first, are the same list:
    the result of a stable descending sort does not depend on the sorting
    algorithm. *)
Lemma stable_ranking_unique (scores : list Q) (idxs idxs' : list nat) :
  idxs ≡ₚ idxs' ->
  StronglySorted (ranks_before scores) idxs ->
  StronglySorted (ranks_before scores) idxs' ->
  idxs = idxs'.
Proof.
  intros Hperm Hsorted Hsorted'.
  apply (StronglySorted_unique_strong (ranks_before scores)); [|done..].
  intros i j _ _ (si & sj & Hi & Hj & Hij) (sj' & si' & Hj' & Hi' & Hji).
  rewrite Hi in Hi'. rewrite Hj in Hj'. injection Hi' as <-. injection Hj' as <-.
  exfalso. destruct Hij as [Hlt|[Heq Hlt]], Hji as [Hlt'|[Heq' Hlt']].
  - apply (Qlt_irrefl si). by eapply Qlt_trans.
  - rewrite Heq' in Hlt. by apply (Qlt_irrefl si).
  - rewrite Heq in Hlt'. by apply (Qlt_irrefl sj).
  - lia.
Qed.

Lemma index_Some {A : Type} (l : list A) (i : nat) (x : A) :
  l !! i = Some x -> index l i = Ok x.
Proof. intros H. unfold index. by rewrite H. Qed.

Section Pipeline.
Context `{G : Globals}.

Lemma tokenized_length : length tokenized = length docs.
Proof. unfold tokenized, corpus. by rewrite !length_fmap. Qed.

(** *** Lexical search *)

(** The loop of [bm25_search] over indices that are all in range. *)
Lemma bm25_loop (scores : list Q) (idxs : list nat) (acc : list Candidate) :
  Forall (fun i => i < length docs /\ i < length scores) idxs ->
  exists results,
    fold_left
      (fun acc i =>
         result_bind acc (fun results =>
         result_bind (index docs i) (fun d =>
         result_bind (index scores i) (fun s =>
         Ok (results ++ [doc_to_candidate d s])))))
      idxs (Ok acc) = Ok (acc ++ results) /\
    Forall2 (fun i r => exists d s,
               docs !! i = Some d /\ scores !! i = Some s /\ r = doc_to_candidate d s)
      idxs results.
Proof.
  revert acc. induction idxs as [|i idxs IH]; intros acc Hin.
  - exists []. simpl. by rewrite app_nil_r.
  - apply Forall_cons in Hin as [[Hd Hs] Hin].
    apply lookup_lt_is_Some_2 in Hd as [d Hd].
    apply lookup_lt_is_Some_2 in Hs as [s Hs].
    cbn [fold_left result_bind].
    rewrite (index_Some _ _ _ Hd), (index_Some _ _ _ Hs). cbn [result_bind].
    destruct (IH (acc ++ [doc_to_candidate d s]) Hin) as (results & -> & Hall).
    exists (doc_to_candidate d s :: results). split.
    + by rewrite <- app_assoc.
    + constructor; [|done]. by exists d, s.
Qed.

Lemma bm25_search_run (query : string) (k : Z) :
  length (bm25_get_scores (Py.split query)) = length docs ->
  exists results,
    bm25_search query k = Ok results /\
    Forall2 (fun i r => exists d s,
               docs !! i = Some d /\
               bm25_get_scores (Py.split query) !! i = Some s /\
               r = doc_to_candidate d s)
      (Py.slice_to k
         (Py.sorted_desc (fun i => default 0%Q (bm25_get_scores (Py.split query) !! i))
            (Py.range (length docs))))
      results.
Proof.
  intros Hlen. unfold bm25_search. rewrite Hlen.
  set (scores := bm25_get_scores (Py.split query)) in *.
  set (top_idx := Py.slice_to k _).
  destruct (bm25_loop scores top_idx []) as (results & Hrun & Hall).
  - apply Forall_forall. intros i Hi. subst top_idx.
    eapply elem_of_sublist in Hi; [|apply slice_to_sublist].
    apply sorted_desc_elem_of in Hi. unfold Py.range in Hi.
    apply elem_of_seq in Hi. lia.
  - exists results. by split.
Qed.

(** *** Dense search *)

Lemma vector_search_inv (query : string) (k : Z) (tr tr' : list Event)
    (results : list Candidate) :
  vector_search query k tr = (Ok results, tr') ->
  exists qv hits,
    embed_model_encode query = Ok qv /\
    qdrant_search qv k score_threshold = Ok hits /\
    results = hit_to_candidate <$> hits /\
    tr' = tr ++ [EvEncode query; EvSearch qv k score_threshold].
Proof.
  unfold vector_search, embed_query, bind, call, ret.
  destruct (embed_model_encode query) as [qv|e] eqn:Hqv; [|done].
  destruct (qdrant_search qv k score_threshold) as [hits|e] eqn:Hhits; [|done].
  intros [= <- <-]. exists qv, hits. split; [done|]. split; [done|]. split.
  - apply (fold_left_append hit_to_candidate hits []).
  - by rewrite <- app_assoc.
Qed.

(** *** Reranking *)

Lemma rerank_loop (ranked : list (Candidate * Q)) (acc : list Candidate) :
  fold_left (fun result '(d, s) => result ++ [set_rerank_score d s]) ranked acc =
    acc ++ ((fun p => set_rerank_score p.1 p.2) <$> ranked).
Proof.
  revert acc. induction ranked as [|[d s] ranked IH]; intros acc; simpl.
  - by rewrite app_nil_r.
  - rewrite IH. by rewrite <- app_assoc.
Qed.

Lemma rerank_locally_nonempty (query : string) (docs_in : list Candidate)
    (top_n : Z) (tr : list Event) :
  docs_in <> [] ->
  rerank_locally query docs_in top_n tr =
    (match reranker_model_predict ((fun d => (query, text d)) <$> docs_in) with
     | Ok scores =>
         Ok ((fun p => set_rerank_score p.1 p.2) <$>
               Py.slice_to top_n (Py.sorted_desc snd (zip docs_in scores)))
     | Raised e => Raised e
     end,
     tr ++ [EvPredict ((fun d => (query, text d)) <$> docs_in)]).
Proof.
  intros Hne. destruct docs_in as [|d docs_in]; [done|].
  unfold rerank_locally, bind, call, ret.
  destruct (reranker_model_predict _) as [scores|e]; [|done].
  by rewrite rerank_loop.
Qed.

Lemma StronglySorted_lookup_lt {B : Type} (R : relation B) (l : list B)
    (i j : nat) (x y : B) :
  StronglySorted R l -> i < j -> l !! i = Some x -> l !! j = Some y -> R x y.
Proof.
  intros Hsorted. revert i j. induction Hsorted as [|z l Hsorted IH Hz]; intros i j Hij Hi Hj.
  - done.
  - destruct j as [|j]; [lia|]. simpl in Hj. destruct i as [|i]; simpl in Hi.
    + injection Hi as ->. rewrite Forall_forall in Hz. apply Hz.
      by eapply list_elem_of_lookup_2.
    + apply (IH i j); [lia|done..].
Qed.

(** The list built by the reranker from the scores of the model: a
    prefix of the stable descending ranking of the scored positions,
    each candidate carrying the score of its position. *)
Lemma rerank_ranked (docs_in : list Candidate) (scores : list Q) (top_n : Z) :
  exists idxs rest,
    idxs ++ rest ≡ₚ seq 0 (length docs_in `min` length scores) /\
    StronglySorted (ranks_before scores) (idxs ++ rest) /\
    Forall2 (fun i r => exists d s,
               docs_in !! i = Some d /\ scores !! i = Some s /\
               r = set_rerank_score d s)
      idxs
      ((fun p => set_rerank_score p.1 p.2) <$>
         Py.slice_to top_n (Py.sorted_desc snd (zip docs_in scores))).
Proof.
  destruct (sorted_desc_ranked snd (zip docs_in scores)) as (idxs & Hperm & Hsorted & Hall).
  rewrite length_zip in Hperm.
  destruct (slice_to_take top_n (Py.sorted_desc snd (zip docs_in scores))) as [n ->].
  exists (take n idxs), (drop n idxs).
  rewrite take_drop. split; [done|]. split.
  - eapply StronglySorted_fmap_elem_of with (f := id) in Hsorted.
    + by rewrite list_fmap_id in Hsorted.
    + intros i j _ _. apply ranks_before_weaken. intros m s Hm.
      rewrite list_lookup_fmap in Hm.
      destruct (zip docs_in scores !! m) as [[d s']|] eqn:Hz; [|done].
      injection Hm as <-.
      apply lookup_zip_with_Some in Hz as (d' & s'' & [= <- <-] & _ & Hs). done.
  - rewrite fmap_take.
    apply Forall2_take. apply Forall2_fmap_r.
    eapply Forall2_impl; [done|]. intros i [d s] Hi. simpl.
    apply lookup_zip_with_Some in Hi as (d' & s' & [= <- <-] & Hd & Hs).
    by exists d, s.
Qed.

(** *** Cited urls *)

Lemma fromkeys_fold {B : Type} `{EqDecision B} (l acc : list B) :
  fold_left (fun keys x => if decide (x ∈ keys) then keys else keys ++ [x]) l acc =
    acc ++ first_occurrences id acc l.
Proof.
  revert acc. induction l as [|x l IH]; intros acc; simpl.
  - by rewrite app_nil_r.
  - unfold id at 1 2. destruct (decide (x ∈ acc)) as [Hin|Hnin]; [apply IH|].
    rewrite IH, <- app_assoc. simpl. do 2 f_equal.
    apply first_occurrences_ext. intros y.
    rewrite elem_of_app, !elem_of_cons, elem_of_nil. unfold id. tauto.
Qed.

Lemma fromkeys_first_occurrences {B : Type} `{EqDecision B} (l : list B) :
  Py.fromkeys l = first_occurrences id [] l.
Proof. unfold Py.fromkeys. by rewrite fromkeys_fold. Qed.

Lemma truthy_true (o : option string) :
  Py.truthy o = true <-> exists u, o = Some u /\ u <> EmptyString.
Proof.
  destruct o as [[|c u]|]; simpl; split; try done.
  - by intros (u & [= <-] & ?).
  - intros _. by eexists.
  - by intros (u & ? & _).
Qed.

Lemma collect_sources_unfold (top_ctx : list Candidate) :
  collect_sources top_ctx =
    first_occurrences id []
      ((fun c => default EmptyString (url c)) <$>
         List.filter (fun c => Py.truthy (url c)) top_ctx).
Proof. apply fromkeys_first_occurrences. Qed.

Lemma collect_sources_NoDup (top_ctx : list Candidate) :
  NoDup (collect_sources top_ctx).
Proof.
  rewrite collect_sources_unfold.
  pose proof (first_occurrences_NoDup (@id string) []
    ((fun c => default EmptyString (url c)) <$>
       List.filter (fun c => Py.truthy (url c)) top_ctx)) as Hnd.
  by rewrite list_fmap_id in Hnd.
Qed.

Lemma collect_sources_elem_of (top_ctx : list Candidate) (u : string) :
  u ∈ collect_sources top_ctx <->
  u <> EmptyString /\ exists c, c ∈ top_ctx /\ url c = Some u.
Proof.
  rewrite collect_sources_unfold. split.
  - intros Hin. eapply elem_of_sublist in Hin; [|apply first_occurrences_sublist].
    apply list_elem_of_fmap in Hin as (c & -> & Hc).
    apply list_elem_of_In, filter_In in Hc as [Hc Ht].
    apply truthy_true in Ht as (u & Hu & Hne). rewrite Hu. simpl.
    split; [done|]. exists c. split; [by apply list_elem_of_In|done].
  - intros (Hne & c & Hc & Hu).
    destruct (first_occurrences_covers (@id string) []
      ((fun c => default EmptyString (url c)) <$>
         List.filter (fun c => Py.truthy (url c)) top_ctx) u) as (y & Hy & Hyu).
    + apply list_elem_of_fmap. exists c. rewrite Hu. split; [done|].
      apply list_elem_of_In, filter_In. split; [by apply list_elem_of_In|].
      apply truthy_true. by exists u.
    + by intros ?%elem_of_nil.
    + unfold id in Hyu. by subst y.
Qed.

Lemma cited_positions (seen : list string) (l : list Candidate) :
  exists ps, StronglySorted lt ps /\
    Forall2 (fun p u => (u ∉ seen) /\ u <> EmptyString /\
               exists c, first_occurrence url l p c /\ url c = Some u)
      ps
      (first_occurrences id seen
         ((fun c => default EmptyString (url c)) <$>
            List.filter (fun c => Py.truthy (url c)) l)).
Proof.
  revert seen. induction l as [|c l IH]; intros seen.
  - exists []. split; constructor.
  - cbn [List.filter]. destruct (Py.truthy (url c)) eqn:Ht.
    + apply truthy_true in Ht as (u0 & Hu0 & Hne0).
      rewrite fmap_cons, Hu0. cbn [default first_occurrences]. unfold id at 1 2.
      destruct (decide (u0 ∈ seen)) as [Hin|Hnin].
      * destruct (IH seen) as (ps & Hsorted & Hall).
        exists (S <$> ps). split.
        { eapply StronglySorted_fmap; [|done]. intros; lia. }
        apply Forall2_fmap_l. eapply Forall2_impl; [done|].
        intros p u (Hu & Hne & c' & [Hp Hfirst] & Hc'). simpl.
        split; [done|]. split; [done|]. exists c'. split; [|done]. split; [done|].
        intros [|q] y Hq Hy; simpl in Hy.
        -- injection Hy as <-. rewrite Hu0, Hc'. intros [= ->]. done.
        -- apply (Hfirst q); [lia|done].
      * destruct (IH (u0 :: seen)) as (ps & Hsorted & Hall).
        exists (0 :: (S <$> ps)). split.
        { constructor.
          - eapply StronglySorted_fmap; [|done]. intros; lia.
          - apply Forall_fmap, Forall_true. intros; simpl; lia. }
        constructor.
        { split; [done|]. split; [done|]. exists c. split; [|done].
          split; [done|]. intros; lia. }
        apply Forall2_fmap_l. eapply Forall2_impl; [done|].
        intros p u (Hu & Hne & c' & [Hp Hfirst] & Hc'). simpl.
        split; [intros ?; apply Hu; by right|]. split; [done|].
        exists c'. split; [|done]. split; [done|].
        intros [|q] y Hq Hy; simpl in Hy.
        -- injection Hy as <-. rewrite Hu0, Hc'. intros [= ->]. apply Hu. by left.
        -- apply (Hfirst q); [lia|done].
    + destruct (IH seen) as (ps & Hsorted & Hall).
      exists (S <$> ps). split.
      { eapply StronglySorted_fmap; [|done]. intros; lia. }
      apply Forall2_fmap_l. eapply Forall2_impl; [done|].
      intros p u (Hu & Hne & c' & [Hp Hfirst] & Hc'). simpl.
      split; [done|]. split; [done|]. exists c'. split; [|done]. split; [done|].
      intros [|q] y Hq Hy; simpl in Hy.
      * injection Hy as <-. rewrite Hc'. intros Heq.
        assert (Py.truthy (url c) = true) as Habs; [|congruence].
        apply truthy_true. by exists u.
      * apply (Hfirst q); [lia|done].
Qed.

Lemma collect_sources_positions (top_ctx : list Candidate) :
  exists ps, StronglySorted lt ps /\
    Forall2 (fun p u => exists c, first_occurrence url top_ctx p c /\ url c = Some u)
      ps (collect_sources top_ctx).
Proof.
  rewrite collect_sources_unfold.
  destruct (cited_positions [] top_ctx) as (ps & Hsorted & Hall).
  exists ps. split; [done|]. eapply Forall2_impl; [done|].
  intros p u (_ & _ & c & Hc & Hu). by exists c.
Qed.

(** *** The endpoint *)

Lemma chat_inv (req : ChatRequest) (tr tr' : list Event) (resp : ChatResponse) :
  chat req tr = (Ok resp, tr') ->
  exists candidates reranked tr1 tr2,
    hybrid_retrieve (req_query req) (req_k req) tr = (Ok candidates, tr1) /\
    rerank_locally (req_query req) candidates 6 tr1 = (Ok reranked, tr2) /\
    openai_chat_completion (build_prompt (Py.slice_to 6 reranked) (req_query req)) =
      Ok (answer resp) /\
    sources resp = collect_sources (Py.slice_to 6 reranked) /\
    tr' = tr2 ++ [EvGenerate (build_prompt (Py.slice_to 6 reranked) (req_query req))].
Proof.
  unfold chat, bind at 1.
  destruct (hybrid_retrieve _ _ tr) as [[candidates|e] tr1] eqn:Hretrieve; [|done].
  unfold bind at 1.
  destruct (rerank_locally _ candidates 6 tr1) as [[reranked|e] tr2] eqn:Hrerank; [|done].
  unfold bind, generate_answer, call, ret.
  destruct (openai_chat_completion _) as [ans|e] eqn:Hans; [|done].
  intros [= <- <-]. by exists candidates, reranked, tr1, tr2.
Qed.

End Pipeline.

(** ** The demo deployment meets the contracts assumed of the libraries *)

Lemma demo_store_honours_threshold (qv : list Q) (limit : Z) (threshold : Q) (hits : list Hit) :
  Demo.store qv limit threshold = Ok hits ->
  Forall (fun h => (threshold <= hit_score h)%Q) hits.
Proof.
  unfold Demo.store. generalize Demo.points. intros points [= <-].
  apply Forall_take, Forall_forall. intros h Hh.
  apply list_elem_of_In in Hh. apply filter_In in Hh as [_ Hh].
  by apply Qle_bool_iff.
Qed.

Lemma demo_scores_length (corpus : list (list string)) (tokens : list string) :
  length (Demo.count_hits corpus tokens) = length corpus.
Proof. unfold Demo.count_hits. apply length_fmap. Qed.

(** ** Fusion: de-duplication, bound, order, idempotence *)

(** C4. For all candidate lists and every [k >= 1], the merged list has
    at most [max(2k, 10)] entries, and its entries stand at increasing
    positions of the concatenation "vector results, then lexical
    results", each being the first occurrence of its key there. *)
Theorem merge_bound_and_order (vec_results bm25_results : list Candidate) (k : Z) :
  (1 <= k)%Z ->
  (Z.of_nat (length (merge vec_results bm25_results k)) <= Z.max (2 * k) 10)%Z /\
  exists ps, StronglySorted lt ps /\
    Forall2 (first_occurrence dedup_key (vec_results ++ bm25_results))
      ps (merge vec_results bm25_results k).
Proof.
  intros _. split; [apply merge_length|apply merge_positions].
Qed.

Lemma merge_bound_and_order_witness :
  (1 <= 1)%Z /\
  (Z.of_nat (length (merge Demo.ten_vector [Demo.twin_a; Demo.twin_b] 1)) <= Z.max (2 * 1) 10)%Z /\
  exists ps, StronglySorted lt ps /\
    Forall2 (first_occurrence dedup_key (Demo.ten_vector ++ [Demo.twin_a; Demo.twin_b]))
      ps (merge Demo.ten_vector [Demo.twin_a; Demo.twin_b] 1).
Proof.
  split; [lia|]. apply (merge_bound_and_order Demo.ten_vector [Demo.twin_a; Demo.twin_b] 1). lia.
Defined.

(** C9. For all candidate lists and every [k >= 1], merging the output of
    a merge with an empty second list and the same [k] gives that output
    back. *)
Theorem merge_idempotent (vec_results bm25_results : list Candidate) (k : Z) :
  (1 <= k)%Z ->
  merge (merge vec_results bm25_results k) [] k = merge vec_results bm25_results k.
Proof. intros _. apply merge_fixpoint. Qed.

Lemma merge_idempotent_witness :
  (1 <= 8)%Z /\
  merge (merge [Demo.twin_a; Demo.twin_b] [Demo.twin_a] 8) [] 8 =
    merge [Demo.twin_a; Demo.twin_b] [Demo.twin_a] 8.
Proof.
  split; [lia|]. apply (merge_idempotent [Demo.twin_a; Demo.twin_b] [Demo.twin_a] 8). lia.
Defined.

(** Two entries of the merged list never share a key; every entry is
    the first occurrence of its key in the concatenation "vector
    results, then lexical results"; and when the concatenation has at
    most [max(2k, 10)] distinct keys, every candidate of it has its key
    represented in the merged list. *)
Lemma merge_dedup_key (vec_results bm25_results : list Candidate) (k : Z) :
  let combined := vec_results ++ bm25_results in
  let out := merge vec_results bm25_results k in
  (forall i j a b,
     out !! i = Some a -> out !! j = Some b -> dedup_key a = dedup_key b -> i = j) /\
  (forall a, a ∈ out -> exists p, first_occurrence dedup_key combined p a) /\
  ((Z.of_nat (size (list_to_set (dedup_key <$> combined) : gset Key)) <= Z.max (k * 2) 10)%Z ->
   forall c, c ∈ combined -> exists a, a ∈ out /\ dedup_key a = dedup_key c).
Proof.
  intros combined out. split; [|split].
  - intros i j a b Ha Hb Hkey.
    eapply (NoDup_lookup (dedup_key <$> out)); [apply merge_keys_NoDup|..].
    + by rewrite list_lookup_fmap, Ha.
    + by rewrite list_lookup_fmap, Hb, Hkey.
  - intros a Ha. destruct (merge_positions vec_results bm25_results k) as (ps & _ & Hall).
    apply list_elem_of_lookup in Ha as [i Ha].
    destruct (Forall2_lookup_r _ _ _ _ _ Hall Ha) as (p & _ & Hp). by exists p.
  - intros Hsize c Hc. subst out. unfold merge. fold combined.
    rewrite slice_to_all.
    + rewrite dedup_first_occurrences.
      apply first_occurrences_covers; [done|by intros ?%elem_of_nil].
    + by rewrite dedup_length_distinct.
Qed.

(** ** Lexical search *)

(** C10. When the BM25 index gives one score per corpus document, the
    lexical search returns, for every query and every [k >= 0], exactly
    [min(k, corpus size)] candidates: each is a corpus document with the
    score found for it, and no score, zero included, keeps a document
    out. *)
Theorem bm25_search_fills_top_k `{G : Globals} (query : string) (k : Z) :
  (forall corpus tokens, length (BM25Okapi_get_scores corpus tokens) = length corpus) ->
  (0 <= k)%Z ->
  exists results,
    bm25_search query k = Ok results /\
    Z.of_nat (length results) = Z.min k (Z.of_nat (length docs)) /\
    Forall (fun r => exists i d s,
              docs !! i = Some d /\
              bm25_get_scores (Py.split query) !! i = Some s /\
              r = doc_to_candidate d s)
      results.
Proof.
  intros Hlib Hk.
  destruct (bm25_search_run query k) as (results & Hrun & Hall).
  { unfold bm25_get_scores. rewrite Hlib. apply tokenized_length. }
  exists results. split; [done|]. split.
  - rewrite <- (Forall2_length _ _ _ Hall), slice_to_length by done.
    rewrite sorted_desc_length. unfold Py.range. by rewrite length_seq.
  - apply Forall_forall. intros r Hr.
    apply list_elem_of_lookup in Hr as [n Hr].
    destruct (Forall2_lookup_r _ _ _ _ _ Hall Hr) as (i & _ & d & s & Hd & Hs & ->).
    by exists i, d, s.
Qed.

Lemma bm25_search_fills_top_k_witness :
  (forall corpus tokens,
     length (@BM25Okapi_get_scores Demo.globals corpus tokens) = length corpus) /\
  (0 <= 2)%Z /\
  Py.split "" = [] /\
  @bm25_search Demo.globals "" 2 =
    Ok [doc_to_candidate Demo.refund 0; doc_to_candidate Demo.shipping 0] /\
  exists results,
    @bm25_search Demo.globals "" 2 = Ok results /\
    Z.of_nat (length results) = Z.min 2 (Z.of_nat (length (@docs Demo.globals))) /\
    Forall (fun r => exists i d s,
              @docs Demo.globals !! i = Some d /\
              @bm25_get_scores Demo.globals (Py.split "") !! i = Some s /\
              r = doc_to_candidate d s)
      results.
Proof.
  split; [exact demo_scores_length|]. split; [lia|]. split; [reflexivity|].
  split; [reflexivity|].
  apply (@bm25_search_fills_top_k Demo.globals "" 2); [exact demo_scores_length|lia].
Defined.

(** ** Dense search *)

(** C6. When the vector store honours the [score_threshold] it is given,
    no candidate returned by [vector_search] has a score below [0.15],
    for every query and every [k]. *)
Theorem vector_search_threshold `{G : Globals} (query : string) (k : Z)
    (tr tr' : list Event) (results : list Candidate) :
  (forall qv limit threshold hits,
     qdrant_search qv limit threshold = Ok hits ->
     Forall (fun h => (threshold <= hit_score h)%Q) hits) ->
  vector_search query k tr = (Ok results, tr') ->
  forall r, r ∈ results -> ~ (score r < 15 # 100)%Q.
Proof.
  intros Hstore Hrun r Hr.
  apply vector_search_inv in Hrun as (qv & hits & _ & Hhits & -> & _).
  apply list_elem_of_fmap in Hr as (h & -> & Hh).
  apply Hstore in Hhits. rewrite Forall_forall in Hhits.
  apply Qle_not_lt. exact (Hhits h Hh).
Qed.

Lemma vector_search_threshold_witness :
  (forall qv limit threshold hits,
     @qdrant_search Demo.globals qv limit threshold = Ok hits ->
     Forall (fun h => (threshold <= hit_score h)%Q) hits) /\
  @vector_search Demo.globals "how do I get a refund" 8 [] =
    (Ok [ mkCandidate "refund policy: how to get a refund"
            (Some "https://docs.example/refund") (Some "Refunds") (9 # 10) src_vector None;
          mkCandidate "" None None (1 # 2) src_vector None ],
     [EvEncode "how do I get a refund"; EvSearch [1 # 2; 1 # 3] 8 (15 # 100)]) /\
  forall r,
    r ∈ [ mkCandidate "refund policy: how to get a refund"
            (Some "https://docs.example/refund") (Some "Refunds") (9 # 10) src_vector None;
          mkCandidate "" None None (1 # 2) src_vector None ] ->
    ~ (score r < 15 # 100)%Q.
Proof.
  split; [exact demo_store_honours_threshold|]. split; [reflexivity|].
  apply (@vector_search_threshold Demo.globals "how do I get a refund" 8 []
           [EvEncode "how do I get a refund"; EvSearch [1 # 2; 1 # 3] 8 (15 # 100)]).
  - exact demo_store_honours_threshold.
  - reflexivity.
Defined.

(** ** Reranking *)

(** C7. For every query and every [top_n], reranking the empty list
    returns the empty list and leaves the trace of external calls as it
    was: the scoring model is not called. *)
Theorem rerank_locally_empty `{G : Globals} (query : string) (top_n : Z) (tr : list Event) :
  rerank_locally query [] top_n tr = (Ok [], tr).
Proof. reflexivity. Qed.

(** C5. For every query, every non-empty candidate list and every
    [top_n], once the model has returned its scores the reranker returns
    candidates in descending order of rerank score, at most [top_n] of
    them when [top_n] is a count ([top_n >= 0]); each carries the score
    the model gave to its input position, and of two positions with
    equal scores the earlier one comes first (the returned positions
    [idxs], followed by the positions left out, are the stable descending
    ranking of all scored positions). *)
Theorem rerank_locally_ordering `{G : Globals} (query : string)
    (docs_in : list Candidate) (top_n : Z) (scores : list Q) (tr : list Event) :
  docs_in <> [] ->
  reranker_model_predict ((fun d => (query, text d)) <$> docs_in) = Ok scores ->
  exists out idxs rest,
    rerank_locally query docs_in top_n tr =
      (Ok out, tr ++ [EvPredict ((fun d => (query, text d)) <$> docs_in)]) /\
    ((0 <= top_n)%Z -> (Z.of_nat (length out) <= top_n)%Z) /\
    (forall i j a b,
       i < j -> out !! i = Some a -> out !! j = Some b ->
       exists sa sb,
         rerank_score a = Some sa /\ rerank_score b = Some sb /\ (sb <= sa)%Q) /\
    Forall2 (fun i r => exists d s,
               docs_in !! i = Some d /\ scores !! i = Some s /\
               r = set_rerank_score d s)
      idxs out /\
    idxs ++ rest ≡ₚ seq 0 (length docs_in `min` length scores) /\
    StronglySorted (ranks_before scores) (idxs ++ rest).
Proof.
  intros Hne Hpredict.
  destruct (rerank_ranked docs_in scores top_n)
    as (idxs & rest & Hperm & Hsorted & Hall).
  eexists _, idxs, rest. split; [|split; [|split; [|split; [exact Hall|by split]]]].
  - rewrite rerank_locally_nonempty by done. by rewrite Hpredict.
  - intros Htop. rewrite length_fmap. by apply slice_to_length_le.
  - intros i j a b Hij Ha Hb.
    destruct (Forall2_lookup_r _ _ _ _ _ Hall Ha) as (ia & Hia & da & sa & _ & Hsa & ->).
    destruct (Forall2_lookup_r _ _ _ _ _ Hall Hb) as (ib & Hib & db & sb & _ & Hsb & ->).
    exists sa, sb. split; [done|]. split; [done|].
    apply StronglySorted_app_1_l in Hsorted.
    destruct (StronglySorted_lookup_lt _ _ _ _ _ _ Hsorted Hij Hia Hib)
      as (sa' & sb' & Hsa' & Hsb' & Hord).
    rewrite Hsa in Hsa'. rewrite Hsb in Hsb'. injection Hsa' as <-. injection Hsb' as <-.
    destruct Hord as [Hlt|[Heq _]]; [by apply Qlt_le_weak|].
    rewrite Heq. apply Qle_refl.
Qed.

Lemma rerank_locally_ordering_witness :
  let docs_in :=
    [ Demo.twin_a;
      Demo.cand "refunds" None (1 # 4) src_vector;
      Demo.cand "shipping times" None 0 src_bm25 ] in
  let scores := [inject_Z 7; inject_Z 7; inject_Z 14] in
  docs_in <> [] /\
  @reranker_model_predict Demo.globals ((fun d => ("refund", text d)) <$> docs_in) = Ok scores /\
  @rerank_locally Demo.globals "refund" docs_in 2 [] =
    (Ok [ set_rerank_score (Demo.cand "shipping times" None 0 src_bm25) (inject_Z 14);
          set_rerank_score Demo.twin_a (inject_Z 7) ],
     [EvPredict ((fun d => ("refund", text d)) <$> docs_in)]) /\
  exists out idxs rest,
    @rerank_locally Demo.globals "refund" docs_in 2 [] =
      (Ok out, [] ++ [EvPredict ((fun d => ("refund", text d)) <$> docs_in)]) /\
    ((0 <= 2)%Z -> (Z.of_nat (length out) <= 2)%Z) /\
    (forall i j a b,
       i < j -> out !! i = Some a -> out !! j = Some b ->
       exists sa sb,
         rerank_score a = Some sa /\ rerank_score b = Some sb /\ (sb <= sa)%Q) /\
    Forall2 (fun i r => exists d s,
               docs_in !! i = Some d /\ scores !! i = Some s /\
               r = set_rerank_score d s)
      idxs out /\
    idxs ++ rest ≡ₚ seq 0 (length docs_in `min` length scores) /\
    StronglySorted (ranks_before scores) (idxs ++ rest).
Proof.
  intros docs_in scores.
  split; [discriminate|]. split; [reflexivity|]. split; [reflexivity|].
  apply (@rerank_locally_ordering Demo.globals "refund" docs_in 2 scores []);
    [discriminate|reflexivity].
Defined.

(** ** The endpoint *)

Lemma rerank_locally_length `{G : Globals} (query : string) (docs_in : list Candidate)
    (top_n : Z) (tr tr' : list Event) (out : list Candidate) :
  (0 <= top_n)%Z ->
  rerank_locally query docs_in top_n tr = (Ok out, tr') ->
  (Z.of_nat (length out) <= top_n)%Z.
Proof.
  intros Htop. destruct docs_in as [|d docs_in].
  - intros [= <- _]. simpl. lia.
  - rewrite rerank_locally_nonempty by done.
    destruct (reranker_model_predict _) as [scores|e]; [|done].
    intros [= <- _]. rewrite length_fmap. by apply slice_to_length_le.
Qed.

(** C2, as stated, fails: with the cross-encoder out of service the
    request of the demo deployment reaches the reranker with four fused
    candidates, the scoring call raises, and [chat] raises with it; no
    list of candidates is returned. *)
Lemma chat_reranker_down_raises :
  (exists candidates tr1,
     @hybrid_retrieve Demo.globals_reranker_down "how do I get a refund" 8 [] =
       (Ok candidates, tr1) /\
     length candidates = 4 /\
     @reranker_model_predict Demo.globals_reranker_down
       ((fun d => ("how do I get a refund", text d)) <$> candidates) =
       Raised RerankModelError) /\
  fst (@chat Demo.globals_reranker_down Demo.request []) = Raised RerankModelError /\
  ~ exists resp tr', @chat Demo.globals_reranker_down Demo.request [] = (Ok resp, tr').
Proof.
  split; [|split].
  - eexists _, _. split; [reflexivity|]. split; reflexivity.
  - reflexivity.
  - intros (resp & tr' & Hchat). vm_compute in Hchat. discriminate.
Qed.

(** C2, amended. If the batched scoring call raises during a request
    whose fused candidate list is not empty, [rerank_locally] raises the
    same exception right after that call and so does [chat]: the request
    fails, and neither the fused candidates nor any answer are returned. *)
Theorem chat_rerank_failure_propagates `{G : Globals} (req : ChatRequest)
    (tr tr1 : list Event) (candidates : list Candidate) (e : PyError) :
  hybrid_retrieve (req_query req) (req_k req) tr = (Ok candidates, tr1) ->
  candidates <> [] ->
  reranker_model_predict ((fun d => (req_query req, text d)) <$> candidates) = Raised e ->
  rerank_locally (req_query req) candidates 6 tr1 =
    (Raised e, tr1 ++ [EvPredict ((fun d => (req_query req, text d)) <$> candidates)]) /\
  chat req tr =
    (Raised e, tr1 ++ [EvPredict ((fun d => (req_query req, text d)) <$> candidates)]).
Proof.
  intros Hretrieve Hne Hpredict.
  assert (rerank_locally (req_query req) candidates 6 tr1 =
            (Raised e, tr1 ++ [EvPredict ((fun d => (req_query req, text d)) <$> candidates)]))
    as Hrerank.
  { rewrite rerank_locally_nonempty by done. by rewrite Hpredict. }
  split; [done|].
  unfold chat, bind at 1. rewrite Hretrieve. unfold bind at 1. by rewrite Hrerank.
Qed.

Lemma chat_rerank_failure_propagates_witness :
  exists candidates tr1,
    @hybrid_retrieve Demo.globals_reranker_down
      (req_query Demo.request) (req_k Demo.request) [] = (Ok candidates, tr1) /\
    candidates <> [] /\
    @reranker_model_predict Demo.globals_reranker_down
      ((fun d => (req_query Demo.request, text d)) <$> candidates) = Raised RerankModelError /\
    @rerank_locally Demo.globals_reranker_down (req_query Demo.request) candidates 6 tr1 =
      (Raised RerankModelError,
       tr1 ++ [EvPredict ((fun d => (req_query Demo.request, text d)) <$> candidates)]) /\
    @chat Demo.globals_reranker_down Demo.request [] =
      (Raised RerankModelError,
       tr1 ++ [EvPredict ((fun d => (req_query Demo.request, text d)) <$> candidates)]).
Proof.
  eexists _, _. split; [reflexivity|]. split; [discriminate|]. split; [reflexivity|].
  apply (@chat_rerank_failure_propagates Demo.globals_reranker_down Demo.request []);
    [reflexivity|discriminate|reflexivity].
Defined.

(** C8. For every request that [chat] answers, the [sources] of the
    response are the urls of the ranked contexts handed on by the
    reranker: no url twice, a string is listed exactly when it is
    non-empty and the url of some ranked context, and the listed urls
    follow the order in which they first occur among the ranked
    contexts. *)
Theorem chat_sources_distinct_ordered `{G : Globals} (req : ChatRequest)
    (tr tr' : list Event) (resp : ChatResponse) :
  chat req tr = (Ok resp, tr') ->
  exists candidates reranked tr1 tr2,
    hybrid_retrieve (req_query req) (req_k req) tr = (Ok candidates, tr1) /\
    rerank_locally (req_query req) candidates 6 tr1 = (Ok reranked, tr2) /\
    NoDup (sources resp) /\
    (forall u, u ∈ sources resp <->
               u <> EmptyString /\ exists c, c ∈ reranked /\ url c = Some u) /\
    exists ps, StronglySorted lt ps /\
      Forall2 (fun p u => exists c, first_occurrence url reranked p c /\ url c = Some u)
        ps (sources resp).
Proof.
  intros Hchat.
  apply chat_inv in Hchat as (candidates & reranked & tr1 & tr2 & Hretrieve & Hrerank & _ & Hsources & _).
  exists candidates, reranked, tr1, tr2. split; [done|]. split; [done|].
  assert (Py.slice_to 6 reranked = reranked) as Htop.
  { apply slice_to_all. by eapply rerank_locally_length; [|done]. }
  rewrite Htop in Hsources. rewrite Hsources. split; [|split].
  - apply collect_sources_NoDup.
  - apply collect_sources_elem_of.
  - apply collect_sources_positions.
Qed.

Lemma chat_sources_distinct_ordered_witness :
  exists tr' candidates reranked tr1 tr2,
    @chat Demo.globals Demo.request [] =
      (Ok {| answer := "See the refund policy.";
             sources := ["https://docs.example/refund"; "data/raw/account.md";
                         "data/raw/shipping.md"] |}, tr') /\
    @hybrid_retrieve Demo.globals (req_query Demo.request) (req_k Demo.request) [] =
      (Ok candidates, tr1) /\
    @rerank_locally Demo.globals (req_query Demo.request) candidates 6 tr1 =
      (Ok reranked, tr2) /\
    NoDup ["https://docs.example/refund"; "data/raw/account.md"; "data/raw/shipping.md"] /\
    (forall u,
       u ∈ ["https://docs.example/refund"; "data/raw/account.md"; "data/raw/shipping.md"] <->
       u <> EmptyString /\ exists c, c ∈ reranked /\ url c = Some u) /\
    exists ps, StronglySorted lt ps /\
      Forall2 (fun p u => exists c, first_occurrence url reranked p c /\ url c = Some u)
        ps ["https://docs.example/refund"; "data/raw/account.md"; "data/raw/shipping.md"].
Proof.
  assert (exists tr',
    @chat Demo.globals Demo.request [] =
      (Ok {| answer := "See the refund policy.";
             sources := ["https://docs.example/refund"; "data/raw/account.md";
                         "data/raw/shipping.md"] |}, tr')) as [tr' Hchat].
  { eexists. vm_compute. reflexivity. }
  destruct (@chat_sources_distinct_ordered Demo.globals Demo.request [] tr' _ Hchat)
    as (candidates & reranked & tr1 & tr2 & Hretrieve & Hrerank & Hrest).
  exists tr', candidates, reranked, tr1, tr2. split; [exact Hchat|]. split; [exact Hretrieve|].
  split; [exact Hrerank|]. exact Hrest.
Defined.

(** * Further properties of [backend/app/main.py] *)

(** ** Lexical search: ranking and a negative [k] *)

Lemma range_scores (scores : list Q) :
  (fun i => default 0%Q (scores !! i)) <$> Py.range (length scores) = scores.
Proof.
  apply list_eq. intros i. unfold Py.range. rewrite list_lookup_fmap.
  destruct (scores !! i) as [s|] eqn:Hs.
  - rewrite (lookup_seq_lt _ _ i) by (by eapply lookup_lt_Some). simpl. by rewrite Hs.
  - rewrite lookup_seq_ge; [done|]. by apply lookup_ge_None.
Qed.

Lemma range_sorted_ranked (scores : list Q) :
  exists idxs,
    Py.sorted_desc (fun i => default 0%Q (scores !! i)) (Py.range (length scores)) = idxs /\
    idxs ≡ₚ seq 0 (length scores) /\
    StronglySorted (ranks_before scores) idxs.
Proof.
  destruct (sorted_desc_ranked (fun i => default 0%Q (scores !! i)) (Py.range (length scores)))
    as (idxs & Hperm & Hsorted & Hall).
  exists idxs. rewrite range_scores in Hsorted. unfold Py.range in Hperm.
  rewrite length_seq in Hperm. split; [|done].
  symmetry. apply list_eq_Forall2. eapply Forall2_impl; [done|].
  intros i x Hi. unfold Py.range in Hi. apply lookup_seq in Hi. simpl in Hi. lia.
Qed.

Lemma bm25_search_ranked `{G : Globals} (query : string) (k : Z) :
  length (bm25_get_scores (Py.split query)) = length docs ->
  exists results idxs rest,
    bm25_search query k = Ok results /\
    Py.slice_to k (idxs ++ rest) = idxs /\
    Forall2 (fun i r => exists d s,
               docs !! i = Some d /\
               bm25_get_scores (Py.split query) !! i = Some s /\
               r = doc_to_candidate d s)
      idxs results /\
    idxs ++ rest ≡ₚ seq 0 (length docs) /\
    StronglySorted (ranks_before (bm25_get_scores (Py.split query))) (idxs ++ rest).
Proof.
  intros Hlen.
  destruct (bm25_search_run query k Hlen) as (results & Hrun & Hall).
  destruct (range_sorted_ranked (bm25_get_scores (Py.split query)))
    as (ranking & Hranking & Hperm & Hsorted).
  rewrite Hlen in Hranking, Hperm. rewrite Hranking in Hall.
  destruct (slice_to_take k ranking) as [n Hn].
  exists results, (take n ranking), (drop n ranking).
  rewrite take_drop, <- Hn. done.
Qed.

(** X1. When the BM25 index gives one score per corpus document, the
    lexical search returns, for every query and every [k], the documents
    at the first [k] places of the stable descending ranking of the
    corpus positions (the slice [[:k]] of it), in the order of the
    ranking: scores never increase along the result, and of two
    documents with equal scores the one that comes first in the corpus
    is ranked first. *)
Theorem bm25_search_ranking `{G : Globals} (query : string) (k : Z) :
  (forall corpus tokens, length (BM25Okapi_get_scores corpus tokens) = length corpus) ->
  exists results ranking,
    bm25_search query k = Ok results /\
    ranking ≡ₚ seq 0 (length docs) /\
    StronglySorted (ranks_before (bm25_get_scores (Py.split query))) ranking /\
    Forall2 (fun i r => exists d s,
               docs !! i = Some d /\
               bm25_get_scores (Py.split query) !! i = Some s /\
               r = doc_to_candidate d s)
      (Py.slice_to k ranking) results /\
    ((0 <= k)%Z -> Py.slice_to k ranking = take (Z.to_nat k) ranking) /\
    (forall i j a b,
       i < j -> results !! i = Some a -> results !! j = Some b ->
       (score b <= score a)%Q).
Proof.
  intros Hlib.
  destruct (bm25_search_ranked query k)
    as (results & idxs & rest & Hrun & Hslice & Hall & Hperm & Hsorted).
  { unfold bm25_get_scores. rewrite Hlib. apply tokenized_length. }
  exists results, (idxs ++ rest). split; [done|]. split; [done|]. split; [done|].
  split; [by rewrite Hslice|]. split; [apply slice_to_nonneg|].
  intros i j a b Hij Ha Hb.
  destruct (Forall2_lookup_r _ _ _ _ _ Hall Ha) as (ia & Hia & da & sa & _ & Hsa & ->).
  destruct (Forall2_lookup_r _ _ _ _ _ Hall Hb) as (ib & Hib & db & sb & _ & Hsb & ->).
  simpl. apply StronglySorted_app_1_l in Hsorted.
  destruct (StronglySorted_lookup_lt _ _ _ _ _ _ Hsorted Hij Hia Hib)
    as (sa' & sb' & Hsa' & Hsb' & Hord).
  rewrite Hsa in Hsa'. rewrite Hsb in Hsb'. injection Hsa' as <-. injection Hsb' as <-.
  destruct Hord as [Hlt|[Heq _]]; [by apply Qlt_le_weak|].
  rewrite Heq. apply Qle_refl.
Qed.

Lemma bm25_search_ranking_witness :
  (forall corpus tokens,
     length (@BM25Okapi_get_scores Demo.globals corpus tokens) = length corpus) /\
  @bm25_search Demo.globals "account refund" 2 =
    Ok [doc_to_candidate Demo.refund 1; doc_to_candidate Demo.deletion 1] /\
  exists results ranking,
    @bm25_search Demo.globals "account refund" 2 = Ok results /\
    ranking ≡ₚ seq 0 (length (@docs Demo.globals)) /\
    StronglySorted (ranks_before (@bm25_get_scores Demo.globals (Py.split "account refund")))
      ranking /\
    Forall2 (fun i r => exists d s,
               @docs Demo.globals !! i = Some d /\
               @bm25_get_scores Demo.globals (Py.split "account refund") !! i = Some s /\
               r = doc_to_candidate d s)
      (Py.slice_to 2 ranking) results /\
    ((0 <= 2)%Z -> Py.slice_to 2 ranking = take (Z.to_nat 2) ranking) /\
    (forall i j a b,
       i < j -> results !! i = Some a -> results !! j = Some b ->
       (score b <= score a)%Q).
Proof.
  split; [exact demo_scores_length|]. split; [reflexivity|].
  apply (@bm25_search_ranking Demo.globals "account refund" 2). exact demo_scores_length.
Defined.



(** ** Dense search: shape of the results and failures *)

(** X3. When [vector_search] returns, it has called the embedding model
    and then the store, once each, and returns one candidate per hit, in
    the order of the hits, with the score of the hit: a hit without
    payload, or whose payload has no text, is kept, with the empty text,
    and a missing url or title is [None]. *)
Theorem vector_search_results `{G : Globals} (query : string) (k : Z)
    (tr tr' : list Event) (results : list Candidate) :
  vector_search query k tr = (Ok results, tr') ->
  exists qv hits,
    embed_model_encode query = Ok qv /\
    qdrant_search qv k (15 # 100) = Ok hits /\
    tr' = tr ++ [EvEncode query; EvSearch qv k (15 # 100)] /\
    Forall2 (fun h r =>
               score r = hit_score h /\ source r = src_vector /\ rerank_score r = None /\
               match hit_payload h with
               | Some p =>
                   text r = default EmptyString (payload_text p) /\
                   url r = payload_url p /\ title r = payload_title p
               | None => text r = EmptyString /\ url r = None /\ title r = None
               end)
      hits results.
Proof.
  intros Hrun.
  apply vector_search_inv in Hrun as (qv & hits & Hqv & Hhits & -> & ->).
  exists qv, hits. split; [done|]. split; [exact Hhits|]. split; [reflexivity|].
  apply Forall2_fmap_r, Forall_Forall2_diag, Forall_forall.
  intros h _. unfold hit_to_candidate. simpl.
  destruct (hit_payload h); simpl; repeat split.
Qed.

Lemma vector_search_results_witness :
  exists tr' results qv hits,
    @vector_search Demo.globals "refund" 8 [] = (Ok results, tr') /\
    @embed_model_encode Demo.globals "refund" = Ok qv /\
    @qdrant_search Demo.globals qv 8 (15 # 100) = Ok hits /\
    tr' = [] ++ [EvEncode "refund"; EvSearch qv 8 (15 # 100)] /\
    Forall2 (fun h r =>
               score r = hit_score h /\ source r = src_vector /\ rerank_score r = None /\
               match hit_payload h with
               | Some p =>
                   text r = default EmptyString (payload_text p) /\
                   url r = payload_url p /\ title r = payload_title p
               | None => text r = EmptyString /\ url r = None /\ title r = None
               end)
      hits results.
Proof.
  assert (exists tr' results, @vector_search Demo.globals "refund" 8 [] = (Ok results, tr'))
    as (tr' & results & Hrun).
  { eexists _, _. vm_compute. reflexivity. }
  destruct (@vector_search_results Demo.globals "refund" 8 [] tr' results Hrun)
    as (qv & hits & Hrest).
  exists tr', results, qv, hits. split; [exact Hrun|exact Hrest].
Defined.

(** X4. [vector_search] raises exactly when the embedding model raises,
    in which case the store is not queried, or when the store raises;
    the exception is handed on unchanged. *)
Theorem vector_search_raises_iff `{G : Globals} (query : string) (k : Z)
    (tr tr' : list Event) (e : PyError) :
  vector_search query k tr = (Raised e, tr') <->
  (embed_model_encode query = Raised e /\ tr' = tr ++ [EvEncode query]) \/
  (exists qv,
     embed_model_encode query = Ok qv /\
     qdrant_search qv k (15 # 100) = Raised e /\
     tr' = tr ++ [EvEncode query; EvSearch qv k (15 # 100)]).
Proof.
  unfold vector_search, embed_query, bind, call, ret.
  destruct (embed_model_encode query) as [qv|e0] eqn:Hqv.
  - fold score_threshold.
    destruct (qdrant_search qv k score_threshold) as [hits|e1] eqn:Hhits.
    + split; [done|]. intros [[? _]|(qv' & [= <-] & Hraise & _)]; [done|].
      rewrite Hhits in Hraise. done.
    + rewrite <- app_assoc. simpl. split.
      * intros [= <- <-]. right. by exists qv.
      * intros [[? _]|(qv' & [= <-] & Hraise & ->)]; [done|].
        rewrite Hhits in Hraise. by injection Hraise as <-.
  - split.
    + intros [= <- <-]. by left.
    + intros [[[= <-] ->]|(qv' & ? & _)]; done.
Qed.

(** ** Fusion inside [hybrid_retrieve] *)

Lemma first_occurrences_app {A K : Type} `{EqDecision K} (key : A -> K)
    (seen : list K) (l1 l2 : list A) :
  first_occurrences key seen (l1 ++ l2) =
    first_occurrences key seen l1 ++
    first_occurrences key (seen ++ (key <$> l1)) l2.
Proof.
  revert seen. induction l1 as [|x l1 IH]; intros seen; simpl.
  - by rewrite app_nil_r.
  - destruct (decide (key x ∈ seen)) as [Hin|Hnin].
    + rewrite IH. f_equal. apply first_occurrences_ext. intros y.
      rewrite !elem_of_app, elem_of_cons. split; [tauto|].
      intros [?|[->|?]]; tauto.
    + simpl. f_equal. rewrite IH. f_equal. apply first_occurrences_ext. intros y.
      rewrite !elem_of_app, !elem_of_cons. tauto.
Qed.

(** X6. The merged list is the de-duplicated vector results followed by
    the lexical results whose key no vector result (and no earlier
    lexical result) carries, cut at [max(2k, 10)] entries: a lexical
    candidate never displaces a vector candidate with the same key. *)
Theorem merge_vector_first (vec_results bm25_results : list Candidate) (k : Z) :
  merge vec_results bm25_results k =
    take (Z.to_nat (Z.max (k * 2) 10))
      (dedup vec_results ++
       first_occurrences dedup_key (dedup_key <$> vec_results) bm25_results).
Proof.
  rewrite merge_unfold, first_occurrences_app, dedup_first_occurrences. done.
Qed.

Lemma hybrid_retrieve_inv `{G : Globals} (query : string) (k : Z)
    (tr tr' : list Event) (out : list Candidate) :
  hybrid_retrieve query k tr = (Ok out, tr') ->
  exists vec_results bm25_results,
    vector_search query k tr = (Ok vec_results, tr') /\
    bm25_search query k = Ok bm25_results /\
    out = merge vec_results bm25_results k.
Proof.
  unfold hybrid_retrieve, bind at 1.
  destruct (vector_search query k tr) as [[vec_results|e] tr1]; [|done].
  unfold bind, lift, ret.
  destruct (bm25_search query k) as [bm25_results|e]; [|done].
  intros [= <- <-]. by exists vec_results, bm25_results.
Qed.

Lemma bm25_search_length `{G : Globals} (query : string) (k : Z) :
  (forall corpus tokens, length (BM25Okapi_get_scores corpus tokens) = length corpus) ->
  (0 <= k)%Z ->
  exists results,
    bm25_search query k = Ok results /\
    Z.of_nat (length results) = Z.min k (Z.of_nat (length docs)).
Proof.
  intros Hlib Hk.
  destruct (bm25_search_run query k) as (results & Hrun & Hall).
  { unfold bm25_get_scores. rewrite Hlib. apply tokenized_length. }
  exists results. split; [done|].
  rewrite <- (Forall2_length _ _ _ Hall), slice_to_length by done.
  rewrite sorted_desc_length. unfold Py.range. by rewrite length_seq.
Qed.

Lemma demo_store_honours_limit (qv : list Q) (limit : Z) (threshold : Q) (hits : list Hit) :
  Demo.store qv limit threshold = Ok hits ->
  (0 <= limit)%Z -> (Z.of_nat (length hits) <= limit)%Z.
Proof.
  unfold Demo.store. intros [= <-] Hlimit. rewrite length_take. lia.
Qed.

(** [hybrid_retrieve] hands to the fusion step at most [k] vector
    results and at most [k] lexical results, so that the cut at
    [max(2k, 10)] finds nothing to remove. *)
Lemma hybrid_retrieve_sizes `{G : Globals} (query : string) (k : Z)
    (tr tr' : list Event) (vec_results bm25_results : list Candidate) :
  (forall qv limit threshold hits,
     qdrant_search qv limit threshold = Ok hits ->
     (0 <= limit)%Z -> (Z.of_nat (length hits) <= limit)%Z) ->
  (forall corpus tokens, length (BM25Okapi_get_scores corpus tokens) = length corpus) ->
  (0 <= k)%Z ->
  vector_search query k tr = (Ok vec_results, tr') ->
  bm25_search query k = Ok bm25_results ->
  (Z.of_nat (length vec_results) <= k)%Z /\ (Z.of_nat (length bm25_results) <= k)%Z.
Proof.
  intros Hlimit Hlib Hk Hvec Hbm.
  apply vector_search_inv in Hvec as (qv & hits & _ & Hhits & -> & _).
  apply Hlimit in Hhits; [|done]. rewrite length_fmap.
  destruct (bm25_search_length query k Hlib Hk) as (results & Hbm' & Hlen_bm).
  rewrite Hbm in Hbm'. injection Hbm' as <-. lia.
Qed.

(** C3. The fusion step of [hybrid_retrieve] receives what the two
    searches return for [k]: when the store returns at most [limit]
    hits, the BM25 index one score per document, and [k >= 0], every
    candidate of the concatenation "vector results, then lexical
    results" has exactly one entry with its key (the first 64
    characters of its text, and its url) in the result, and this entry
    is the first occurrence of the key in the concatenation: candidates
    that share the key collapse to this one entry, whatever their scores
    and sources. *)
Theorem hybrid_retrieve_dedup_key `{G : Globals} (query : string) (k : Z)
    (tr tr' : list Event) (out : list Candidate) :
  (forall qv limit threshold hits,
     qdrant_search qv limit threshold = Ok hits ->
     (0 <= limit)%Z -> (Z.of_nat (length hits) <= limit)%Z) ->
  (forall corpus tokens, length (BM25Okapi_get_scores corpus tokens) = length corpus) ->
  (0 <= k)%Z ->
  hybrid_retrieve query k tr = (Ok out, tr') ->
  exists vec_results bm25_results,
    vector_search query k tr = (Ok vec_results, tr') /\
    bm25_search query k = Ok bm25_results /\
    forall c c',
      c ∈ vec_results ++ bm25_results -> c' ∈ vec_results ++ bm25_results ->
      Py.str_prefix 64 (text c) = Py.str_prefix 64 (text c') -> url c = url c' ->
      exists i a p,
        out !! i = Some a /\
        dedup_key a = dedup_key c /\ dedup_key a = dedup_key c' /\
        first_occurrence dedup_key (vec_results ++ bm25_results) p a /\
        forall j b,
          out !! j = Some b ->
          dedup_key b = dedup_key c \/ dedup_key b = dedup_key c' -> j = i.
Proof.
  intros Hlimit Hlib Hk Hrun.
  apply hybrid_retrieve_inv in Hrun as (vec_results & bm25_results & Hvec & Hbm & ->).
  exists vec_results, bm25_results. split; [done|]. split; [done|].
  destruct (hybrid_retrieve_sizes query k tr tr' vec_results bm25_results
              Hlimit Hlib Hk Hvec Hbm) as [Hlen_vec Hlen_bm].
  destruct (merge_dedup_key vec_results bm25_results k) as (Hunique & Hfirst & Hcovers).
  intros c c' Hc _ Htext Hurl.
  assert (dedup_key c = dedup_key c') as Hkeys.
  { unfold dedup_key. by rewrite Htext, Hurl. }
  destruct (Hcovers) with (c := c) as (a & Ha & Hkey_a); [|done|].
  { etransitivity; [|apply Z.le_max_l].
    assert (size (list_to_set (dedup_key <$> vec_results ++ bm25_results) : gset Key) <=
            length (vec_results ++ bm25_results)) as Hsize.
    { rewrite <- dedup_length_distinct, dedup_first_occurrences.
      apply sublist_length, first_occurrences_sublist. }
    rewrite length_app in Hsize. lia. }
  apply list_elem_of_lookup in Ha as [i Ha].
  destruct (Hfirst a) as [p Hp]; [by eapply list_elem_of_lookup_2|].
  exists i, a, p. split; [done|]. split; [done|]. split; [congruence|]. split; [done|].
  intros j b Hb Hkey_b. apply (Hunique j i b a Hb Ha).
  destruct Hkey_b; congruence.
Qed.

Lemma hybrid_retrieve_dedup_key_witness :
  (forall qv limit threshold hits,
     @qdrant_search Demo.globals qv limit threshold = Ok hits ->
     (0 <= limit)%Z -> (Z.of_nat (length hits) <= limit)%Z) /\
  (forall corpus tokens,
     length (@BM25Okapi_get_scores Demo.globals corpus tokens) = length corpus) /\
  (0 <= 8)%Z /\
  exists out tr' vec_results bm25_results,
    @hybrid_retrieve Demo.globals "how do I get a refund" 8 [] = (Ok out, tr') /\
    length out = 4 /\
    length (vec_results ++ bm25_results) = 5 /\
    @vector_search Demo.globals "how do I get a refund" 8 [] = (Ok vec_results, tr') /\
    @bm25_search Demo.globals "how do I get a refund" 8 = Ok bm25_results /\
    forall c c',
      c ∈ vec_results ++ bm25_results -> c' ∈ vec_results ++ bm25_results ->
      Py.str_prefix 64 (text c) = Py.str_prefix 64 (text c') -> url c = url c' ->
      exists i a p,
        out !! i = Some a /\
        dedup_key a = dedup_key c /\ dedup_key a = dedup_key c' /\
        first_occurrence dedup_key (vec_results ++ bm25_results) p a /\
        forall j b,
          out !! j = Some b ->
          dedup_key b = dedup_key c \/ dedup_key b = dedup_key c' -> j = i.
Proof.
  split; [exact demo_store_honours_limit|]. split; [exact demo_scores_length|].
  split; [lia|].
  assert (exists out tr',
    @hybrid_retrieve Demo.globals "how do I get a refund" 8 [] = (Ok out, tr') /\
    length out = 4) as (out & tr' & Hrun & Hlen).
  { eexists _, _. split; vm_compute; reflexivity. }
  destruct (@hybrid_retrieve_dedup_key Demo.globals "how do I get a refund" 8 [] tr' out
              demo_store_honours_limit demo_scores_length ltac:(lia) Hrun)
    as (vec_results & bm25_results & Hvec & Hbm & Hrest).
  exists out, tr', vec_results, bm25_results. split; [exact Hrun|]. split; [exact Hlen|].
  split; [|by split; [|split]].
  pose proof Hvec as Hvec'. pose proof Hbm as Hbm'.
  vm_compute in Hvec', Hbm'. injection Hvec' as <- _. injection Hbm' as <-.
  reflexivity.
Defined.

(** X5. Inside [hybrid_retrieve] the cut at [max(2k, 10)] removes
    nothing: when the store returns at most [limit] hits, the BM25 index
    one score per document, and [k >= 0], the result is the whole
    de-duplicated concatenation, so every candidate found by either
    search has its key represented in the result. *)
Theorem hybrid_retrieve_no_truncation `{G : Globals} (query : string) (k : Z)
    (tr tr' : list Event) (out : list Candidate) :
  (forall qv limit threshold hits,
     qdrant_search qv limit threshold = Ok hits ->
     (0 <= limit)%Z -> (Z.of_nat (length hits) <= limit)%Z) ->
  (forall corpus tokens, length (BM25Okapi_get_scores corpus tokens) = length corpus) ->
  (0 <= k)%Z ->
  hybrid_retrieve query k tr = (Ok out, tr') ->
  exists vec_results bm25_results,
    vector_search query k tr = (Ok vec_results, tr') /\
    bm25_search query k = Ok bm25_results /\
    out = dedup (vec_results ++ bm25_results) /\
    forall c, c ∈ vec_results ++ bm25_results ->
              exists a, a ∈ out /\ dedup_key a = dedup_key c.
Proof.
  intros Hlimit Hlib Hk Hrun.
  apply hybrid_retrieve_inv in Hrun as (vec_results & bm25_results & Hvec & Hbm & ->).
  exists vec_results, bm25_results. split; [done|]. split; [done|].
  assert (merge vec_results bm25_results k = dedup (vec_results ++ bm25_results)) as ->.
  { unfold merge. apply slice_to_all.
    assert (length (dedup (vec_results ++ bm25_results)) <=
            length vec_results + length bm25_results) as Hdedup.
    { rewrite dedup_first_occurrences, <- length_app.
      apply sublist_length, first_occurrences_sublist. }
    apply vector_search_inv in Hvec as (qv & hits & _ & Hhits & Hvec & _).
    apply Hlimit in Hhits; [|done].
    assert (length vec_results = length hits) as Hlen_vec.
    { rewrite Hvec. apply length_fmap. }
    destruct (bm25_search_length query k Hlib Hk) as (results & Hbm' & Hlen_bm).
    rewrite Hbm in Hbm'. injection Hbm' as <-. lia. }
  split; [done|]. intros c Hc. rewrite dedup_first_occurrences.
  apply first_occurrences_covers; [done|by intros ?%elem_of_nil].
Qed.

Lemma hybrid_retrieve_no_truncation_witness :
  (forall qv limit threshold hits,
     @qdrant_search Demo.globals qv limit threshold = Ok hits ->
     (0 <= limit)%Z -> (Z.of_nat (length hits) <= limit)%Z) /\
  (forall corpus tokens,
     length (@BM25Okapi_get_scores Demo.globals corpus tokens) = length corpus) /\
  (0 <= 8)%Z /\
  exists out tr' vec_results bm25_results,
    @hybrid_retrieve Demo.globals "how do I get a refund" 8 [] = (Ok out, tr') /\
    length out = 4 /\
    @vector_search Demo.globals "how do I get a refund" 8 [] = (Ok vec_results, tr') /\
    @bm25_search Demo.globals "how do I get a refund" 8 = Ok bm25_results /\
    out = dedup (vec_results ++ bm25_results) /\
    forall c, c ∈ vec_results ++ bm25_results ->
              exists a, a ∈ out /\ dedup_key a = dedup_key c.
Proof.
  split; [exact demo_store_honours_limit|]. split; [exact demo_scores_length|].
  split; [lia|].
  assert (exists out tr',
    @hybrid_retrieve Demo.globals "how do I get a refund" 8 [] = (Ok out, tr') /\
    length out = 4) as (out & tr' & Hrun & Hlen).
  { eexists _, _. split; vm_compute; reflexivity. }
  destruct (@hybrid_retrieve_no_truncation Demo.globals "how do I get a refund" 8 [] tr' out
              demo_store_honours_limit demo_scores_length ltac:(lia) Hrun)
    as (vec_results & bm25_results & Hrest).
  exists out, tr', vec_results, bm25_results. split; [exact Hrun|]. split; [exact Hlen|].
  exact Hrest.
Defined.

(** X7. When the BM25 index gives one score per corpus document,
    [hybrid_retrieve] raises exactly when [vector_search] raises, with
    the same exception and the same external calls made: the lexical
    search itself never raises, and a failure of the dense search is not
    made up for by the lexical results. *)
Theorem hybrid_retrieve_raises_iff `{G : Globals} (query : string) (k : Z)
    (tr tr' : list Event) (e : PyError) :
  (forall corpus tokens, length (BM25Okapi_get_scores corpus tokens) = length corpus) ->
  hybrid_retrieve query k tr = (Raised e, tr') <->
  vector_search query k tr = (Raised e, tr').
Proof.
  intros Hlib. unfold hybrid_retrieve, bind at 1.
  destruct (vector_search query k tr) as [[vec_results|e0] tr1]; [|done].
  unfold bind, lift, ret.
  destruct (bm25_search_run query k) as (results & -> & _); [|done].
  unfold bm25_get_scores. rewrite Hlib. apply tokenized_length.
Qed.

Lemma hybrid_retrieve_raises_iff_witness :
  (forall corpus tokens,
     length (@BM25Okapi_get_scores Scenarios.store_down corpus tokens) = length corpus) /\
  @vector_search Scenarios.store_down "refund" 8 [] =
    (Raised VectorStoreError, [EvEncode "refund"; EvSearch [1 # 2; 1 # 3] 8 (15 # 100)]) /\
  @hybrid_retrieve Scenarios.store_down "refund" 8 [] =
    (Raised VectorStoreError, [EvEncode "refund"; EvSearch [1 # 2; 1 # 3] 8 (15 # 100)]).
Proof.
  split; [exact demo_scores_length|]. split; [reflexivity|].
  apply (@hybrid_retrieve_raises_iff Scenarios.store_down "refund" 8 []);
    [exact demo_scores_length|reflexivity].
Defined.

(** ** Reranking: how many candidates come back *)

(** X8. For a non-empty candidate list and [top_n >= 0], the reranker
    returns [min(top_n, number of scored candidates)] entries, where the
    scored candidates are those paired with a score by [zip]: when the
    model returns fewer scores than there are candidates, the candidates
    beyond the last score are left out without any error. *)
Theorem rerank_locally_length_exact `{G : Globals} (query : string)
    (docs_in : list Candidate) (top_n : Z) (scores : list Q) (tr : list Event) :
  docs_in <> [] ->
  reranker_model_predict ((fun d => (query, text d)) <$> docs_in) = Ok scores ->
  (0 <= top_n)%Z ->
  exists out,
    rerank_locally query docs_in top_n tr =
      (Ok out, tr ++ [EvPredict ((fun d => (query, text d)) <$> docs_in)]) /\
    Z.of_nat (length out) =
      Z.min top_n (Z.min (Z.of_nat (length docs_in)) (Z.of_nat (length scores))).
Proof.
  intros Hne Hpredict Htop. eexists. split.
  - rewrite rerank_locally_nonempty by done. by rewrite Hpredict.
  - rewrite length_fmap, slice_to_length by done.
    rewrite sorted_desc_length, length_zip. lia.
Qed.

Lemma rerank_locally_length_exact_witness :
  Scenarios.three <> [] /\
  @reranker_model_predict Scenarios.short_batch
    ((fun d => ("refund", text d)) <$> Scenarios.three) = Ok [inject_Z 5] /\
  (0 <= 6)%Z /\
  @rerank_locally Scenarios.short_batch "refund" Scenarios.three 6 [] =
    (Ok [set_rerank_score Demo.twin_a (inject_Z 5)],
     [EvPredict ((fun d => ("refund", text d)) <$> Scenarios.three)]) /\
  exists out,
    @rerank_locally Scenarios.short_batch "refund" Scenarios.three 6 [] =
      (Ok out, [] ++ [EvPredict ((fun d => ("refund", text d)) <$> Scenarios.three)]) /\
    Z.of_nat (length out) =
      Z.min 6 (Z.min (Z.of_nat (length Scenarios.three)) (Z.of_nat (length [inject_Z 5]))).
Proof.
  split; [discriminate|]. split; [reflexivity|]. split; [lia|]. split; [reflexivity|].
  apply (@rerank_locally_length_exact Scenarios.short_batch "refund" Scenarios.three 6
           [inject_Z 5] []); [discriminate|reflexivity|lia].
Defined.



(** ** The endpoint: empty retrieval, external calls, failures, citations *)

Lemma rerank_locally_inv `{G : Globals} (query : string) (docs_in : list Candidate)
    (top_n : Z) (tr tr' : list Event) (out : list Candidate) :
  rerank_locally query docs_in top_n tr = (Ok out, tr') ->
  (docs_in = [] /\ out = [] /\ tr' = tr) \/
  (docs_in <> [] /\
   exists scores,
     reranker_model_predict ((fun d => (query, text d)) <$> docs_in) = Ok scores /\
     out = (fun p => set_rerank_score p.1 p.2) <$>
             Py.slice_to top_n (Py.sorted_desc snd (zip docs_in scores)) /\
     tr' = tr ++ [EvPredict ((fun d => (query, text d)) <$> docs_in)]).
Proof.
  destruct docs_in as [|d docs_in].
  - intros [= <- <-]. by left.
  - rewrite rerank_locally_nonempty by done.
    destruct (reranker_model_predict _) as [scores|e] eqn:Hpredict; [|done].
    intros [= <- <-]. right. split; [done|]. by exists scores.
Qed.

Lemma rerank_locally_elem_of `{G : Globals} (query : string) (docs_in : list Candidate)
    (top_n : Z) (tr tr' : list Event) (out : list Candidate) (r : Candidate) :
  rerank_locally query docs_in top_n tr = (Ok out, tr') ->
  r ∈ out ->
  exists d s, d ∈ docs_in /\ r = set_rerank_score d s.
Proof.
  intros Hrun Hr.
  apply rerank_locally_inv in Hrun as [(_ & -> & _)|(_ & scores & _ & -> & _)].
  - by apply elem_of_nil in Hr.
  - apply list_elem_of_fmap in Hr as ([d s] & -> & Hin).
    eapply elem_of_sublist in Hin; [|apply slice_to_sublist].
    apply sorted_desc_elem_of in Hin.
    apply list_elem_of_lookup in Hin as [i Hi].
    apply lookup_zip_with_Some in Hi as (d' & s' & [= <- <-] & Hd & _).
    exists d, s. split; [by eapply list_elem_of_lookup_2|done].
Qed.

(** X10. When fusion yields no candidate, [chat] does not call the
    cross-encoder; it still calls the chat model, with the prompt built
    from no context, and answers with an empty list of sources (or
    raises what the chat model raises). *)
Theorem chat_no_candidates `{G : Globals} (req : ChatRequest) (tr tr1 : list Event) :
  hybrid_retrieve (req_query req) (req_k req) tr = (Ok [], tr1) ->
  chat req tr =
    (match openai_chat_completion (build_prompt [] (req_query req)) with
     | Ok a => Ok {| answer := a; sources := [] |}
     | Raised e => Raised e
     end,
     tr1 ++ [EvGenerate (build_prompt [] (req_query req))]).
Proof.
  intros Hretrieve. unfold chat, bind at 1. rewrite Hretrieve.
  unfold bind, rerank_locally, ret, generate_answer, call. simpl.
  by destruct (openai_chat_completion _).
Qed.

Lemma chat_no_candidates_witness :
  exists tr1,
    @hybrid_retrieve Demo.globals "refund" 0 [] = (Ok [], tr1) /\
    @chat Demo.globals (mkChatRequest "refund" 0) [] =
      (match @openai_chat_completion Demo.globals (build_prompt [] "refund") with
       | Ok a => Ok {| answer := a; sources := [] |}
       | Raised e => Raised e
       end,
       tr1 ++ [EvGenerate (build_prompt [] "refund")]).
Proof.
  assert (exists tr1, @hybrid_retrieve Demo.globals "refund" 0 [] = (Ok [], tr1))
    as [tr1 Hretrieve].
  { eexists. vm_compute. reflexivity. }
  exists tr1. split; [exact Hretrieve|].
  exact (@chat_no_candidates Demo.globals (mkChatRequest "refund" 0) [] tr1 Hretrieve).
Defined.

(** X11. A request that [chat] answers has made its external calls in
    this order, each at most once: the embedding model, the vector
    store with the limit [k] and the threshold [0.15], the cross-encoder
    with one batch holding a pair per fused candidate (no call when
    there is no candidate), and the chat model with the prompt built
    from the contexts that [rerank_locally] returned for the fused
    candidates, whose completion is the answer. *)
Theorem chat_external_calls `{G : Globals} (req : ChatRequest)
    (tr tr' : list Event) (resp : ChatResponse) :
  chat req tr = (Ok resp, tr') ->
  exists qv candidates reranked tr1 tr2,
    embed_model_encode (req_query req) = Ok qv /\
    tr1 = tr ++ [EvEncode (req_query req); EvSearch qv (req_k req) (15 # 100)] /\
    hybrid_retrieve (req_query req) (req_k req) tr = (Ok candidates, tr1) /\
    tr2 = tr1 ++ match candidates with
                 | [] => []
                 | _ => [EvPredict ((fun d => (req_query req, text d)) <$> candidates)]
                 end /\
    rerank_locally (req_query req) candidates 6 tr1 = (Ok reranked, tr2) /\
    openai_chat_completion (build_prompt reranked (req_query req)) = Ok (answer resp) /\
    tr' = tr2 ++ [EvGenerate (build_prompt reranked (req_query req))].
Proof.
  intros Hchat.
  apply chat_inv in Hchat
    as (candidates & reranked & tr1 & tr2 & Hretrieve & Hrerank & Hanswer & _ & ->).
  assert (Py.slice_to 6 reranked = reranked) as Hsix.
  { apply slice_to_all. by eapply rerank_locally_length; [|done]. }
  rewrite Hsix in *.
  pose proof Hretrieve as Hretrieve'.
  apply hybrid_retrieve_inv in Hretrieve' as (vec_results & bm25_results & Hvec & _ & _).
  apply vector_search_inv in Hvec as (qv & hits & Hqv & _ & _ & Htr1).
  exists qv, candidates, reranked, tr1, tr2.
  split; [exact Hqv|]. split; [exact Htr1|]. split; [exact Hretrieve|].
  split; [|done].
  apply rerank_locally_inv in Hrerank as [(-> & _ & ->)|(Hne & scores & _ & _ & ->)].
  - by rewrite app_nil_r.
  - by destruct candidates.
Qed.

Lemma chat_external_calls_witness :
  exists tr' resp qv candidates reranked tr1 tr2,
    @chat Demo.globals Demo.request [] = (Ok resp, tr') /\
    length tr' = 4 /\
    @embed_model_encode Demo.globals (req_query Demo.request) = Ok qv /\
    tr1 = [] ++ [EvEncode (req_query Demo.request);
                 EvSearch qv (req_k Demo.request) (15 # 100)] /\
    @hybrid_retrieve Demo.globals (req_query Demo.request) (req_k Demo.request) [] =
      (Ok candidates, tr1) /\
    tr2 = tr1 ++ match candidates with
                 | [] => []
                 | _ => [EvPredict ((fun d => (req_query Demo.request, text d)) <$> candidates)]
                 end /\
    @rerank_locally Demo.globals (req_query Demo.request) candidates 6 tr1 =
      (Ok reranked, tr2) /\
    @openai_chat_completion Demo.globals (build_prompt reranked (req_query Demo.request)) =
      Ok (answer resp) /\
    tr' = tr2 ++ [EvGenerate (build_prompt reranked (req_query Demo.request))].
Proof.
  assert (exists tr' resp,
    @chat Demo.globals Demo.request [] = (Ok resp, tr') /\ length tr' = 4)
    as (tr' & resp & Hchat & Hlen).
  { eexists _, _. split; vm_compute; reflexivity. }
  destruct (@chat_external_calls Demo.globals Demo.request [] tr' resp Hchat)
    as (qv & candidates & reranked & tr1 & tr2 & Hrest).
  exists tr', resp, qv, candidates, reranked, tr1, tr2.
  split; [exact Hchat|]. split; [exact Hlen|]. exact Hrest.
Defined.

(** X12. When the BM25 index gives one score per corpus document, [chat]
    raises in exactly three cases, always with the exception of the
    failed call and never with a partial result: the dense search
    raises; the cross-encoder raises on a non-empty fused list; or
    retrieval and reranking succeed and the chat model raises, in which
    case the sources already found are lost with the answer. *)
Theorem chat_raises_iff `{G : Globals} (req : ChatRequest)
    (tr tr' : list Event) (e : PyError) :
  (forall corpus tokens, length (BM25Okapi_get_scores corpus tokens) = length corpus) ->
  chat req tr = (Raised e, tr') <->
  vector_search (req_query req) (req_k req) tr = (Raised e, tr') \/
  (exists candidates tr1,
     hybrid_retrieve (req_query req) (req_k req) tr = (Ok candidates, tr1) /\
     candidates <> [] /\
     reranker_model_predict ((fun d => (req_query req, text d)) <$> candidates) = Raised e /\
     tr' = tr1 ++ [EvPredict ((fun d => (req_query req, text d)) <$> candidates)]) \/
  (exists candidates tr1 reranked tr2,
     hybrid_retrieve (req_query req) (req_k req) tr = (Ok candidates, tr1) /\
     rerank_locally (req_query req) candidates 6 tr1 = (Ok reranked, tr2) /\
     openai_chat_completion (build_prompt reranked (req_query req)) = Raised e /\
     tr' = tr2 ++ [EvGenerate (build_prompt reranked (req_query req))]).
Proof.
  intros Hlib.
  assert (forall tr0 e0,
            hybrid_retrieve (req_query req) (req_k req) tr = (Raised e0, tr0) <->
            vector_search (req_query req) (req_k req) tr = (Raised e0, tr0)) as Hhybrid.
  { intros tr0 e0. unfold hybrid_retrieve, bind at 1.
    destruct (vector_search _ _ tr) as [[vec_results|e1] tr1]; [|done].
    unfold bind, lift, ret.
    destruct (bm25_search_run (req_query req) (req_k req)) as (results & -> & _); [|done].
    unfold bm25_get_scores. rewrite Hlib. apply tokenized_length. }
  unfold chat, bind at 1.
  destruct (hybrid_retrieve _ _ tr) as [[candidates|e0] tr1] eqn:Hretrieve.
  - unfold bind at 1.
    destruct (rerank_locally _ candidates 6 tr1) as [[reranked|e1] tr2] eqn:Hrerank.
    + assert (Py.slice_to 6 reranked = reranked) as ->.
      { apply slice_to_all. by eapply rerank_locally_length; [|done]. }
      unfold bind, generate_answer, call, ret.
      destruct (openai_chat_completion _) as [a|e2] eqn:Hanswer.
      * split; [done|]. intros [Hvec|[Hpredict|Hgenerate]].
        -- apply Hhybrid in Hvec. congruence.
        -- destruct Hpredict as (c & t & [= <- <-] & Hne & Hpredict & _).
           rewrite rerank_locally_nonempty, Hpredict in Hrerank by done. done.
        -- destruct Hgenerate as (c & t & r & t2 & [= <- <-] & Hrerank' & Hraise & _).
           rewrite Hrerank in Hrerank'. injection Hrerank' as <- <-. congruence.
      * split.
        -- intros [= <- <-]. right; right. by exists candidates, tr1, reranked, tr2.
        -- intros [Hvec|[Hpredict|Hgenerate]].
           ++ apply Hhybrid in Hvec. congruence.
           ++ destruct Hpredict as (c & t & [= <- <-] & Hne & Hpredict & _).
              rewrite rerank_locally_nonempty, Hpredict in Hrerank by done. done.
           ++ destruct Hgenerate as (c & t & r & t2 & [= <- <-] & Hrerank' & Hraise & ->).
              rewrite Hrerank in Hrerank'. injection Hrerank' as <- <-. congruence.
    + destruct candidates as [|d candidates]; [done|].
      rewrite rerank_locally_nonempty in Hrerank by done.
      destruct (reranker_model_predict _) as [scores|e2] eqn:Hpredict; [done|].
      injection Hrerank as <- <-. split.
      * intros [= <- <-]. right; left. by exists (d :: candidates), tr1.
      * intros [Hvec|[Hpredict'|Hgenerate]].
        -- apply Hhybrid in Hvec. congruence.
        -- destruct Hpredict' as (c & t & [= <- <-] & _ & Hpredict' & ->).
           rewrite Hpredict in Hpredict'. injection Hpredict' as <-. reflexivity.
        -- destruct Hgenerate as (c & t & r & t2 & [= <- <-] & Hrerank & _).
           rewrite rerank_locally_nonempty, Hpredict in Hrerank by done. done.
  - split.
    + intros [= <- <-]. left. by apply Hhybrid.
    + intros [Hvec|[Hpredict|Hgenerate]].
      * apply Hhybrid in Hvec. congruence.
      * by destruct Hpredict as (c & t & ? & _).
      * by destruct Hgenerate as (c & t & r & t2 & ? & _).
Qed.

Lemma chat_raises_iff_witness :
  (forall corpus tokens,
     length (@BM25Okapi_get_scores Scenarios.chat_model_down corpus tokens) = length corpus) /\
  exists tr' candidates tr1 reranked tr2,
    @hybrid_retrieve Scenarios.chat_model_down
      (req_query Demo.request) (req_k Demo.request) [] = (Ok candidates, tr1) /\
    @rerank_locally Scenarios.chat_model_down (req_query Demo.request) candidates 6 tr1 =
      (Ok reranked, tr2) /\
    @openai_chat_completion Scenarios.chat_model_down
      (build_prompt reranked (req_query Demo.request)) = Raised ChatModelError /\
    tr' = tr2 ++ [EvGenerate (build_prompt reranked (req_query Demo.request))] /\
    @chat Scenarios.chat_model_down Demo.request [] = (Raised ChatModelError, tr').
Proof.
  split; [exact demo_scores_length|].
  eexists _, _, _, _, _. split; [vm_compute; reflexivity|].
  split; [vm_compute; reflexivity|]. split; [reflexivity|]. split; [reflexivity|].
  apply (@chat_raises_iff Scenarios.chat_model_down Demo.request []);
    [exact demo_scores_length|].
  right; right. eexists _, _, _, _. split; [vm_compute; reflexivity|].
  split; [vm_compute; reflexivity|]. split; reflexivity.
Defined.

Lemma collect_sources_length (top_ctx : list Candidate) :
  length (collect_sources top_ctx) <= length top_ctx.
Proof.
  rewrite collect_sources_unfold.
  etransitivity; [apply sublist_length, first_occurrences_sublist|].
  rewrite length_fmap. apply List.filter_length_le.
Qed.

(** X13. The sources of an answered request are at most six, and every
    one of them is the url of a candidate returned by the fusion step:
    the citation list is derived from the retrieved candidates alone,
    never from the text of the answer. *)
Theorem chat_sources_provenance `{G : Globals} (req : ChatRequest)
    (tr tr' : list Event) (resp : ChatResponse) :
  chat req tr = (Ok resp, tr') ->
  exists candidates tr1,
    hybrid_retrieve (req_query req) (req_k req) tr = (Ok candidates, tr1) /\
    length (sources resp) <= 6 /\
    forall u, u ∈ sources resp -> exists c, c ∈ candidates /\ url c = Some u.
Proof.
  intros Hchat.
  apply chat_inv in Hchat
    as (candidates & reranked & tr1 & tr2 & Hretrieve & Hrerank & _ & -> & _).
  exists candidates, tr1. split; [done|].
  assert (Z.of_nat (length reranked) <= 6)%Z as Hlen.
  { by eapply rerank_locally_length; [|done]. }
  rewrite slice_to_all by done. split.
  - pose proof (collect_sources_length reranked). lia.
  - intros u Hu. apply collect_sources_elem_of in Hu as (_ & r & Hr & Hurl).
    destruct (rerank_locally_elem_of _ _ _ _ _ _ _ Hrerank Hr) as (d & s & Hd & ->).
    by exists d.
Qed.

Lemma chat_sources_provenance_witness :
  exists tr' resp candidates tr1,
    @chat Demo.globals Demo.request [] = (Ok resp, tr') /\
    sources resp =
      ["https://docs.example/refund"; "data/raw/account.md"; "data/raw/shipping.md"] /\
    @hybrid_retrieve Demo.globals (req_query Demo.request) (req_k Demo.request) [] =
      (Ok candidates, tr1) /\
    length (sources resp) <= 6 /\
    forall u, u ∈ sources resp -> exists c, c ∈ candidates /\ url c = Some u.
Proof.
  assert (exists tr' resp,
    @chat Demo.globals Demo.request [] = (Ok resp, tr') /\
    sources resp =
      ["https://docs.example/refund"; "data/raw/account.md"; "data/raw/shipping.md"])
    as (tr' & resp & Hchat & Hsources).
  { eexists _, _. split; vm_compute; reflexivity. }
  destruct (@chat_sources_provenance Demo.globals Demo.request [] tr' resp Hchat)
    as (candidates & tr1 & Hrest).
  exists tr', resp, candidates, tr1. split; [exact Hchat|]. split; [exact Hsources|].
  exact Hrest.
Defined.

(** ** The prompt *)

Lemma or_empty_default (o : option string) :
  default EmptyString (Py.or_ o (Some EmptyString)) = default EmptyString o.
Proof. by destruct o as [[|c s]|]. Qed.

Lemma build_prompt_unfold (contexts : list Candidate) (query : string) :
  build_prompt contexts query =
    instructions +:+ Py.nl +:+ Py.nl +:+ "Context:" +:+ Py.nl +:+
    Py.join (Py.nl +:+ Py.nl)
      ((fun c => "Title: " +:+ default EmptyString (title c) +:+ Py.nl +:+
                 "URL: " +:+ default EmptyString (url c) +:+ Py.nl +:+
                 "Snippet: " +:+ text c) <$> contexts) +:+
    Py.nl +:+ Py.nl +:+ "Question: " +:+ query +:+ Py.nl +:+ "Answer:".
Proof.
  unfold build_prompt.
  rewrite (fold_left_append
             (fun c => "Title: " +:+ default EmptyString (Py.or_ (title c) (Some EmptyString))
                       +:+ Py.nl +:+
                       "URL: " +:+ default EmptyString (Py.or_ (url c) (Some EmptyString))
                       +:+ Py.nl +:+
                       "Snippet: " +:+
                       default EmptyString (Py.or_ (Some (text c)) (Some EmptyString)))
             contexts []).
  simpl app. do 7 f_equal. apply list_fmap_ext. intros _ c _.
  rewrite !or_empty_default. done.
Qed.

(** X14. The prompt depends on the contexts only through their text,
    their title and their url, a missing title or url being rendered
    like an empty one: two context lists that agree on these give the
    same prompt, so neither the retrieval score, nor the rerank score,
    nor the source tag of a context ever reaches the chat model. *)
Theorem build_prompt_reads_text_title_url (contexts contexts' : list Candidate)
    (query : string) :
  Forall2 (fun c c' =>
             text c = text c' /\
             default EmptyString (title c) = default EmptyString (title c') /\
             default EmptyString (url c) = default EmptyString (url c'))
    contexts contexts' ->
  build_prompt contexts query = build_prompt contexts' query.
Proof.
  intros Hall. rewrite !build_prompt_unfold. do 7 f_equal.
  induction Hall as [|c c' l l' (Htext & Htitle & Hurl) _ IH]; [done|].
  rewrite !fmap_cons. rewrite IH, Htext, Htitle, Hurl. done.
Qed.

Lemma build_prompt_reads_text_title_url_witness :
  Forall2 (fun c c' =>
             text c = text c' /\
             default EmptyString (title c) = default EmptyString (title c') /\
             default EmptyString (url c) = default EmptyString (url c'))
    [mkCandidate "returns" None (Some "") (1 # 2) src_vector None]
    [mkCandidate "returns" (Some "") None 3 src_bm25 (Some (inject_Z 7))] /\
  build_prompt [mkCandidate "returns" None (Some "") (1 # 2) src_vector None] "refund?" =
  build_prompt [mkCandidate "returns" (Some "") None 3 src_bm25 (Some (inject_Z 7))] "refund?".
Proof.
  assert (Forall2 (fun c c' =>
             text c = text c' /\
             default EmptyString (title c) = default EmptyString (title c') /\
             default EmptyString (url c) = default EmptyString (url c'))
    [mkCandidate "returns" None (Some "") (1 # 2) src_vector None]
    [mkCandidate "returns" (Some "") None 3 src_bm25 (Some (inject_Z 7))]) as Hall.
  { repeat constructor. }
  split; [exact Hall|].
  exact (build_prompt_reads_text_title_url _ _ "refund?" Hall).
Defined.

(** ** The in-place write when an object occurs more than once *)

Lemma set_rerank_score_twice (c : Candidate) (s s' : Q) :
  set_rerank_score (set_rerank_score c s) s' = set_rerank_score c s'.
Proof. done. Qed.

Lemma write_scores_fold_last (store : gmap nat Candidate) (ranked : list (nat * Q))
    (acc : list nat) (i d : nat) (s : Q) :
  ranked !! i = Some (d, s) ->
  (forall j s', i < j -> ranked !! j <> Some (d, s')) ->
  (fold_left
     (fun '(store, result) '(d, s) =>
        (alter (fun c => set_rerank_score c s) d store, result ++ [d]))
     ranked (store, acc)).1 !! d = (fun c => set_rerank_score c s) <$> store !! d.
Proof.
  revert store acc i.
  induction ranked as [|[d0 s0] ranked IH]; intros store acc i Hi Hlast; [done|].
  cbn [fold_left]. destruct i as [|i].
  - injection Hi as -> ->.
    destruct (write_scores_fold (alter (fun c => set_rerank_score c s) d store) ranked
                (acc ++ [d])) as (store1 & -> & Hother & _).
    simpl. rewrite Hother; [apply lookup_alter_eq|].
    intros Hin. apply list_elem_of_fmap in Hin as ([d' s'] & Hd' & Hin).
    simpl in Hd'. subst d'. apply list_elem_of_lookup in Hin as [j Hj].
    by apply (Hlast (S j) s'); [lia|].
  - rewrite (IH (alter (fun c => set_rerank_score c s0) d0 store) (acc ++ [d0]) i).
    + destruct (decide (d0 = d)) as [->|Hne].
      * rewrite lookup_alter_eq. destruct (store !! d); [|done]. simpl.
        by rewrite set_rerank_score_twice.
      * by rewrite lookup_alter_ne.
    + exact Hi.
    + intros j s' Hj. apply (Hlast (S j) s'). lia.
Qed.

(** X15. The loop of [rerank_locally] writes through the references it
    is given: it returns the references of the ranking in order, leaves
    the objects outside the ranking untouched, and an object that occurs
    in the ranking carries afterwards the score paired with its last
    occurrence, whatever scores were written for earlier occurrences. *)
Theorem write_scores_last_wins (store : gmap nat Candidate) (ranked : list (nat * Q)) :
  (write_scores store ranked).2 = ranked.*1 /\
  (forall d, d ∉ ranked.*1 -> (write_scores store ranked).1 !! d = store !! d) /\
  (forall i d s,
     ranked !! i = Some (d, s) ->
     (forall j s', i < j -> ranked !! j <> Some (d, s')) ->
     (write_scores store ranked).1 !! d = (fun c => set_rerank_score c s) <$> store !! d).
Proof.
  split; [|split].
  - unfold write_scores.
    by destruct (write_scores_fold store ranked []) as (store' & -> & _).
  - unfold write_scores.
    by destruct (write_scores_fold store ranked []) as (store' & -> & Hother & _).
  - intros i d s Hi Hlast. by apply (write_scores_fold_last store ranked [] i).
Qed.

Lemma write_scores_last_wins_witness :
  let store : gmap nat Candidate :=
    {[ 0 := Demo.twin_a; 1 := Demo.cand "refunds" None (1 # 4) src_vector ]} in
  let ranked := [(0, inject_Z 3); (1, inject_Z 2); (0, inject_Z 1)] in
  ranked !! 2 = Some (0, inject_Z 1) /\
  (forall j s', 2 < j -> ranked !! j <> Some (0, s')) /\
  (write_scores store ranked).2 = [0; 1; 0] /\
  (write_scores store ranked).1 !! 0 =
    (fun c => set_rerank_score c (inject_Z 1)) <$> store !! 0.
Proof.
  intros store ranked.
  assert (forall j s', 2 < j -> ranked !! j <> Some (0, s')) as Hlast.
  { intros [|[|[|j]]] s' Hj; [lia..|]. simpl. done. }
  split; [reflexivity|]. split; [exact Hlast|]. split.
  - exact (proj1 (write_scores_last_wins store ranked)).
  - exact (proj2 (proj2 (write_scores_last_wins store ranked)) 2 0 (inject_Z 1)
             eq_refl Hlast).
Defined.

(** * Properties of [indexer/build_index.py] *)

(** ** One chunk, two indexes *)

(** X16. A chunk is uploaded to the vector store and written to the
    corpus file.  When its [url] is non-empty, or when it has no
    non-empty [source], the candidate that [vector_search] builds from
    its payload and the candidate that [bm25_search] builds from its
    corpus line have the same text, title and url, hence the same
    de-duplication key, and fusion keeps one entry for the chunk, the
    vector one. *)
Theorem indexed_chunk_same_key (c : Chunk) (s s' : Q) (k : Z) :
  Py.truthy (cm_url (chunk_metadata c)) = true \/
  Py.truthy (cm_source (chunk_metadata c)) = false ->
  text (hit_to_candidate (mkHit (Some (payload_of_chunk c)) s)) =
    text (doc_to_candidate (doc_of_chunk c) s') /\
  title (hit_to_candidate (mkHit (Some (payload_of_chunk c)) s)) =
    title (doc_to_candidate (doc_of_chunk c) s') /\
  url (hit_to_candidate (mkHit (Some (payload_of_chunk c)) s)) =
    url (doc_to_candidate (doc_of_chunk c) s') /\
  dedup_key (hit_to_candidate (mkHit (Some (payload_of_chunk c)) s)) =
    dedup_key (doc_to_candidate (doc_of_chunk c) s') /\
  merge [hit_to_candidate (mkHit (Some (payload_of_chunk c)) s)]
        [doc_to_candidate (doc_of_chunk c) s'] k =
    [hit_to_candidate (mkHit (Some (payload_of_chunk c)) s)].
Proof.
  intros Hurl.
  assert (url (hit_to_candidate (mkHit (Some (payload_of_chunk c)) s)) =
          url (doc_to_candidate (doc_of_chunk c) s')) as Heq.
  { unfold hit_to_candidate, doc_to_candidate, payload_of_chunk, doc_of_chunk, Py.or_.
    simpl. destruct (Py.truthy (cm_url (chunk_metadata c))) eqn:Hu.
    - by rewrite Hu.
    - destruct Hurl as [?|Hs]; [done|]. by rewrite Hs. }
  assert (dedup_key (hit_to_candidate (mkHit (Some (payload_of_chunk c)) s)) =
          dedup_key (doc_to_candidate (doc_of_chunk c) s')) as Hkey.
  { unfold dedup_key. by rewrite Heq. }
  split; [done|]. split; [done|]. split; [done|]. split; [done|].
  rewrite merge_unfold. cbn [app first_occurrences].
  destruct (decide (_ ∈ [])) as [Hin|_]; [by apply elem_of_nil in Hin|].
  destruct (decide (_ ∈ [_])) as [_|Hnin].
  - apply take_ge. simpl. lia.
  - exfalso. apply Hnin. rewrite Hkey. by left.
Qed.

Lemma indexed_chunk_same_key_witness :
  let c := mkChunk "refund policy"
             (mkChunkMeta None None (Some "data/raw/refund.md") (Some "Refunds") 0) in
  (Py.truthy (cm_url (chunk_metadata c)) = true \/
   Py.truthy (cm_source (chunk_metadata c)) = false) /\
  url (doc_to_candidate (doc_of_chunk c) 2) = Some "data/raw/refund.md" /\
  merge [hit_to_candidate (mkHit (Some (payload_of_chunk c)) (9 # 10))]
        [doc_to_candidate (doc_of_chunk c) 2] 8 =
    [hit_to_candidate (mkHit (Some (payload_of_chunk c)) (9 # 10))].
Proof.
  intros c.
  assert (Py.truthy (cm_url (chunk_metadata c)) = true \/
          Py.truthy (cm_source (chunk_metadata c)) = false) as Hurl by (right; reflexivity).
  split; [exact Hurl|]. split; [reflexivity|].
  exact (proj2 (proj2 (proj2 (proj2 (indexed_chunk_same_key c (9 # 10) 2 8 Hurl))))).
Defined.

(** X17. The payload url falls back on [source] before [source_path],
    the corpus url on [source_path] only.  For a chunk without a
    non-empty [url], with a non-empty [source] that differs from its
    [source_path], the two candidates of the chunk carry different urls
    and fusion keeps both: the chunk reaches the reranker twice. *)
Theorem indexed_chunk_source_splits_key (c : Chunk) (s s' : Q) (k : Z) :
  Py.truthy (cm_url (chunk_metadata c)) = false ->
  Py.truthy (cm_source (chunk_metadata c)) = true ->
  cm_source (chunk_metadata c) <> cm_source_path (chunk_metadata c) ->
  url (hit_to_candidate (mkHit (Some (payload_of_chunk c)) s)) =
    cm_source (chunk_metadata c) /\
  url (doc_to_candidate (doc_of_chunk c) s') = cm_source_path (chunk_metadata c) /\
  merge [hit_to_candidate (mkHit (Some (payload_of_chunk c)) s)]
        [doc_to_candidate (doc_of_chunk c) s'] k =
    [hit_to_candidate (mkHit (Some (payload_of_chunk c)) s);
     doc_to_candidate (doc_of_chunk c) s'].
Proof.
  intros Hurl Hsource Hne.
  assert (url (hit_to_candidate (mkHit (Some (payload_of_chunk c)) s)) =
          cm_source (chunk_metadata c)) as Hv.
  { unfold hit_to_candidate, payload_of_chunk, Py.or_. simpl. by rewrite Hurl, Hsource. }
  assert (url (doc_to_candidate (doc_of_chunk c) s') = cm_source_path (chunk_metadata c))
    as Hl.
  { unfold doc_to_candidate, doc_of_chunk, Py.or_. simpl. by rewrite Hurl. }
  split; [done|]. split; [done|].
  rewrite merge_unfold. cbn [app first_occurrences].
  destruct (decide (_ ∈ [])) as [Hin|_]; [by apply elem_of_nil in Hin|].
  destruct (decide (_ ∈ [_])) as [Hin|_].
  - exfalso. apply elem_of_cons in Hin as [Hkey|Hin]; [|by apply elem_of_nil in Hin].
    apply (f_equal snd) in Hkey. unfold dedup_key in Hkey. cbn [snd] in Hkey. congruence.
  - apply take_ge. simpl. lia.
Qed.

Lemma indexed_chunk_source_splits_key_witness :
  let c := mkChunk "refund policy"
             (mkChunkMeta None (Some "https://docs.example/refund")
                (Some "data/raw/refund.md") None 0) in
  Py.truthy (cm_url (chunk_metadata c)) = false /\
  Py.truthy (cm_source (chunk_metadata c)) = true /\
  cm_source (chunk_metadata c) <> cm_source_path (chunk_metadata c) /\
  merge [hit_to_candidate (mkHit (Some (payload_of_chunk c)) (9 # 10))]
        [doc_to_candidate (doc_of_chunk c) 2] 8 =
    [hit_to_candidate (mkHit (Some (payload_of_chunk c)) (9 # 10));
     doc_to_candidate (doc_of_chunk c) 2].
Proof.
  intros c. split; [reflexivity|]. split; [reflexivity|]. split; [discriminate|].
  exact (proj2 (proj2 (indexed_chunk_source_splits_key c (9 # 10) 2 8
                         eq_refl eq_refl ltac:(discriminate)))).
Defined.

(** ** Cutting a list into consecutive windows *)

Section Windows.
Context {A : Type}.
Implicit Types (l : list A) (j sz m : nat).

Lemma slice_window l j sz :
  PyMore.slice (Z.of_nat j * Z.of_nat sz) (Z.of_nat j * Z.of_nat sz + Z.of_nat sz) l =
    take sz (drop (j * sz) l).
Proof.
  unfold PyMore.slice.
  destruct (Z.of_nat j * Z.of_nat sz <? 0)%Z eqn:Ha; [apply Z.ltb_lt in Ha; lia|].
  destruct (Z.of_nat j * Z.of_nat sz + Z.of_nat sz <? 0)%Z eqn:Hb;
    [apply Z.ltb_lt in Hb; lia|].
  destruct (decide (j * sz <= length l)) as [Hle|Hgt].
  - replace (Z.to_nat (Z.min (Z.of_nat j * Z.of_nat sz) (Z.of_nat (length l))))
      with (j * sz) by lia.
    destruct (decide (j * sz + sz <= length l)) as [Hle'|Hgt'].
    + f_equal. lia.
    + rewrite !take_ge; [done|rewrite length_drop; lia|rewrite length_drop; lia].
  - replace (Z.to_nat (Z.min (Z.of_nat j * Z.of_nat sz) (Z.of_nat (length l))))
      with (length l) by lia.
    rewrite !drop_ge by lia. by rewrite !take_nil.
Qed.

Lemma windows_concat sz l m :
  length l <= m * sz ->
  concat ((fun j => take sz (drop (j * sz) l)) <$> seq 0 m) = l.
Proof.
  revert l. induction m as [|m IH]; intros l Hlen.
  - simpl in *. destruct l; [done|simpl in Hlen; lia].
  - cbn [seq]. rewrite fmap_cons, <- fmap_S_seq, <- list_fmap_compose. cbn [concat].
    rewrite drop_0.
    rewrite (list_fmap_ext _ (fun j => take sz (drop (j * sz) (drop sz l)))).
    + rewrite IH; [apply take_drop|]. rewrite length_drop. lia.
    + intros _ j _. simpl. rewrite drop_drop. do 2 f_equal; lia.
Qed.

Lemma windows_length sz l j :
  length (take sz (drop (j * sz) l)) = sz `min` (length l - j * sz).
Proof. by rewrite length_take, length_drop. Qed.

End Windows.

Lemma ceil_div_bounds (n sz : Z) :
  (0 <= n)%Z -> (1 <= sz)%Z ->
  (n <= (n + sz - 1) / sz * sz)%Z /\ (((n + sz - 1) / sz - 1) * sz < n \/ n = 0)%Z /\
  (0 <= (n + sz - 1) / sz)%Z.
Proof.
  intros Hn Hsz.
  pose proof (Z.div_mod (n + sz - 1) sz ltac:(lia)) as Hdm.
  pose proof (Z.mod_pos_bound (n + sz - 1) sz ltac:(lia)) as Hmod.
  assert (0 <= (n + sz - 1) / sz)%Z by (apply Z.div_pos; lia).
  split; [nia|]. split; [|done].
  destruct (decide (n = 0)%Z); [by right|left; nia].
Qed.

(** The windows [l[i:i+size]] for [i] in [range(0, len(l), size)], for a
    positive [size]: they are consecutive, non-empty, of [size] items
    each but possibly the last, and [ceil(len(l) / size)] in number. *)
Lemma range_windows {A : Type} (l : list A) (size : Z) :
  (1 <= size)%Z ->
  exists starts windows,
    PyMore.range_step (length l) size = Some starts /\
    (fun i => PyMore.slice i (i + size) l) <$> starts = windows /\
    concat windows = l /\
    Forall (fun w => 1 <= length w /\ (Z.of_nat (length w) <= size)%Z) windows /\
    Z.of_nat (length windows) = ((Z.of_nat (length l) + size - 1) / size)%Z /\
    (forall i w, S i < length windows -> windows !! i = Some w ->
                 Z.of_nat (length w) = size).
Proof.
  intros Hsize.
  destruct (ceil_div_bounds (Z.of_nat (length l)) size ltac:(lia) Hsize)
    as (Hup & Hlow & Hm).
  set (c := ((Z.of_nat (length l) + size - 1) / size)%Z) in *.
  set (m := Z.to_nat c).
  set (sz := Z.to_nat size).
  assert (size = Z.of_nat sz) as Hsz by lia.
  assert (c = Z.of_nat m) as Hc by lia.
  assert (forall j, j < m -> j * sz < length l) as Hstart.
  { intros j Hj. apply Nat2Z.inj_lt. rewrite Nat2Z.inj_mul, <- Hsz.
    destruct Hlow as [Hlow|Hzero]; [nia|].
    exfalso. subst c. rewrite Hzero, Z.div_small in Hc by lia. lia. }
  assert (forall j, S j < m -> j * sz + sz < length l) as Hfull.
  { intros j Hj. specialize (Hstart (S j) Hj). simpl in Hstart. lia. }
  exists ((fun j => Z.of_nat j * size)%Z <$> seq 0 m),
         ((fun j => take sz (drop (j * sz) l)) <$> seq 0 m).
  split; [|split; [|split; [|split; [|split]]]].
  - unfold PyMore.range_step.
    destruct (size =? 0)%Z eqn:H0; [apply Z.eqb_eq in H0; lia|].
    destruct (size <? 0)%Z eqn:Hneg; [apply Z.ltb_lt in Hneg; lia|]. done.
  - rewrite <- list_fmap_compose. apply list_fmap_ext. intros _ j _. simpl.
    rewrite Hsz. apply slice_window.
  - apply windows_concat. apply Nat2Z.inj_le. rewrite Nat2Z.inj_mul, <- Hsz, <- Hc.
    exact Hup.
  - apply Forall_fmap, Forall_forall. intros j Hj. simpl.
    apply elem_of_seq in Hj. rewrite windows_length.
    specialize (Hstart j ltac:(lia)). lia.
  - rewrite length_fmap, length_seq. lia.
  - intros i w Hi Hw. rewrite length_fmap, length_seq in Hi.
    rewrite list_lookup_fmap, lookup_seq_lt in Hw by lia. simpl in Hw.
    injection Hw as <-. rewrite windows_length.
    specialize (Hfull i Hi). lia.
Qed.

Lemma fold_left_extend {A B : Type} (f : A -> list B) (l : list A) (acc : list B) :
  fold_left (fun acc x => acc ++ f x) l acc = acc ++ concat (f <$> l).
Proof.
  revert acc. induction l as [|x l IH]; intros acc; simpl.
  - by rewrite app_nil_r.
  - rewrite IH. by rewrite <- app_assoc.
Qed.

(** X18. For a batch size of at least one, the embedding loop of [main]
    hands every text to [embed_texts] exactly once and in order: the
    batches are consecutive, non-empty and of at most [batch_size]
    texts, and the vectors are the results for the batches one after the
    other; when [embed_texts] returns one vector per text, there is one
    vector per chunk, so that vectors, payloads and ids line up. *)
Theorem embed_in_batches_covers {V : Type} (embed_texts : list string -> list V)
    (texts : list string) (batch_size : Z) :
  (1 <= batch_size)%Z ->
  exists batches,
    embed_in_batches embed_texts texts batch_size =
      Some (concat (embed_texts <$> batches)) /\
    concat batches = texts /\
    Forall (fun b => 1 <= length b /\ (Z.of_nat (length b) <= batch_size)%Z) batches /\
    ((forall b, length (embed_texts b) = length b) ->
     length (concat (embed_texts <$> batches)) = length texts).
Proof.
  intros Hsize.
  destruct (range_windows texts batch_size Hsize)
    as (starts & batches & Hrange & Hbatches & Hconcat & Hsizes & _).
  exists batches. split; [|split; [done|split; [done|]]].
  - unfold embed_in_batches. rewrite Hrange.
    rewrite (fold_left_extend
               (fun i => embed_texts (PyMore.slice i (i + batch_size) texts)) starts []).
    simpl. do 2 f_equal. rewrite <- Hbatches, <- list_fmap_compose. done.
  - intros Hone. rewrite <- Hconcat. clear -Hone.
    induction batches as [|b batches IH]; [done|].
    rewrite fmap_cons. cbn [concat]. rewrite !length_app, IH. by rewrite Hone.
Qed.

Lemma embed_in_batches_covers_witness :
  (1 <= 2)%Z /\
  embed_in_batches (map String.length) ["a"; "bb"; "ccc"; "dddd"; "eeeee"] 2 =
    Some [1; 2; 3; 4; 5] /\
  exists batches,
    embed_in_batches (map String.length) ["a"; "bb"; "ccc"; "dddd"; "eeeee"] 2 =
      Some (concat (map String.length <$> batches)) /\
    concat batches = ["a"; "bb"; "ccc"; "dddd"; "eeeee"] /\
    Forall (fun b => 1 <= length b /\ (Z.of_nat (length b) <= 2)%Z) batches /\
    ((forall b : list string, length (map String.length b) = length b) ->
     length (concat (map String.length <$> batches)) =
       length ["a"; "bb"; "ccc"; "dddd"; "eeeee"]).
Proof.
  split; [lia|]. split; [reflexivity|].
  apply (embed_in_batches_covers (map String.length)). lia.
Defined.

(** * Properties of [crawler/chunk_docs.py] *)

(** ** Words: [split] and [join] *)

Lemma str_app_cons (c : ascii) (s1 s2 : string) :
  String c s1 +:+ s2 = String c (s1 +:+ s2).
Proof. reflexivity. Qed.

Lemma str_app_nil_l (s : string) : EmptyString +:+ s = s.
Proof. reflexivity. Qed.

Lemma str_app_assoc (s1 s2 s3 : string) : (s1 +:+ s2) +:+ s3 = s1 +:+ (s2 +:+ s3).
Proof.
  induction s1 as [|c s1 IH]; [done|]. by rewrite !str_app_cons, IH.
Qed.

Lemma str_app_nil_r (s : string) : s +:+ EmptyString = s.
Proof. induction s as [|c s IH]; [done|]. by rewrite str_app_cons, IH. Qed.

Lemma chars_app (s1 s2 : string) : chars (s1 +:+ s2) = chars s1 ++ chars s2.
Proof.
  induction s1 as [|c s1 IH]; [done|].
  rewrite str_app_cons. unfold chars in *. simpl. by rewrite IH.
Qed.

Lemma split_from_nospace (cur : option string) (w s : string) :
  Forall (fun c => Py.isspace c = false) (chars w) ->
  Py.split_from cur (w +:+ s) =
    Py.split_from
      (match w with
       | EmptyString => cur
       | _ => Some (default EmptyString cur +:+ w)
       end) s.
Proof.
  revert cur. induction w as [|c w IH]; intros cur Hw; [done|].
  unfold chars in Hw. simpl in Hw. apply Forall_cons in Hw as [Hc Hw].
  rewrite str_app_cons. cbn [Py.split_from]. rewrite Hc, IH by done.
  destruct w as [|c' w]; [done|]. cbn [default]. unfold id. by rewrite str_app_assoc.
Qed.

Lemma split_from_words (cur : option string) (s : string) :
  (forall u, cur = Some u -> word u) ->
  Forall word (Py.split_from cur s).
Proof.
  revert cur. induction s as [|c s IH]; intros cur Hcur; cbn [Py.split_from].
  - destruct cur as [u|]; [|constructor]. constructor; [by apply Hcur|constructor].
  - destruct (Py.isspace c) eqn:Hc.
    + destruct cur as [u|].
      * constructor; [by apply Hcur|]. by apply IH.
      * by apply IH.
    + apply IH. intros u [= <-]. split.
      * destruct (default EmptyString cur) as [|c' u]; [by rewrite str_app_nil_l|].
        by rewrite str_app_cons.
      * rewrite chars_app. apply Forall_app. split.
        -- destruct cur as [u|]; [|constructor]. by destruct (Hcur u).
        -- by repeat constructor.
Qed.

(** The tokens of [s.split()] are words. *)
Lemma split_words (s : string) : Forall word (Py.split s).
Proof. apply split_from_words. done. Qed.

(** Joining words with single spaces and splitting again gives the
    words back. *)
Lemma split_join_words (ws : list string) :
  Forall word ws -> Py.split (Py.join " " ws) = ws.
Proof.
  unfold Py.split. induction 1 as [|w ws [Hne Hw] Hws IH]; [done|].
  destruct ws as [|w' ws].
  - cbn [Py.join]. rewrite <- (str_app_nil_r w) at 1. rewrite split_from_nospace by done.
    by destruct w.
  - cbn [Py.join]. rewrite split_from_nospace by done.
    destruct w as [|c w]; [done|].
    transitivity (String c w :: Py.split_from None (Py.join " " (w' :: ws)));
      [reflexivity|]. f_equal. exact IH.
Qed.

Lemma join_split_windows (windows : list (list string)) :
  Forall (Forall word) windows ->
  Py.split <$> (Py.join " " <$> windows) = windows.
Proof.
  induction 1 as [|w windows Hw _ IH]; [done|].
  rewrite !fmap_cons, IH. by rewrite split_join_words.
Qed.

(** X19. For a size of at least one, [chunk_text] loses, repeats and
    reorders no word: the words of the chunks, one chunk after the
    other, are the words of the text.  Every chunk is its words joined
    by single spaces, holds between one and [size] words, exactly [size]
    but possibly for the last chunk, and the chunks are
    [ceil(words / size)] in number, so none for a text without word. *)
Theorem chunk_text_covers (text : string) (size : Z) :
  (1 <= size)%Z ->
  exists chunks,
    chunk_text text size = Some chunks /\
    concat (Py.split <$> chunks) = Py.split text /\
    Forall (fun c => Py.join " " (Py.split c) = c /\
                     1 <= length (Py.split c) /\
                     (Z.of_nat (length (Py.split c)) <= size)%Z) chunks /\
    Z.of_nat (length chunks) = ((Z.of_nat (length (Py.split text)) + size - 1) / size)%Z /\
    (forall i c, S i < length chunks -> chunks !! i = Some c ->
                 Z.of_nat (length (Py.split c)) = size).
Proof.
  intros Hsize.
  destruct (range_windows (Py.split text) size Hsize)
    as (starts & windows & Hrange & Hwindows & Hconcat & Hsizes & Hcount & Hfull).
  assert (Forall (Forall word) windows) as Hwords.
  { apply Forall_concat. rewrite Hconcat. apply split_words. }
  exists (Py.join " " <$> windows). split; [|split; [|split; [|split]]].
  - unfold chunk_text. rewrite Hrange.
    rewrite (fold_left_append
               (fun i => Py.join " " (PyMore.slice i (i + size) (Py.split text))) starts []).
    simpl. f_equal. rewrite <- Hwindows, <- list_fmap_compose. done.
  - by rewrite join_split_windows.
  - apply Forall_fmap, Forall_forall. intros w Hw. simpl.
    rewrite Forall_forall in Hwords, Hsizes.
    rewrite split_join_words by by apply Hwords.
    split; [done|]. by apply Hsizes.
  - by rewrite length_fmap.
  - intros i c Hi Hc. rewrite length_fmap in Hi. rewrite list_lookup_fmap in Hc.
    destruct (windows !! i) as [w|] eqn:Hw; [|done]. injection Hc as <-.
    rewrite Forall_forall in Hwords.
    rewrite split_join_words by (apply Hwords; by eapply list_elem_of_lookup_2).
    by apply (Hfull i).
Qed.

Lemma chunk_text_covers_witness :
  (1 <= 2)%Z /\
  chunk_text "  keep  every word of the   text " 2 =
    Some ["keep every"; "word of"; "the text"] /\
  exists chunks,
    chunk_text "  keep  every word of the   text " 2 = Some chunks /\
    concat (Py.split <$> chunks) = Py.split "  keep  every word of the   text " /\
    Forall (fun c => Py.join " " (Py.split c) = c /\
                     1 <= length (Py.split c) /\
                     (Z.of_nat (length (Py.split c)) <= 2)%Z) chunks /\
    Z.of_nat (length chunks) =
      ((Z.of_nat (length (Py.split "  keep  every word of the   text ")) + 2 - 1) / 2)%Z /\
    (forall i c, S i < length chunks -> chunks !! i = Some c ->
                 Z.of_nat (length (Py.split c)) = 2%Z).
Proof.
  split; [lia|]. split; [reflexivity|].
  apply (chunk_text_covers "  keep  every word of the   text " 2). lia.
Defined.

(** X20. [chunk_text] fails on a size of zero, where [range] raises, and
    on a negative size it returns no chunk at all, whatever the text:
    the text is dropped without any error. *)
Theorem chunk_text_degenerate_size (text : string) (size : Z) :
  (size <= 0)%Z ->
  chunk_text text size = if (size =? 0)%Z then None else Some [].
Proof.
  intros Hsize. unfold chunk_text, PyMore.range_step.
  destruct (size =? 0)%Z eqn:H0; [done|].
  apply Z.eqb_neq in H0.
  destruct (size <? 0)%Z eqn:Hneg; [done|]. apply Z.ltb_ge in Hneg. lia.
Qed.

Lemma chunk_text_degenerate_size_witness :
  (-300 <= 0)%Z /\
  chunk_text "some words here" (-300) = (if (-300 =? 0)%Z then None else Some []).
Proof.
  split; [lia|]. apply (chunk_text_degenerate_size "some words here" (-300)). lia.
Defined.

(** * Properties of [crawler/crawl4ai.py] *)

(** ** The urls to crawl *)

Lemma uniq_loop_take (limit : Z) (seen : gset string) (uniq urls : list string) :
  (forall u, u ∈ seen <-> u ∈ uniq) ->
  length uniq < Z.to_nat (Z.max limit 1) ->
  uniq_loop limit seen uniq urls =
    take (Z.to_nat (Z.max limit 1)) (uniq ++ first_occurrences id uniq urls).
Proof.
  revert seen uniq. induction urls as [|u urls IH]; intros seen uniq Hseen Hlen.
  - simpl. rewrite app_nil_r. symmetry. apply take_ge. lia.
  - cbn [uniq_loop first_occurrences]. unfold id at 1 2.
    destruct (decide (u ∈ seen)) as [Hin|Hnin];
      destruct (decide (u ∈ uniq)) as [Hin'|Hnin'];
      try (exfalso; by (apply Hnin', Hseen || apply Hnin, Hseen)).
    + destruct (limit <=? Z.of_nat (length uniq))%Z eqn:Hstop.
      * apply Z.leb_le in Hstop. destruct uniq; [by apply elem_of_nil in Hin'|].
        simpl in *. lia.
      * by apply IH.
    + destruct (limit <=? Z.of_nat (length (uniq ++ [u])))%Z eqn:Hstop.
      * apply Z.leb_le in Hstop. rewrite length_app in Hstop. simpl in Hstop.
        transitivity (take (Z.to_nat (Z.max limit 1))
                        ((uniq ++ [u]) ++ first_occurrences id (u :: uniq) urls)).
        -- symmetry. apply take_app_length'. rewrite length_app. simpl. lia.
        -- by rewrite <- app_assoc.
      * apply Z.leb_gt in Hstop. rewrite length_app in Hstop. simpl in Hstop.
        rewrite (IH ({[u]} ∪ seen) (uniq ++ [u])).
        -- rewrite <- app_assoc. simpl. do 3 f_equal.
           apply first_occurrences_ext. intros v.
           rewrite elem_of_app, !elem_of_cons, elem_of_nil. unfold id. tauto.
        -- intros v. rewrite elem_of_union, elem_of_singleton, elem_of_app,
             list_elem_of_singleton, Hseen. tauto.
        -- rewrite length_app. simpl. lia.
Qed.

(** X21. [fetch_sitemap_urls] returns the distinct urls in the order of
    their first occurrence, cut at [max(limit, 1)] entries: no url
    twice, and never an empty list, since the test of the limit comes
    after the first url is taken (a limit of zero or less still gives
    one url) and the seed stands in when no sitemap url was found. *)
Theorem fetch_sitemap_urls_distinct_clamped (found : list string) (seed : string)
    (limit : Z) :
  fetch_sitemap_urls found seed limit =
    take (Z.to_nat (Z.max limit 1))
      (first_occurrences id [] (match found with [] => [seed] | _ => found end)) /\
  NoDup (fetch_sitemap_urls found seed limit) /\
  fetch_sitemap_urls found seed limit <> [] /\
  (found = [] -> fetch_sitemap_urls found seed limit = [seed]).
Proof.
  assert (fetch_sitemap_urls found seed limit =
    take (Z.to_nat (Z.max limit 1))
      (first_occurrences id [] (match found with [] => [seed] | _ => found end))) as Heq.
  { unfold fetch_sitemap_urls. rewrite uniq_loop_take; [done| |simpl; lia].
    intros u. split; [by intros ?%elem_of_empty|by intros ?%elem_of_nil]. }
  split; [exact Heq|]. split; [|split].
  - rewrite Heq. eapply sublist_NoDup; [|apply sublist_take].
    pose proof (first_occurrences_NoDup (@id string) []
                  (match found with [] => [seed] | _ => found end)) as Hnd.
    by rewrite list_fmap_id in Hnd.
  - rewrite Heq. destruct found as [|u found]; simpl.
    + destruct (Z.to_nat (Z.max limit 1)) eqn:Hn; [lia|done].
    + destruct (Z.to_nat (Z.max limit 1)) eqn:Hn; [lia|done].
  - intros ->. rewrite Heq. simpl.
    destruct (Z.to_nat (Z.max limit 1)) eqn:Hn; [lia|]. simpl. by rewrite take_nil.
Qed.

(** ** Writing the pages *)

Lemma replace_slash (s : string) :
  Forall (fun c => c <> "/"%char) (chars (PyMore.replace "/" "_" s)).
Proof.
  unfold PyMore.replace. induction s as [|c s IH]; [constructor|].
  cbn [PyMore.replace_from]. change (String.length "/" - 1) with 0.
  destruct (String.prefix "/" (String c s)) eqn:Hprefix.
  - rewrite str_app_cons, str_app_nil_l. unfold chars in *. simpl.
    constructor; [done|exact IH].
  - unfold chars in *. simpl. constructor; [|exact IH].
    intros ->. simpl in Hprefix. by destruct s.
Qed.

(** X22. The file name derived from a url holds no [/]: whatever the
    url, the page is written directly inside [data/raw], never in a
    sub-directory or outside of it. *)
Theorem slug_of_no_slash (url : string) :
  Forall (fun c => c <> "/"%char) (chars (slug_of url)).
Proof. apply replace_slash. Qed.

Section PersistPages.
Context {E : Type}.
Variable json_dumps : string -> string -> string.
Variable open_w : string -> option E.



End PersistPages.


(** ** Cleaning a text *)

Section CleanText.
Let NL : ascii := ascii_of_nat 10.
Let keep (line : string) : bool := (20 <? String.length line) && negb (boilerplate line).
Let noNL (line : string) : Prop := Forall (fun c => c <> NL) (chars line).

Lemma fold_left_filter {B : Type} (p : B -> bool) (f : string -> B)
    (l : list string) (acc : list B) :
  fold_left (fun acc x => if p (f x) then acc ++ [f x] else acc) l acc =
    acc ++ List.filter p (f <$> l).
Proof.
  revert acc. induction l as [|x l IH]; intros acc; simpl.
  - by rewrite app_nil_r.
  - rewrite IH. destruct (p (f x)); [|done]. by rewrite <- app_assoc.
Qed.

Lemma filter_sublist {B : Type} (p : B -> bool) (l : list B) :
  List.filter p l `sublist_of` l.
Proof.
  induction l as [|x l IH]; simpl; [constructor|].
  destruct (p x); [by apply sublist_skip|by apply sublist_cons].
Qed.

Lemma clean_text_unfold (text : string) :
  clean_text text =
    Py.join Py.nl (List.filter keep (PyMore.strip <$> PyMore.split_char NL text)).
Proof.
  unfold clean_text. f_equal.
  apply (fold_left_filter keep PyMore.strip (PyMore.split_char NL text) []).
Qed.

Lemma split_char_nosep (w s : string) :
  noNL w ->
  PyMore.split_char NL (w +:+ String NL s) = w :: PyMore.split_char NL s.
Proof.
  induction w as [|c w IH]; intros Hw.
  - rewrite str_app_nil_l. cbn [PyMore.split_char]. by rewrite decide_True.
  - unfold noNL, chars in Hw. simpl in Hw. apply Forall_cons in Hw as [Hc Hw].
    rewrite str_app_cons. cbn [PyMore.split_char]. rewrite decide_False by done.
    by rewrite IH.
Qed.

Lemma split_char_single (w : string) :
  noNL w -> PyMore.split_char NL w = [w].
Proof.
  induction w as [|c w IH]; intros Hw; [done|].
  unfold noNL, chars in Hw. simpl in Hw. apply Forall_cons in Hw as [Hc Hw].
  cbn [PyMore.split_char]. rewrite decide_False by done. by rewrite IH.
Qed.

Lemma split_char_join (ls : list string) :
  Forall noNL ls -> ls <> [] ->
  PyMore.split_char NL (Py.join Py.nl ls) = ls.
Proof.
  induction 1 as [|l ls Hl Hls IH]; intros Hne; [done|].
  destruct ls as [|l' ls].
  - cbn [Py.join]. by apply split_char_single.
  - cbn [Py.join].
    transitivity (PyMore.split_char NL (l +:+ String NL (Py.join Py.nl (l' :: ls))));
      [reflexivity|].
    rewrite split_char_nosep by done. f_equal. by apply IH.
Qed.

Lemma split_char_lines (s : string) : Forall noNL (PyMore.split_char NL s).
Proof.
  induction s as [|c s IH]; [by repeat constructor|].
  cbn [PyMore.split_char]. destruct (decide (c = NL)) as [->|Hc].
  - constructor; [constructor|done].
  - destruct (PyMore.split_char NL s) as [|w ws]; [by repeat constructor|].
    apply Forall_cons in IH as [Hw Hws]. constructor; [|done].
    unfold noNL, chars. simpl. by constructor.
Qed.

Lemma lstrip_chars (P : ascii -> Prop) (s : string) :
  Forall P (chars s) -> Forall P (chars (PyMore.lstrip s)).
Proof.
  induction s as [|c s IH]; intros Hs; [done|].
  cbn [PyMore.lstrip]. destruct (Py.isspace c); [|done].
  apply IH. unfold chars in Hs. simpl in Hs. by apply Forall_cons in Hs as [_ ?].
Qed.

Lemma rstrip_chars (P : ascii -> Prop) (s : string) :
  Forall P (chars s) -> Forall P (chars (PyMore.rstrip s)).
Proof.
  induction s as [|c s IH]; intros Hs; [done|].
  unfold chars in Hs. simpl in Hs. apply Forall_cons in Hs as [Hc Hs].
  cbn [PyMore.rstrip]. specialize (IH Hs).
  destruct (PyMore.rstrip s) as [|c' r].
  - destruct (Py.isspace c); [constructor|]. unfold chars. simpl. by repeat constructor.
  - unfold chars in *. simpl. by constructor.
Qed.

Lemma strip_chars (P : ascii -> Prop) (s : string) :
  Forall P (chars s) -> Forall P (chars (PyMore.strip s)).
Proof. intros Hs. by apply lstrip_chars, rstrip_chars. Qed.

Lemma rstrip_idemp (s : string) : PyMore.rstrip (PyMore.rstrip s) = PyMore.rstrip s.
Proof.
  induction s as [|c s IH]; [done|].
  cbn [PyMore.rstrip]. destruct (PyMore.rstrip s) as [|c' r] eqn:Hr.
  - destruct (Py.isspace c) eqn:Hc; [done|]. cbn [PyMore.rstrip]. by rewrite Hc.
  - cbn [PyMore.rstrip] in *. by rewrite IH.
Qed.

Lemma rstrip_lstrip (s : string) :
  PyMore.rstrip s = s -> PyMore.rstrip (PyMore.lstrip s) = PyMore.lstrip s.
Proof.
  induction s as [|c s IH]; intros Hs; [done|].
  cbn [PyMore.lstrip]. destruct (Py.isspace c) eqn:Hc; [|done].
  apply IH. cbn [PyMore.rstrip] in Hs. rewrite Hc in Hs.
  destruct (PyMore.rstrip s) as [|c' r]; [done|]. by injection Hs.
Qed.

Lemma lstrip_idemp (s : string) : PyMore.lstrip (PyMore.lstrip s) = PyMore.lstrip s.
Proof.
  induction s as [|c s IH]; [done|].
  cbn [PyMore.lstrip]. destruct (Py.isspace c) eqn:Hc; [done|].
  cbn [PyMore.lstrip]. by rewrite Hc.
Qed.

Lemma strip_idemp (s : string) : PyMore.strip (PyMore.strip s) = PyMore.strip s.
Proof.
  unfold PyMore.strip.
  rewrite (rstrip_lstrip (PyMore.rstrip s)) by apply rstrip_idemp.
  apply lstrip_idemp.
Qed.

Lemma kept_lines (text : string) :
  Forall (fun l => keep l = true /\ PyMore.strip l = l /\ noNL l)
    (List.filter keep (PyMore.strip <$> PyMore.split_char NL text)).
Proof.
  apply Forall_forall. intros l Hl.
  apply list_elem_of_In, filter_In in Hl as [Hl Hkeep].
  apply list_elem_of_In, list_elem_of_fmap in Hl as (l0 & -> & Hl0).
  split; [done|]. split; [apply strip_idemp|].
  apply strip_chars. pose proof (split_char_lines text) as Hlines.
  rewrite Forall_forall in Hlines. by apply Hlines.
Qed.

(** X24. The cleaned text is made of lines of the input, stripped and
    in their order; each of its lines has more than twenty characters,
    no white space at either end, and starts neither with "Back to
    Top" nor with "Table of Contents" (in any letter case) nor with a
    star.  When no line qualifies the result is the empty string. *)
Theorem clean_text_lines (text : string) :
  exists kept,
    clean_text text = Py.join Py.nl kept /\
    kept `sublist_of` (PyMore.strip <$> PyMore.split_char (ascii_of_nat 10) text) /\
    Forall (fun l => 20 < String.length l /\ PyMore.strip l = l /\ boilerplate l = false)
      kept /\
    (kept <> [] -> PyMore.split_char (ascii_of_nat 10) (clean_text text) = kept) /\
    (kept = [] -> clean_text text = EmptyString).
Proof.
  exists (List.filter keep (PyMore.strip <$> PyMore.split_char NL text)).
  pose proof (kept_lines text) as Hkept.
  split; [apply clean_text_unfold|]. split; [apply filter_sublist|]. split; [|split].
  - eapply Forall_impl; [exact Hkept|]. intros l (Hkeep & Hstrip & _).
    unfold keep in Hkeep. apply andb_true_iff in Hkeep as [Hlen Hboiler].
    apply Nat.ltb_lt in Hlen. apply negb_true_iff in Hboiler. done.
  - intros Hne. rewrite clean_text_unfold. apply split_char_join; [|done].
    eapply Forall_impl; [exact Hkept|]. by intros l (_ & _ & ?).
  - intros Hnil. rewrite clean_text_unfold, Hnil. done.
Qed.

(** X25. Cleaning is idempotent: a cleaned text is left unchanged by a
    second cleaning. *)
Theorem clean_text_idempotent (text : string) :
  clean_text (clean_text text) = clean_text text.
Proof.
  rewrite (clean_text_unfold (clean_text text)). rewrite (clean_text_unfold text) at 1.
  pose proof (kept_lines text) as Hkept.
  destruct (List.filter keep (PyMore.strip <$> PyMore.split_char NL text))
    as [|l kept] eqn:Hfiltered.
  - rewrite clean_text_unfold, Hfiltered. done.
  - rewrite split_char_join; [|by eapply Forall_impl; [exact Hkept|]; intros ? (_ & _ & ?)|done].
    rewrite clean_text_unfold, Hfiltered. f_equal.
    clear Hfiltered. induction Hkept as [|x xs (Hkeep & Hstrip & _) _ IH]; [done|].
    rewrite fmap_cons. cbn [List.filter]. rewrite Hstrip, Hkeep. by rewrite IH.
Qed.

End CleanText.

(** * From the indexer to the citations *)

Lemma chunk_documents_fold (split_text : string -> list string)
    (docs : list SourceDoc) (acc : list Chunk) :
  fold_left
    (fun all_chunks d =>
       fold_left
         (fun all_chunks '(i, part) =>
            all_chunks ++
            [ {| chunk_body := part;
                 chunk_metadata :=
                   {| cm_url := fm_url (sd_metadata d);
                      cm_source := fm_source (sd_metadata d);
                      cm_source_path := Some (sd_path d);
                      cm_title := fm_title (sd_metadata d);
                      cm_chunk_id := i |} |} ])
         (zip (seq 0 (length (split_text (sd_content d)))) (split_text (sd_content d)))
         all_chunks)
    docs acc =
  acc ++
  concat
    ((fun d =>
        (fun p : nat * string =>
           {| chunk_body := p.2;
              chunk_metadata :=
                {| cm_url := fm_url (sd_metadata d);
                   cm_source := fm_source (sd_metadata d);
                   cm_source_path := Some (sd_path d);
                   cm_title := fm_title (sd_metadata d);
                   cm_chunk_id := p.1 |} |}) <$>
        zip (seq 0 (length (split_text (sd_content d)))) (split_text (sd_content d)))
       <$> docs).
Proof.
  revert acc. induction docs as [|d docs IH]; intros acc.
  - simpl. by rewrite app_nil_r.
  - cbn [fold_left]. rewrite IH. rewrite fmap_cons. cbn [concat]. rewrite app_assoc.
    f_equal. generalize (zip (seq 0 (length (split_text (sd_content d))))
                          (split_text (sd_content d))).
    intros l. revert acc. induction l as [|[i part] l IHl]; intros acc.
    + simpl. by rewrite app_nil_r.
    + cbn [fold_left]. rewrite IHl. rewrite fmap_cons. simpl. by rewrite <- app_assoc.
Qed.

(** X26. Every chunk built by [chunk_documents] carries the path of its
    file as [source_path], whatever the front matter says, the parts of
    a document are numbered from zero in order, and, when the file
    paths are non-empty, the lexical candidate built by [bm25_search]
    from the chunk has a non-empty url: every lexical context can be
    cited. *)
Theorem chunk_documents_source_path (split_text : string -> list string)
    (docs : list SourceDoc) (c : Chunk) :
  c ∈ chunk_documents split_text docs ->
  exists d i,
    d ∈ docs /\
    split_text (sd_content d) !! i = Some (chunk_body c) /\
    cm_chunk_id (chunk_metadata c) = i /\
    cm_source_path (chunk_metadata c) = Some (sd_path d) /\
    cm_url (chunk_metadata c) = fm_url (sd_metadata d) /\
    cm_title (chunk_metadata c) = fm_title (sd_metadata d) /\
    (sd_path d <> EmptyString ->
     forall s, Py.truthy (url (doc_to_candidate (doc_of_chunk c) s)) = true).
Proof.
  unfold chunk_documents. rewrite chunk_documents_fold. simpl.
  intros Hc. apply list_elem_of_In, in_concat in Hc as (chunks & Hchunks & Hc).
  apply list_elem_of_In in Hchunks, Hc.
  apply list_elem_of_fmap in Hchunks as (d & -> & Hd).
  apply list_elem_of_fmap in Hc as ([i part] & -> & Hin).
  apply list_elem_of_lookup in Hin as [j Hj].
  apply lookup_zip_with_Some in Hj as (i' & part' & [= <- <-] & Hi & Hpart).
  apply lookup_seq in Hi as [-> _]. simpl.
  exists d, j. split; [done|]. split; [done|]. split; [done|]. split; [done|].
  split; [done|]. split; [done|].
  intros Hpath s. unfold doc_to_candidate, doc_of_chunk, Py.or_. simpl.
  destruct (Py.truthy (fm_url (sd_metadata d))) eqn:Hurl; [done|].
  simpl. by destruct (sd_path d).
Qed.

Lemma chunk_documents_source_path_witness :
  let docs :=
    [mkSourceDoc "refunds and returns"
       (mkFrontMatter None None (Some "elsewhere.md") (Some "Refunds"))
       "data/raw/refund.md"] in
  let split_text := fun s : string => Py.split s in
  let c := mkChunk "and"
             (mkChunkMeta None None (Some "data/raw/refund.md") (Some "Refunds") 1) in
  c ∈ chunk_documents split_text docs /\
  exists d i,
    d ∈ docs /\
    split_text (sd_content d) !! i = Some (chunk_body c) /\
    cm_chunk_id (chunk_metadata c) = i /\
    cm_source_path (chunk_metadata c) = Some (sd_path d) /\
    cm_url (chunk_metadata c) = fm_url (sd_metadata d) /\
    cm_title (chunk_metadata c) = fm_title (sd_metadata d) /\
    (sd_path d <> EmptyString ->
     forall s, Py.truthy (url (doc_to_candidate (doc_of_chunk c) s)) = true).
Proof.
  intros docs split_text c.
  assert (c ∈ chunk_documents split_text docs) as Hc.
  { vm_compute. right; left. }
  split; [exact Hc|]. exact (chunk_documents_source_path split_text docs c Hc).
Defined.

(** * Sections of a page *)

Section Headings.
Let NL : ascii := ascii_of_nat 10.
Let shift (d : nat) (m : nat * nat) : nat * nat := (m.1 + d, m.2).
Let shift_state (d : nat) (st : HeadingScan) : HeadingScan :=
  match st with Hashes a n => Hashes (a + d) n | _ => st end.
Let no_hash (line : string) : Prop := forall rest, line <> String "#"%char rest.

(** Moving the text [d] characters to the right moves the matches
    alike. *)
Lemma finditer_headings_shift (d : nat) (md : string) (st : HeadingScan) (pos : nat) :
  finditer_headings (shift_state d st) (pos + d) md =
    shift d <$> finditer_headings st pos md.
Proof.
  revert st pos. induction md as [|c md IH]; intros st pos; [by destruct st|].
  destruct st as [|a n| |]; cbn [finditer_headings shift_state].
  - destruct (decide (c = "#"%char)); [apply (IH (Hashes pos 1) (S pos))|].
    destruct (decide (c = ascii_of_nat 10)); [apply (IH LineStart (S pos))|].
    apply (IH InLine (S pos)).
  - destruct (decide (c = "#"%char)); [apply (IH (Hashes a (S n)) (S pos))|].
    destruct (Py.isspace c); [|apply (IH InLine (S pos))].
    rewrite fmap_cons. f_equal. apply (IH Blanks (S pos)).
  - destruct (Py.isspace c); [apply (IH Blanks (S pos))|apply (IH InLine (S pos))].
  - destruct (decide (c = ascii_of_nat 10)); [apply (IH LineStart (S pos))|].
    apply (IH InLine (S pos)).
Qed.

Lemma split_char_cons (sep : ascii) (s : string) :
  exists w ws, PyMore.split_char sep s = w :: ws.
Proof.
  destruct s as [|c s]; [by eexists _, _|]. cbn [PyMore.split_char].
  destruct (decide (c = sep)); [by eexists _, _|].
  destruct (PyMore.split_char sep s); by eexists _, _.
Qed.

(** A text without a line that starts with [#] has no heading. *)
Lemma no_hash_no_heading (md : string) (pos : nat) :
  (Forall no_hash (PyMore.split_char NL md) -> finditer_headings LineStart pos md = []) /\
  (Forall no_hash (tail (PyMore.split_char NL md)) -> finditer_headings InLine pos md = []).
Proof.
  revert pos. induction md as [|c md IH]; intros pos; [done|].
  destruct (IH (S pos)) as [IHstart IHline]. cbn [finditer_headings PyMore.split_char].
  fold NL. destruct (decide (c = NL)) as [->|Hnl].
  - split.
    + intros Hlines. apply Forall_cons in Hlines as [_ Hlines].
      rewrite decide_False by done. by apply IHstart.
    + simpl. exact IHstart.
  - destruct (split_char_cons NL md) as (w & ws & Hsplit). rewrite Hsplit in *. split.
    + intros Hlines. apply Forall_cons in Hlines as [Hc Hlines].
      rewrite decide_False; [by apply IHline|]. intros ->. by apply (Hc w).
    + simpl. exact IHline.
Qed.

(** A match begins at or after the position of the search, but for the
    match whose [#]s are being read. *)
Lemma finditer_headings_starts (md : string) (st : HeadingScan) (pos a n : nat) :
  (a, n) ∈ finditer_headings st pos md ->
  pos <= a \/ exists lv, st = Hashes a lv.
Proof.
  revert st pos. induction md as [|c md IH]; intros st pos Hin.
  { destruct st; by apply elem_of_nil in Hin. }
  destruct st as [|a0 n0| |]; cbn [finditer_headings] in Hin.
  - destruct (decide (c = "#"%char)).
    { apply IH in Hin as [?|[lv [= <-]]]; left; lia. }
    destruct (decide (c = ascii_of_nat 10)); apply IH in Hin as [?|[lv ?]]; try done; left; lia.
  - destruct (decide (c = "#"%char)).
    { apply IH in Hin as [?|[lv [= <-]]]; [left; lia|right; by eexists]. }
    destruct (Py.isspace c).
    + apply elem_of_cons in Hin as [[= <- <-]|Hin]; [right; by eexists|].
      apply IH in Hin as [?|[lv ?]]; [left; lia|done].
    + apply IH in Hin as [?|[lv ?]]; [left; lia|done].
  - destruct (Py.isspace c); apply IH in Hin as [?|[lv ?]]; try done; left; lia.
  - destruct (decide (c = ascii_of_nat 10)); apply IH in Hin as [?|[lv ?]]; try done; left; lia.
Qed.

(** A match of the [#]s being read: more of them, then a white space. *)
Lemma finditer_headings_run (md : string) (a lv pos n : nat) (ms : list (nat * nat)) :
  a < pos ->
  finditer_headings (Hashes a lv) pos md = (a, n) :: ms ->
  exists k c rest,
    md = hashes k +:+ String c rest /\ Py.isspace c = true /\ n = lv + k /\
    ms = finditer_headings Blanks (pos + k + 1) rest.
Proof.
  revert lv pos. induction md as [|c md IH]; intros lv pos Hpos Hscan; [done|].
  cbn [finditer_headings] in Hscan. destruct (decide (c = "#"%char)) as [->|Hc].
  - apply IH in Hscan as (k & c' & rest & -> & Hspace & -> & ->); [|lia].
    exists (S k), c', rest. split; [done|]. split; [done|]. split; [lia|].
    f_equal. lia.
  - destruct (Py.isspace c) eqn:Hspace.
    + injection Hscan as <- <-. exists 0, c, md. split; [done|]. split; [done|].
      split; [lia|]. f_equal. lia.
    + assert ((a, n) ∈ finditer_headings InLine (S pos) md) as Hin
        by (rewrite Hscan; left).
      apply finditer_headings_starts in Hin as [?|[? ?]]; [lia|done].
Qed.

(** The first match of a search begins where a search from a line start
    finds the same matches. *)
Lemma finditer_headings_first (md : string) (st : HeadingScan) (pos a n : nat)
    (ms : list (nat * nat)) :
  finditer_headings st pos md = (a, n) :: ms ->
  (exists lv, st = Hashes a lv) \/
  exists pre suf,
    md = pre +:+ suf /\ a = pos + String.length pre /\
    finditer_headings LineStart a suf = (a, n) :: ms.
Proof.
  assert (forall c md' pos',
    (exists pre suf, md' = pre +:+ suf /\ a = S pos' + String.length pre /\
       finditer_headings LineStart a suf = (a, n) :: ms) ->
    exists pre suf, String c md' = pre +:+ suf /\ a = pos' + String.length pre /\
       finditer_headings LineStart a suf = (a, n) :: ms) as Hextend.
  { intros c md' pos' (pre & suf & -> & -> & Hsuf).
    exists (String c pre), suf. split; [done|]. split; [simpl; lia|done]. }
  revert st pos. induction md as [|c md IH]; intros st pos Hscan; [by destruct st|].
  destruct st as [|a0 n0| |]; cbn [finditer_headings] in Hscan.
  - right. destruct (decide (c = "#"%char)) as [->|Hc].
    { destruct (IH _ _ Hscan) as [[lv [= <-]]|Hlater]; [|by apply Hextend].
      exists EmptyString, (String "#"%char md). split; [done|]. split; [simpl; lia|].
      cbn [finditer_headings]. by rewrite decide_True. }
    destruct (decide (c = ascii_of_nat 10));
      (destruct (IH _ _ Hscan) as [[lv ?]|Hlater]; [done|by apply Hextend]).
  - destruct (decide (c = "#"%char)).
    { destruct (IH _ _ Hscan) as [[lv [= <-]]|Hlater]; [left; by eexists|].
      right. by apply Hextend. }
    destruct (Py.isspace c).
    + injection Hscan as <- <- _. left. by eexists.
    + destruct (IH _ _ Hscan) as [[lv ?]|Hlater]; [done|]. right. by apply Hextend.
  - right. destruct (Py.isspace c);
      (destruct (IH _ _ Hscan) as [[lv ?]|Hlater]; [done|by apply Hextend]).
  - right. destruct (decide (c = ascii_of_nat 10));
      (destruct (IH _ _ Hscan) as [[lv ?]|Hlater]; [done|by apply Hextend]).
Qed.

Lemma str_length_app (s1 s2 : string) :
  String.length (s1 +:+ s2) = String.length s1 + String.length s2.
Proof. induction s1 as [|c s1 IH]; [done|]. rewrite str_app_cons. simpl. by rewrite IH. Qed.

Lemma substring_app_skip (pre suf : string) (a n : nat) :
  substring (a + String.length pre) n (pre +:+ suf) = substring a n suf.
Proof.
  induction pre as [|c pre IH].
  - by rewrite str_app_nil_l, Nat.add_0_r.
  - rewrite str_app_cons. simpl. rewrite Nat.add_succ_r. exact IH.
Qed.

Lemma substring_app_take (p rest : string) :
  substring 0 (String.length p) (p +:+ rest) = p.
Proof.
  induction p as [|c p IH]; [by destruct rest|].
  rewrite str_app_cons. simpl. by rewrite IH.
Qed.

Lemma str_slice_part (pre p rest : string) :
  str_slice (String.length pre) (String.length pre + String.length p)
    (pre +:+ p +:+ rest) = p.
Proof.
  unfold str_slice.
  replace (String.length pre + String.length p - String.length pre)
    with (String.length p) by lia.
  rewrite (substring_app_skip pre (p +:+ rest) 0). apply substring_app_take.
Qed.

Lemma str_from_part (pre p : string) :
  str_from (String.length pre) (pre +:+ p) = p.
Proof.
  unfold str_from. rewrite str_length_app.
  replace (String.length pre + String.length p - String.length pre)
    with (String.length p) by lia.
  rewrite (substring_app_skip pre p 0).
  rewrite <- (str_app_nil_r p) at 2. apply substring_app_take.
Qed.

Lemma hashes_length (n : nat) : String.length (hashes n) = n.
Proof. induction n as [|n IH]; [done|]. simpl. by rewrite IH. Qed.

(** The loop of [extract_sections] over the matches still to come. *)
Let sections_loop (md : string) (matches : list (nat * nat))
    (todo : list (nat * (nat * nat))) (sections : list PageSection) : list PageSection :=
  fold_left
    (fun sections '(i, (start, level)) =>
       let sections :=
         match i with
         | O => sections
         | S i' =>
             match matches !! i' with
             | Some (prev_start, prev_level) =>
                 sections ++
                 [ {| sec_level := prev_level;
                      sec_text := clean_text (str_slice prev_start start md) |} ]
             | None => sections
             end
         end in
       if i =? length matches - 1
       then sections ++
            [ {| sec_level := level; sec_text := clean_text (str_from start md) |} ]
       else sections)
    todo sections.

Lemma extract_sections_unfold (md : string) :
  extract_sections md =
    match finditer_headings LineStart 0 md with
    | [] => [ {| sec_level := 0; sec_text := clean_text md |} ]
    | m :: ms =>
        List.filter (fun sec => Py.truthy (Some (sec_text sec)))
          (sections_loop md (m :: ms) (zip (seq 0 (length (m :: ms))) (m :: ms)) [])
    end.
Proof. unfold extract_sections. by destruct (finditer_headings LineStart 0 md). Qed.

(** The loop reads the text only from the first match on. *)
Lemma sections_loop_shift (pre suf : string) (matches : list (nat * nat))
    (idx : list nat) (l : list (nat * nat)) (acc : list PageSection) :
  sections_loop (pre +:+ suf) (shift (String.length pre) <$> matches)
    (zip idx (shift (String.length pre) <$> l)) acc =
  sections_loop suf matches (zip idx l) acc.
Proof.
  revert idx acc. induction l as [|[start level] l IH]; intros idx acc.
  { by destruct idx. }
  destruct idx as [|i idx]; [done|].
  rewrite fmap_cons. unfold sections_loop in *. cbn [zip zip_with fold_left].
  rewrite IH. f_equal. rewrite length_fmap. unfold shift. cbn [fst snd].
  assert (forall a, str_from (a + String.length pre) (pre +:+ suf) = str_from a suf) as Hfrom.
  { intros a. unfold str_from. rewrite str_length_app, substring_app_skip. f_equal. lia. }
  assert (forall a b, str_slice (a + String.length pre) (b + String.length pre)
                        (pre +:+ suf) = str_slice a b suf) as Hslice.
  { intros a b. unfold str_slice. rewrite substring_app_skip. f_equal. lia. }
  rewrite Hfrom.
  destruct i as [|i']; [done|].
  rewrite list_lookup_fmap. destruct (matches !! i') as [[prev_start prev_level]|]; [|done].
  simpl. by rewrite Hslice.
Qed.

(** X28. When a page has a heading, what stands before its first
    heading is in no section: the sections of the page are those of the
    page cut at the start of its first heading. *)
Theorem extract_sections_drops_preamble (md : string) (start level : nat)
    (ms : list (nat * nat)) :
  finditer_headings LineStart 0 md = (start, level) :: ms ->
  extract_sections md = extract_sections (str_from start md).
Proof.
  intros Hscan.
  destruct (finditer_headings_first _ _ _ _ _ _ Hscan) as [[lv ?]|(pre & suf & -> & -> & Hsuf)];
    [done|].
  change (0 + String.length pre) with (String.length pre) in *.
  rewrite str_from_part.
  pose proof (finditer_headings_shift (String.length pre) suf LineStart 0) as Hshift.
  simpl in Hshift. rewrite Hsuf in Hshift.
  rewrite !extract_sections_unfold, Hscan.
  destruct (finditer_headings LineStart 0 suf) as [|m' ms'] eqn:Hsuf0; [done|].
  rewrite Hshift, !length_fmap. f_equal. apply sections_loop_shift.
Qed.

Lemma extract_sections_drops_preamble_witness :
  let md := ("Welcome to the product documentation pages." +:+ Py.nl +:+
             "## Refunds are made within thirty days" +:+ Py.nl +:+
             "Send the parcel back with the original receipt.")%string in
  finditer_headings LineStart 0 md = [(44, 2)] /\
  extract_sections md = extract_sections (str_from 44 md) /\
  extract_sections md =
    [ {| sec_level := 2;
         sec_text := ("## Refunds are made within thirty days" +:+ Py.nl +:+
                      "Send the parcel back with the original receipt.")%string |} ].
Proof.
  intros md.
  assert (finditer_headings LineStart 0 md = [(44, 2)]) as Hscan by (vm_compute; reflexivity).
  split; [exact Hscan|]. split; [exact (extract_sections_drops_preamble md 44 2 [] Hscan)|].
  vm_compute. reflexivity.
Defined.

(** X27. A page none of whose lines starts with [#] makes one section,
    of level zero, which holds the cleaned page; the section is there
    even when the cleaned page is empty. *)
Theorem extract_sections_no_heading (md : string) :
  Forall (fun line => forall rest, line <> String "#"%char rest)
    (PyMore.split_char (ascii_of_nat 10) md) ->
  extract_sections md = [ {| sec_level := 0; sec_text := clean_text md |} ].
Proof.
  intros Hlines. rewrite extract_sections_unfold.
  by rewrite (proj1 (no_hash_no_heading md 0) Hlines).
Qed.

Lemma extract_sections_no_heading_witness :
  let md := ("Short intro." +:+ Py.nl +:+ "* Back to top")%string in
  Forall (fun line => forall rest, line <> String "#"%char rest)
    (PyMore.split_char (ascii_of_nat 10) md) /\
  extract_sections md = [ {| sec_level := 0; sec_text := EmptyString |} ].
Proof.
  intros md.
  assert (Forall (fun line => forall rest, line <> String "#"%char rest)
            (PyMore.split_char (ascii_of_nat 10) md)) as Hlines.
  { vm_compute. repeat constructor; intros rest; discriminate. }
  split; [exact Hlines|]. exact (extract_sections_no_heading md Hlines).
Defined.

Let section_of (m : nat * nat) (part : string) : PageSection :=
  {| sec_level := m.2; sec_text := clean_text part |}.
Let heading_part (m : nat * nat) (part : string) : Prop :=
  1 <= m.2 /\
  exists c rest, Py.isspace c = true /\ part = hashes m.2 +:+ String c rest.

(** A match at the position of the search. *)
Lemma finditer_headings_head (a n : nat) (suf : string) (ms : list (nat * nat)) :
  finditer_headings LineStart a suf = (a, n) :: ms ->
  exists k c rest,
    suf = String "#"%char (hashes k +:+ String c rest) /\ Py.isspace c = true /\
    n = S k /\ ms = finditer_headings Blanks (a + k + 2) rest.
Proof.
  intros Hscan. destruct suf as [|c suf]; [done|]. cbn [finditer_headings] in Hscan.
  assert ((a, n) ∈ (a, n) :: ms) as Hin by left. rewrite <- Hscan in Hin.
  destruct (decide (c = "#"%char)) as [->|Hc].
  - apply finditer_headings_run in Hscan as (k & c' & rest & -> & Hspace & -> & ->); [|lia].
    exists k, c', rest. split; [done|]. split; [done|]. split; [done|]. f_equal. lia.
  - destruct (decide (c = ascii_of_nat 10));
      apply finditer_headings_starts in Hin as [?|[? ?]]; try done; lia.
Qed.

(** The text from a match on is made of one part per match, each from
    the start of its match to the start of the next. *)
Lemma finditer_headings_parts (ms : list (nat * nat)) :
  forall (a n : nat) (suf : string),
    finditer_headings LineStart a suf = (a, n) :: ms ->
    exists parts,
      str_concat parts = suf /\
      Forall2 heading_part ((a, n) :: ms) parts /\
      (forall j m, ((a, n) :: ms) !! j = Some m ->
                   m.1 = a + String.length (str_concat (take j parts))).
Proof.
  induction ms as [|[a' n'] ms IH]; intros a n suf Hscan.
  all: apply finditer_headings_head in Hscan as (k & c' & rest & -> & Hspace & -> & Hms).
  - exists [String "#"%char (hashes k +:+ String c' rest)]. split; [|split].
    + cbn [str_concat foldr]. apply str_app_nil_r.
    + constructor; [|constructor]. split; [simpl; lia|]. by exists c', rest.
    + intros [|j] m Hj; [|done]. injection Hj as <-. simpl. lia.
  - symmetry in Hms.
    apply finditer_headings_first in Hms as [[lv ?]|(pre' & suf' & -> & Ha' & Hsuf')];
      [done|].
    apply IH in Hsuf' as (parts' & Hconcat & Hshape & Hoff).
    exists (String "#"%char (hashes k +:+ String c' pre') :: parts'). split; [|split].
    + cbn [str_concat foldr]. fold (str_concat parts'). rewrite Hconcat.
      by rewrite !str_app_cons, str_app_assoc, str_app_cons.
    + constructor; [|done]. split; [simpl; lia|]. by exists c', pre'.
    + intros [|j] m Hj; [injection Hj as <-; simpl; lia|].
      change (((a', n') :: ms) !! j = Some m) in Hj. apply Hoff in Hj. rewrite Hj, Ha'.
      cbn [take str_concat foldr]. fold (str_concat (take j parts')).
      rewrite str_length_app. cbn [String.length].
      rewrite str_length_app, hashes_length. cbn [String.length]. lia.
Qed.

(** The loop, from the second match on, appends the section of the
    match before and, at the last match, the section of the last. *)
Lemma sections_loop_parts (md : string) (matches : list (nat * nat)) :
  forall (todo : list (nat * nat)) (parts : list string) (i' : nat) (prev : nat * nat)
         (pre pp : string) (acc : list PageSection),
    matches !! i' = Some prev -> drop (S i') matches = todo -> todo <> [] ->
    md = pre +:+ pp +:+ str_concat parts ->
    prev.1 = String.length pre ->
    length parts = length todo ->
    (forall j m, todo !! j = Some m ->
                 m.1 = String.length pre + String.length pp +
                       String.length (str_concat (take j parts))) ->
    sections_loop md matches (zip (seq (S i') (length todo)) todo) acc =
      acc ++ section_of prev pp :: zip_with section_of todo parts.
Proof.
  induction todo as [|[a n] todo IH];
    intros parts i' [pa pn] pre pp acc Hprev Hdrop Hne Hmd Hpa Hlen Hoff; [done|].
  destruct parts as [|p parts]; [done|]. injection Hlen as Hlen.
  assert (length matches = S i' + S (length todo)) as Hmatches.
  { apply lookup_lt_Some in Hprev. apply (f_equal length) in Hdrop.
    rewrite length_drop in Hdrop. simpl in Hdrop. lia. }
  assert (matches !! S i' = Some (a, n)) as Hcur.
  { rewrite <- (Nat.add_0_r (S i')), <- lookup_drop, Hdrop. done. }
  assert (a = String.length pre + String.length pp) as Ha.
  { pose proof (Hoff 0 (a, n) eq_refl) as H0. simpl in H0. lia. }
  simpl in Hpa. subst pa.
  assert (str_slice (String.length pre) a md = pp) as Hslice.
  { rewrite Ha, Hmd. apply str_slice_part. }
  unfold sections_loop in *. cbn [length seq zip zip_with fold_left].
  rewrite Hprev, Hslice.
  destruct todo as [|m' todo].
  - destruct parts; [|done]. rewrite Hmatches.
    cbn [length seq zip zip_with fold_left].
    assert (str_from a md = p) as ->.
    { rewrite Hmd. cbn [str_concat foldr]. rewrite str_app_nil_r, <- str_app_assoc, Ha.
      rewrite <- str_length_app. apply str_from_part. }
    destruct (S i' =? S i' + 1 - 1) eqn:Hlast; [|apply Nat.eqb_neq in Hlast; lia].
    by rewrite <- app_assoc.
  - destruct (S i' =? length matches - 1) eqn:Hlast;
      [apply Nat.eqb_eq in Hlast; simpl in Hmatches; lia|].
    rewrite (IH parts (S i') (a, n) (pre +:+ pp) p); try done.
    + by rewrite <- app_assoc.
    + apply (drop_S _ _ _) in Hcur. rewrite Hdrop in Hcur. by injection Hcur.
    + rewrite Hmd. cbn [str_concat foldr]. by rewrite !str_app_assoc.
    + simpl. by rewrite str_length_app.
    + intros j m Hj. rewrite (Hoff (S j) m Hj).
      cbn [take str_concat foldr]. fold (str_concat (take j parts)).
      rewrite !str_length_app. lia.
Qed.

(** X29. When a page has headings, it is made of a preamble and of one
    part per heading, each part running from the start of its heading
    to the start of the next one, or to the end of the page: a part
    begins with the [#]s of its heading and a white space.  The
    sections are the cleaned parts in their order, each with the number
    of [#]s of its heading as level, but for the parts whose cleaned
    text is empty, which are left out; the preamble is in no
    section. *)
Theorem extract_sections_parts (md : string) (m : nat * nat) (ms : list (nat * nat)) :
  finditer_headings LineStart 0 md = m :: ms ->
  exists pre parts,
    md = pre +:+ str_concat parts /\
    m.1 = String.length pre /\
    Forall2
      (fun m part =>
         1 <= m.2 /\
         exists c rest, Py.isspace c = true /\ part = hashes m.2 +:+ String c rest)
      (m :: ms) parts /\
    extract_sections md =
      List.filter (fun sec => Py.truthy (Some (sec_text sec)))
        (zip_with (fun m part => {| sec_level := m.2; sec_text := clean_text part |})
           (m :: ms) parts).
Proof.
  destruct m as [a n]. intros Hscan.
  destruct (finditer_headings_first _ _ _ _ _ _ Hscan) as [[lv ?]|(pre & suf & Hmd & Ha & Hsuf)];
    [done|].
  simpl in Ha.
  destruct (finditer_headings_parts _ _ _ _ Hsuf) as (parts & Hconcat & Hshape & Hoff).
  exists pre, parts. split; [by rewrite Hconcat|]. split; [done|]. split; [exact Hshape|].
  rewrite extract_sections_unfold, Hscan. f_equal.
  destruct parts as [|p parts]; [by apply Forall2_length in Hshape|].
  pose proof (Forall2_length _ _ _ Hshape) as Hlen. injection Hlen as Hlen.
  cbn [length seq zip zip_with]. rewrite <- fmap_S_seq.
  change (zip_with pair (0 :: (S <$> seq 0 (length ms))) ((a, n) :: ms))
    with ((0, (a, n)) :: zip (S <$> seq 0 (length ms)) ms).
  rewrite fmap_S_seq.
  destruct ms as [|m' ms].
  - destruct parts; [|done]. unfold sections_loop. cbn [length seq zip zip_with fold_left].
    simpl. do 3 f_equal. rewrite Hmd, <- Hconcat. cbn [str_concat foldr].
    rewrite str_app_nil_r, Ha. apply str_from_part.
  - unfold sections_loop at 1. cbn [fold_left].
    replace (0 =? length ((a, n) :: m' :: ms) - 1) with false by done.
    apply (sections_loop_parts md ((a, n) :: m' :: ms) (m' :: ms) parts 0 (a, n) pre p []);
      try done.
    + rewrite Hmd, <- Hconcat. done.
    + intros j m Hj. rewrite (Hoff (S j) m Hj), Ha.
      cbn [take str_concat foldr]. fold (str_concat (take j parts)).
      rewrite str_length_app. lia.
Qed.

Lemma extract_sections_parts_witness :
  let md := ("Intro line." +:+ Py.nl +:+ "# One" +:+ Py.nl +:+
             "The first body is long enough to stay." +:+ Py.nl +:+
             "### Deep" +:+ Py.nl +:+ "short")%string in
  finditer_headings LineStart 0 md = [(12, 1); (57, 3)] /\
  extract_sections md =
    [ {| sec_level := 1; sec_text := "The first body is long enough to stay." |} ] /\
  exists pre parts,
    md = pre +:+ str_concat parts /\
    (12, 1).1 = String.length pre /\
    Forall2
      (fun m part =>
         1 <= m.2 /\
         exists c rest, Py.isspace c = true /\ part = hashes m.2 +:+ String c rest)
      [(12, 1); (57, 3)] parts /\
    extract_sections md =
      List.filter (fun sec => Py.truthy (Some (sec_text sec)))
        (zip_with (fun m part => {| sec_level := m.2; sec_text := clean_text part |})
           [(12, 1); (57, 3)] parts).
Proof.
  intros md.
  assert (finditer_headings LineStart 0 md = [(12, 1); (57, 3)]) as Hscan
    by (vm_compute; reflexivity).
  split; [exact Hscan|]. split; [vm_compute; reflexivity|].
  exact (extract_sections_parts md (12, 1) [(57, 3)] Hscan).
Defined.

End Headings.

(** * The chunks of the crawled pages *)

Section ChunkPages.
Let size_of (sec : PageSection) : Z :=
  if sec_level sec <=? 2 then CHUNK_SIZE_HIGH else CHUNK_SIZE_LOW.
Let chunk_of (page : LoadedPage) (p : nat * PageSection) (q : nat * string) : PageChunk :=
  {| pc_url := lp_url page;
     pc_title := lp_title page;
     pc_section_index := p.1;
     pc_chunk_index := q.1;
     pc_heading_level := sec_level p.2;
     pc_content := q.2 |}.
Let section_chunks (page : LoadedPage) (p : nat * PageSection) : list PageChunk :=
  match chunk_text (sec_text p.2) (size_of p.2) with
  | Some chunks => chunk_of page p <$> zip (seq 0 (length chunks)) chunks
  | None => []
  end.
Let page_chunks (page : LoadedPage) : list PageChunk :=
  concat (section_chunks page <$>
            zip (seq 0 (length (extract_sections (lp_content page))))
              (extract_sections (lp_content page))).

(** The chunks of a text as windows of its words. *)
Lemma chunk_text_windows (text : string) (size : Z) :
  (1 <= size)%Z ->
  exists windows,
    chunk_text text size = Some (Py.join " " <$> windows) /\
    concat windows = Py.split text /\
    Forall (Forall word) windows /\
    Forall (fun w => 1 <= length w /\ (Z.of_nat (length w) <= size)%Z) windows.
Proof.
  intros Hsize.
  destruct (range_windows (Py.split text) size Hsize)
    as (starts & windows & Hrange & Hwindows & Hconcat & Hsizes & _ & _).
  exists windows. split; [|split; [done|split; [|done]]].
  - unfold chunk_text. rewrite Hrange.
    rewrite (fold_left_append
               (fun i => Py.join " " (PyMore.slice i (i + size) (Py.split text))) starts []).
    simpl. f_equal. rewrite <- Hwindows, <- list_fmap_compose. done.
  - apply Forall_concat. rewrite Hconcat. apply split_words.
Qed.

Lemma size_of_positive (sec : PageSection) : (1 <= size_of sec)%Z.
Proof. unfold size_of. by destruct (sec_level sec <=? 2). Qed.

Lemma chunk_pages_unfold (pages : list LoadedPage) :
  chunk_pages pages = Some (concat (page_chunks <$> pages)).
Proof.
  unfold chunk_pages.
  match goal with
  | |- fold_left ?f pages (Some []) = _ =>
      enough (forall acc, fold_left f pages (Some acc) =
                          Some (acc ++ concat (page_chunks <$> pages))) as H
        by apply (H [])
  end.
  induction pages as [|page pages IH]; intros acc.
  - simpl. by rewrite app_nil_r.
  - cbn [fold_left]. rewrite fmap_cons. cbn [concat]. rewrite app_assoc.
    rewrite <- IH. f_equal. unfold page_chunks.
    generalize (zip (seq 0 (length (extract_sections (lp_content page))))
                  (extract_sections (lp_content page))).
    intros l. revert acc. induction l as [|[si sec] l IHl]; intros acc.
    + simpl. by rewrite app_nil_r.
    + cbn [fold_left]. rewrite fmap_cons. cbn [concat]. rewrite app_assoc, <- IHl.
      f_equal. cbn [mbind option_bind]. unfold section_chunks. cbn [fst snd].
      fold (size_of sec).
      destruct (chunk_text_windows (sec_text sec) (size_of sec) (size_of_positive sec))
        as (windows & -> & _).
      cbn [mbind option_bind]. f_equal.
      generalize (zip (seq 0 (length (Py.join " " <$> windows))) (Py.join " " <$> windows)).
      intros chunks. revert acc. induction chunks as [|[ci chunk] chunks IHc]; intros acc.
      * simpl. by rewrite app_nil_r.
      * cbn [fold_left]. rewrite IHc, fmap_cons. by rewrite <- app_assoc.
Qed.

Lemma concat_fmap_concat {A B : Type} (f : A -> list B) (ls : list (list A)) :
  concat (f <$> concat ls) = concat ((fun l => concat (f <$> l)) <$> ls).
Proof.
  induction ls as [|l ls IH]; [done|].
  cbn [concat]. rewrite fmap_app, concat_app, IH. done.
Qed.

(** X30. The chunking of the crawled pages never fails.  Every chunk
    comes from a section of a page, whose url, title and heading level
    it carries, with the index of the section among the sections of the
    page and its own index among the chunks of the section; it is not
    empty, it is made of words joined by single spaces, and it holds at
    most 300 words under a heading of one or two [#]s or in a page
    without heading, and at most 500 words under a deeper heading.  The
    words of the chunks, in their order, are the words of the sections
    of the pages: none is lost or repeated. *)
Theorem chunk_pages_chunks (pages : list LoadedPage) :
  exists all_chunks,
    chunk_pages pages = Some all_chunks /\
    Forall
      (fun c =>
         exists page sec chunks,
           page ∈ pages /\ pc_url c = lp_url page /\ pc_title c = lp_title page /\
           extract_sections (lp_content page) !! pc_section_index c = Some sec /\
           pc_heading_level c = sec_level sec /\
           chunk_text (sec_text sec)
             (if sec_level sec <=? 2 then CHUNK_SIZE_HIGH else CHUNK_SIZE_LOW) =
             Some chunks /\
           chunks !! pc_chunk_index c = Some (pc_content c) /\
           pc_content c <> EmptyString /\
           Py.join " " (Py.split (pc_content c)) = pc_content c /\
           (Z.of_nat (length (Py.split (pc_content c))) <=
              if (pc_heading_level c <=? 2)%nat then 300 else 500)%Z)
      all_chunks /\
    concat ((fun c => Py.split (pc_content c)) <$> all_chunks) =
      concat ((fun page =>
                 concat ((fun sec => Py.split (sec_text sec)) <$>
                           extract_sections (lp_content page))) <$> pages).
Proof.
  exists (concat (page_chunks <$> pages)). split; [apply chunk_pages_unfold|]. split.
  - apply Forall_forall. intros c Hc.
    apply list_elem_of_In, in_concat in Hc as (cs & Hcs & Hc).
    apply list_elem_of_In, list_elem_of_fmap in Hcs as (page & -> & Hpage).
    unfold page_chunks in Hc. apply in_concat in Hc as (cs & Hcs & Hc).
    apply list_elem_of_In, list_elem_of_fmap in Hcs as ([si sec] & -> & Hsec).
    apply zip_seq_lookup in Hsec. unfold section_chunks in Hc. cbn [fst snd] in Hc.
    destruct (chunk_text_windows (sec_text sec) (size_of sec) (size_of_positive sec))
      as (windows & Hchunks & _ & Hwords & Hsizes).
    rewrite Hchunks in Hc.
    apply list_elem_of_In, list_elem_of_fmap in Hc as ([ci chunk] & -> & Hchunk).
    apply zip_seq_lookup in Hchunk.
    exists page, sec, (Py.join " " <$> windows). cbn [chunk_of pc_url pc_title
      pc_section_index pc_chunk_index pc_heading_level pc_content fst snd].
    do 6 (split; [done|]). split; [exact Hchunk|].
    rewrite list_lookup_fmap in Hchunk.
    destruct (windows !! ci) as [w|] eqn:Hw; [|done]. injection Hchunk as <-.
    apply list_elem_of_lookup_2 in Hw.
    rewrite Forall_forall in Hwords, Hsizes.
    specialize (Hwords w Hw). destruct (Hsizes w Hw) as [Hone Hmost].
    rewrite (split_join_words w Hwords). split; [|split; [done|]].
    + intros Hempty. pose proof (split_join_words w Hwords) as Hsplit.
      rewrite Hempty in Hsplit. rewrite <- Hsplit in Hone. vm_compute in Hone. lia.
    + unfold size_of, CHUNK_SIZE_HIGH, CHUNK_SIZE_LOW in Hmost. exact Hmost.
  - rewrite concat_fmap_concat, <- list_fmap_compose. f_equal.
    apply list_fmap_ext. intros _ page _. simpl. unfold page_chunks.
    rewrite concat_fmap_concat, <- list_fmap_compose.
    rewrite <- (snd_zip (seq 0 (length (extract_sections (lp_content page))))
                  (extract_sections (lp_content page))) at 3
      by (rewrite length_seq; lia).
    rewrite <- list_fmap_compose. f_equal.
    apply list_fmap_ext. intros _ [si sec] _. simpl. unfold section_chunks. cbn [fst snd].
    destruct (chunk_text_windows (sec_text sec) (size_of sec) (size_of_positive sec))
      as (windows & -> & Hconcat & Hwords & _).
    transitivity
      (concat (Py.split <$>
                 (zip (seq 0 (length (Py.join " " <$> windows)))
                    (Py.join " " <$> windows)).*2));
      [by rewrite <- !list_fmap_compose|].
    rewrite snd_zip by (rewrite length_seq; lia).
    by rewrite join_split_windows.
Qed.

End ChunkPages.
